(** * Virtual accelerator: control loop, SNS devices and BTF child nodes

    A shallow embedding of the parts of [virtaccl] that the specification
    talks about:

    - the data-acquisition loop at the end of [main]
      (virtual_accelerator.py),
    - the trimming of the initial bunch and the construction of the
      devices in [main]: quadrupole power supplies and shunts, correctors,
      bends, wire scanners and BPMs,
    - the SNS device classes (virtual_devices_SNS.py),
    - the BTF child nodes (PyORBIT_Model/BTF/btf_child_nodes.py).

    Conventions.  A Python [float] is modelled by an exact rational [Q]:
    every finite binary64 value is a rational, the order of finite floats is
    the order of the rationals, and the sign of a rounded difference is the
    sign of the exact one, so every branch the code takes on finite values
    is the branch taken here; rounding of products and quotients is not
    modelled.  A Python [dict] is a [gmap] where only lookups matter and an
    insertion-ordered association list where the code iterates.  A Python
    exception is the [Raise] alternative of [result]. *)

From Stdlib Require Import QArith Qabs Lqa.
From stdpp Require Import gmap strings list.

Set Default Proof Using "Type".

(** ** Results of fallible Python code *)

Inductive result (E A : Type) : Type :=
| Ok (a : A)
| Raise (e : E).
Arguments Ok {E A} a.
Arguments Raise {E A} e.

Definition is_ok {E A} (r : result E A) : bool :=
  match r with Ok _ => true | Raise _ => false end.

Definition bind_result {E A B} (r : result E A) (k : A -> result E B) :
    result E B :=
  match r with
  | Ok a => k a
  | Raise e => Raise e
  end.

Notation "'let?' x := c 'in' k" := (bind_result c (fun x => k))
  (at level 10, x name, c at level 100, k at level 200).

(** The Python exceptions that the modelled code can raise. *)
Inductive pyexn : Type :=
| KeyError (key : string)
| ZeroDivisionError
| TypeError
| AttributeError
| NameError (name : string)
| SyntaxError.

(** [d[key]] on a dictionary. *)
Definition getitem {V} (d : gmap string V) (key : string) : result pyexn V :=
  match d !! key with
  | Some v => Ok v
  | None => Raise (KeyError key)
  end.

(** [x < y] on Python floats, as a boolean. *)
Definition Qltb (x y : Q) : bool := negb (Qle_bool y x).
Arguments Qltb : simpl never.

(** ** The data-acquisition loop of [main] *)

Module ControlLoop.

(** The collaborators of the loop.  [Server] (ca_server) and [OrbitModel]
    (pyorbit_lattice_controller) are imported by virtual_accelerator.py;
    the loop only calls them, so they are taken as interfaces. *)
Record ServerOps (S P Ms : Type) : Type := {
  get_settings : S -> P;
  update_readbacks : S -> S;
  update_measurements : Ms -> S -> S;
  update : S -> S
}.
Arguments get_settings {S P Ms}.
Arguments update_readbacks {S P Ms}.
Arguments update_measurements {S P Ms}.
Arguments update {S P Ms}.

Record ModelOps (Md P Ms E : Type) : Type := {
  update_optics : P -> Md -> result E Md;
  track : Md -> result E Md;
  get_measurements : Md -> Ms
}.
Arguments update_optics {Md P Ms E}.
Arguments track {Md P Ms E}.
Arguments get_measurements {Md P Ms E}.

(** What the process reads from outside: the wall clock, one reading per
    call of [time.time()], and the answer of each call of [not_ctrlc()]. *)
Record environment : Type := {
  clock : nat -> Q;
  flag : nat -> bool
}.

Definition warning_text : string := "Warning: Update took longer than refresh rate.".
Definition exit_text : string := "Exiting. Thank you for using our virtual accelerator!".

(** The calls of the loop, and reading a trace of them: which call an event
    is, how often a call occurs and where it occurs first. *)
Section Traces.
Context {P Ms : Type}.

(** Calls the loop makes, in the order it makes them. *)
Inductive event : Type :=
| EvNotCtrlC (b : bool)
| EvTime (t : Q)
| EvEpicsNow
| EvGetSettings (p : P)
| EvUpdateReadbacks
| EvUpdateOptics (p : P)
| EvTrack
| EvGetMeasurements (m : Ms)
| EvUpdateMeasurements (m : Ms)
| EvServerUpdate
| EvPrint (s : string)
| EvSleep (d : Q).

Definition is_poll (e : event) : bool :=
  match e with EvNotCtrlC _ => true | _ => false end.
Definition is_poll_true (e : event) : bool :=
  match e with EvNotCtrlC true => true | _ => false end.
Definition is_get_settings (e : event) : bool :=
  match e with EvGetSettings _ => true | _ => false end.
Definition is_update_readbacks (e : event) : bool :=
  match e with EvUpdateReadbacks => true | _ => false end.
Definition is_update_optics (e : event) : bool :=
  match e with EvUpdateOptics _ => true | _ => false end.
Definition is_track (e : event) : bool :=
  match e with EvTrack => true | _ => false end.
Definition is_get_measurements (e : event) : bool :=
  match e with EvGetMeasurements _ => true | _ => false end.
Definition is_update_measurements (e : event) : bool :=
  match e with EvUpdateMeasurements _ => true | _ => false end.
Definition is_server_update (e : event) : bool :=
  match e with EvServerUpdate => true | _ => false end.
Definition is_print (e : event) : bool :=
  match e with EvPrint _ => true | _ => false end.
Definition is_warning (e : event) : bool :=
  match e with EvPrint s => String.eqb s warning_text | _ => false end.
Definition is_sleep (e : event) : bool :=
  match e with EvSleep _ => true | _ => false end.
(** The last call of a tick that ran to its end. *)
Definition is_sleep_decision (e : event) : bool :=
  is_warning e || is_sleep e.

Fixpoint count_ev (f : event -> bool) (tr : list event) : nat :=
  match tr with
  | [] => 0
  | e :: tr' => (if f e then 1 else 0) + count_ev f tr'
  end.

Fixpoint first_index (f : event -> bool) (tr : list event) : option nat :=
  match tr with
  | [] => None
  | e :: tr' => if f e then Some 0 else Datatypes.S <$> first_index f tr'
  end.

(** Both calls occur, and the first [f] comes before the first [g]. *)
Definition before (f g : event -> bool) (tr : list event) : bool :=
  match first_index f tr, first_index g tr with
  | Some i, Some j => i <? j
  | _, _ => false
  end.

(** The order of a tick as the specification gives it: settings, model
    update, tracking, measurements, readbacks, flush. *)
Definition spec_tick_order (tr : list event) : bool :=
  before is_get_settings is_update_optics tr
  && before is_update_optics is_track tr
  && before is_track is_update_measurements tr
  && before is_update_measurements is_update_readbacks tr
  && before is_update_readbacks is_server_update tr.

(** The order of a tick as [main] has it: the readbacks are refreshed
    right after the settings are read. *)
Definition code_tick_order (tr : list event) : bool :=
  before is_get_settings is_update_readbacks tr
  && before is_update_readbacks is_update_optics tr
  && before is_update_optics is_track tr
  && before is_track is_get_measurements tr
  && before is_get_measurements is_update_measurements tr
  && before is_update_measurements is_server_update tr.
(** A tick that ran to its end: the calls of the code in their order, the
    flag not read among them, the warning or the sleep last. *)
Definition complete_tick (body : list event) : bool :=
  code_tick_order body
  && (count_ev is_poll body =? 0)
  && match last body with
     | Some e => is_sleep_decision e
     | None => false
     end.
End Traces.

Section Loop.
Context {S Md P Ms E : Type}.
Abbreviation event := (@event P Ms).
Variable server : ServerOps S P Ms.
Variable model : ModelOps Md P Ms E.
Variable env : environment.
Variable update_period : Q.

Inductive loop_error : Type :=
| ModelError (e : E)
| ValueError.

Record world : Type := {
  srv : S;
  mdl : Md;
  n_time : nat;
  n_poll : nat
}.

(** State, trace and exceptions. *)
Definition prog (A : Type) : Type :=
  world -> list event * world * result loop_error A.

Definition ret {A} (a : A) : prog A := fun w => ([], w, Ok a).

Definition bind {A B} (c : prog A) (k : A -> prog B) : prog B :=
  fun w =>
    match c w with
    | (tr, w1, Ok a) =>
        match k a w1 with
        | (tr', w2, r) => (tr ++ tr', w2, r)
        end
    | (tr, w1, Raise e) => (tr, w1, Raise e)
    end.

Notation "x <- c ;; k" := (bind c (fun x => k))
  (at level 100, c at next level, right associativity).
Notation "c ;;; k" := (bind c (fun _ => k))
  (at level 100, right associativity).

(** The world once the flag has been read. *)
Definition polled (w : world) : world :=
  {| srv := srv w; mdl := mdl w; n_time := n_time w; n_poll := Datatypes.S (n_poll w) |}.

Definition not_ctrlc : prog bool := fun w =>
  let b := flag env (n_poll w) in ([EvNotCtrlC b], polled w, Ok b).

Definition time_time : prog Q := fun w =>
  let t := clock env (n_time w) in
  ([EvTime t],
   {| srv := srv w; mdl := mdl w; n_time := Datatypes.S (n_time w); n_poll := n_poll w |},
   Ok t).

Definition epics_now : prog unit := fun w => ([EvEpicsNow], w, Ok tt).

Definition set_srv (s : S) (w : world) : world :=
  {| srv := s; mdl := mdl w; n_time := n_time w; n_poll := n_poll w |}.
Definition set_mdl (m : Md) (w : world) : world :=
  {| srv := srv w; mdl := m; n_time := n_time w; n_poll := n_poll w |}.

Definition server_get_settings : prog P := fun w =>
  let p := get_settings server (srv w) in ([EvGetSettings p], w, Ok p).

Definition server_update_readbacks : prog unit := fun w =>
  ([EvUpdateReadbacks], set_srv (update_readbacks server (srv w)) w, Ok tt).

Definition model_update_optics (p : P) : prog unit := fun w =>
  match update_optics model p (mdl w) with
  | Ok m => ([EvUpdateOptics p], set_mdl m w, Ok tt)
  | Raise e => ([EvUpdateOptics p], w, Raise (ModelError e))
  end.

Definition model_track : prog unit := fun w =>
  match track model (mdl w) with
  | Ok m => ([EvTrack], set_mdl m w, Ok tt)
  | Raise e => ([EvTrack], w, Raise (ModelError e))
  end.

Definition model_get_measurements : prog Ms := fun w =>
  let m := get_measurements model (mdl w) in ([EvGetMeasurements m], w, Ok m).

Definition server_update_measurements (m : Ms) : prog unit := fun w =>
  ([EvUpdateMeasurements m], set_srv (update_measurements server m (srv w)) w, Ok tt).

Definition server_update : prog unit := fun w =>
  ([EvServerUpdate], set_srv (update server (srv w)) w, Ok tt).

Definition print (s : string) : prog unit := fun w => ([EvPrint s], w, Ok tt).

(** [time.sleep] refuses a negative length. *)
Definition time_sleep (d : Q) : prog unit := fun w =>
  if Qltb d 0 then ([], w, Raise ValueError) else ([EvSleep d], w, Ok tt).

(** The body of [while not_ctrlc():]. *)
Definition tick : prog unit :=
  loop_start_time <- time_time ;;
  epics_now ;;;
  new_params <- server_get_settings ;;
  server_update_readbacks ;;;
  model_update_optics new_params ;;;
  model_track ;;;
  new_measurements <- model_get_measurements ;;
  server_update_measurements new_measurements ;;;
  server_update ;;;
  t <- time_time ;;
  let loop_time_taken := (t - loop_start_time)%Q in
  let sleep_time := (update_period - loop_time_taken)%Q in
  if Qltb sleep_time 0 then print warning_text else time_sleep sleep_time.

(** The calls of a tick up to the second clock reading. *)
Definition tick_calls (w : world) (m2 : Md) : list (event) :=
  [EvTime (clock env (n_time w)); EvEpicsNow;
   EvGetSettings (get_settings server (srv w)); EvUpdateReadbacks;
   EvUpdateOptics (get_settings server (srv w)); EvTrack;
   EvGetMeasurements (get_measurements model m2);
   EvUpdateMeasurements (get_measurements model m2); EvServerUpdate;
   EvTime (clock env (Datatypes.S (n_time w)))].

(** The time the calls of a tick took. *)
Definition elapsed (w : world) : Q :=
  (clock env (Datatypes.S (n_time w)) - clock env (n_time w))%Q.

(** The last call of a tick. *)
Definition last_call (w : world) : event :=
  if Qltb (update_period - elapsed w) 0 then EvPrint warning_text
  else EvSleep (update_period - elapsed w).

(** The world a tick leaves behind. *)
Definition after_tick (w : world) (m2 : Md) : world :=
  {| srv := update server
              (update_measurements server (get_measurements model m2)
                 (update_readbacks server (srv w)));
     mdl := m2;
     n_time := Datatypes.S (Datatypes.S (n_time w));
     n_poll := n_poll w |}.

Inductive outcome : Type :=
| Exited
| StillRunning.

(** The loop, cut after [fuel] evaluations of its condition. *)
Fixpoint main_loop (fuel : nat) : prog outcome :=
  match fuel with
  | O => ret StillRunning
  | Datatypes.S n =>
      go <- not_ctrlc ;;
      if go then tick ;;; main_loop n
      else print exit_text ;;; ret Exited
  end.

(** The two statements of the specification that the loop is checked
    against: a tick that runs to its end makes its calls in the order of
    the specification, and an error of the model never ends the loop. *)
Definition spec_order_holds : Prop :=
  forall w, is_ok (tick w).2 = true -> spec_tick_order (tick w).1.1 = true.

Definition survives_model_errors : Prop :=
  forall fuel w e, (main_loop fuel w).2 <> Raise (ModelError e).

End Loop.


(** A registry with one setting and an echoing model, to run the loop on. *)
Module Demo.
Record registry : Type := {
  setting : Z;
  readback : Z;
  measurement : Z;
  published : Z * Z
}.

Definition server : ServerOps registry Z Z := {|
  get_settings := setting;
  update_readbacks := fun r =>
    {| setting := setting r; readback := setting r;
       measurement := measurement r; published := published r |};
  update_measurements := fun m r =>
    {| setting := setting r; readback := readback r;
       measurement := m; published := published r |};
  update := fun r =>
    {| setting := setting r; readback := readback r;
       measurement := measurement r;
       published := (readback r, measurement r) |}
|}.

Record lattice : Type := { optics : Z; tracked : Z }.

(** The model doubles its input; a negative parameter is refused by
    [update_optics] and the value 13 makes [track] fail. *)
Definition model : ModelOps lattice Z Z string := {|
  update_optics := fun p l =>
    if (p <? 0)%Z then Raise "invalid parameter"
    else Ok {| optics := p; tracked := tracked l |};
  track := fun l =>
    if (optics l =? 13)%Z then Raise "beam lost"
    else Ok {| optics := optics l; tracked := 2 * optics l |};
  get_measurements := tracked
|}.

(** Each clock reading is a quarter of a second after the one before. *)
Definition fast : environment :=
  {| clock := fun n => (Z.of_nat n # 4)%Q; flag := fun n => n <? 2 |}.
(** Each clock reading is three seconds after the one before. *)
Definition slow : environment :=
  {| clock := fun n => (3 * Z.of_nat n # 1)%Q; flag := fun _ => true |}.

Definition start (s : Z) : @world registry lattice :=
  {| srv := {| setting := s; readback := 0; measurement := 0; published := (0, 0)%Z |};
     mdl := {| optics := 0; tracked := 0 |};
     n_time := 0; n_poll := 0 |}.
End Demo.

End ControlLoop.

(** ** Quadrupole power supplies and shunts in [main] *)

Module Wiring.

(** An insertion-ordered dictionary with string keys. *)
Definition odict (V : Type) : Type := list (string * V).

Fixpoint od_get {V} (k : string) (d : odict V) : option V :=
  match d with
  | [] => None
  | (k', v) :: d' => if decide (k = k') then Some v else od_get k d'
  end.

(** [d[k] = v]: the value of an existing key is replaced where it stands, a
    new key goes to the end. *)
Fixpoint od_set {V} (k : string) (v : V) (d : odict V) : odict V :=
  match d with
  | [] => [(k, v)]
  | (k', v') :: d' =>
      if decide (k = k') then (k, v) :: d' else (k', v') :: od_set k v d'
  end.

(** A float that may be [math.inf] or its negative. *)
Inductive efloat : Type :=
| Fin (q : Q)
| PInf
| NInf.

(** [e > q] for a finite [q]. *)
Definition efloat_gt (e : efloat) (q : Q) : bool :=
  match e with
  | Fin a => Qltb q a
  | PInf => true
  | NInf => false
  end.

(** [q - e] for a finite [q]. *)
Definition efloat_rsub (q : Q) (e : efloat) : efloat :=
  match e with
  | Fin a => Fin (q - a)
  | PInf => NInf
  | NInf => PInf
  end.

(** An entry of [devices_dict["Quadrupole"]]. *)
Record quad_config : Type := {
  PyORBIT_Name : string;
  Polarity : Z;
  Power_Supply : option string;
  Power_Shunt : option string
}.

(** A value of [ps_quads[ps_name]["quads"]]. *)
Record quad_model : Type := {
  or_name : string;
  shunt : string;
  dBdr : Q;
  polarity : Z
}.

(** A value of [ps_quads]. *)
Record ps_entry : Type := {
  quads : odict quad_model;
  min_field : efloat
}.

(** [{"quads": {}, "min_field": math.inf}] *)
Definition fresh : ps_entry := {| quads := []; min_field := PInf |}.

(** The devices [main] constructs and hands to [server.add_device]. *)
Inductive device : Type :=
| Quadrupole_Power_Supply (name : string) (field : efloat)
| Quadrupole_Power_Shunt (name : string) (field : efloat)
| Quadrupole (name model_name power_supply : string)
    (power_shunt : option string) (polarity : Z).

Section Main.
(** [devices_dict["Quadrupole_Power_Supply"]],
    [devices_dict["Quadrupole_Power_Shunt"]], [devices_dict["Quadrupole"]],
    [model.get_element_list()] and
    [model.get_element_parameters(ele_name)['dB/dr']]. *)
Variable quad_ps_names : list string.
Variable quad_shunt_names : list string.
Variable quads_config : odict quad_config.
Variable element_list : list string.
Variable get_dBdr : string -> Q.

Definition init_ps_quads : odict ps_entry :=
  fold_left (fun ps_quads name => od_set name fresh ps_quads)
            quad_ps_names [].

(** One round of [for name, device_dict in quads.items()].  The lookup
    [ps_quads[ps_name]] cannot fail, [ps_name] being one of
    [quad_ps_names] ([ps_quads_has_every_name] below); its [None] branch
    is there to make the function total. *)
Definition add_quad (ps_quads : odict ps_entry)
    (item : string * quad_config) : odict ps_entry :=
  let name := item.1 in
  let device_dict := item.2 in
  let ele_name := PyORBIT_Name device_dict in
  if decide (ele_name ∈ element_list) then
    let initial_field_str := Qabs (get_dBdr ele_name) in
    match Power_Supply device_dict with
    | Some ps_name =>
        if decide (ps_name ∈ quad_ps_names) then
          match od_get ps_name ps_quads with
          | Some entry =>
              match Power_Shunt device_dict with
              | Some shunt_name =>
                  if decide (shunt_name ∈ quad_shunt_names) then
                    od_set ps_name
                      {| quads :=
                           od_set name
                             {| or_name := ele_name; shunt := shunt_name;
                                dBdr := initial_field_str;
                                polarity := Polarity device_dict |}
                             (quads entry);
                         min_field :=
                           if efloat_gt (min_field entry) initial_field_str
                           then Fin initial_field_str else min_field entry |}
                      ps_quads
                  else
                    od_set ps_name
                      {| quads :=
                           od_set name
                             {| or_name := ele_name; shunt := "none";
                                dBdr := initial_field_str;
                                polarity := Polarity device_dict |}
                             (quads entry);
                         min_field :=
                           if efloat_gt (min_field entry) initial_field_str
                           then Fin initial_field_str else min_field entry |}
                      ps_quads
              | None =>
                  od_set ps_name
                    {| quads :=
                         od_set name
                           {| or_name := ele_name; shunt := "none";
                              dBdr := initial_field_str;
                              polarity := Polarity device_dict |}
                           (quads entry);
                       min_field :=
                         if efloat_gt (min_field entry) initial_field_str
                         then Fin initial_field_str else min_field entry |}
                    ps_quads
              end
          | None => ps_quads
          end
        else ps_quads
    | None => ps_quads
    end
  else ps_quads.

Definition collect_quads : odict ps_entry :=
  fold_left add_quad quads_config init_ps_quads.

(** One round of [for quad_name, quad_model in ps_dict["quads"].items()]. *)
Definition quad_devices (ps_name : string) (ps_field : efloat)
    (item : string * quad_model) : list device :=
  let quad_name := item.1 in
  let quad_model := item.2 in
  if decide (shunt quad_model = "none") then
    [Quadrupole quad_name (or_name quad_model) ps_name None
       (polarity quad_model)]
  else
    let shunt_name := shunt quad_model in
    let field := dBdr quad_model in
    let shunt_field := efloat_rsub field ps_field in
    [Quadrupole_Power_Shunt shunt_name shunt_field;
     Quadrupole quad_name (or_name quad_model) ps_name (Some shunt_name)
       (polarity quad_model)].

(** One round of [for ps_name, ps_dict in ps_quads.items()]. *)
Definition ps_devices (item : string * ps_entry) : list device :=
  let ps_name := item.1 in
  let ps_dict := item.2 in
  match quads ps_dict with
  | [] => []
  | _ :: _ =>
      let ps_field := min_field ps_dict in
      Quadrupole_Power_Supply ps_name ps_field
        :: flat_map (quad_devices ps_name ps_field) (quads ps_dict)
  end.

(** The devices added between the cavities and the correctors. *)
Definition quadrupole_devices : list device :=
  flat_map ps_devices collect_quads.

(** What "connected" means on the configuration: the quadrupole is in the
    lattice and names this power supply, which is a configured one. *)
Definition connected (ps_name : string) (item : string * quad_config) : Prop :=
  PyORBIT_Name item.2 ∈ element_list
  /\ Power_Supply item.2 = Some ps_name
  /\ ps_name ∈ quad_ps_names.

(** [abs(model.get_element_parameters(ele_name)['dB/dr'])]. *)
Definition field_strength (item : string * quad_config) : Q :=
  Qabs (get_dBdr (PyORBIT_Name item.2)).

(** The entry of a power supply once a quadrupole has been added to it; the
    branches of [add_quad] differ in the shunt name only. *)
Definition with_quad (item : string * quad_config) (shunt_name : string)
    (entry : ps_entry) : ps_entry :=
  {| quads :=
       od_set item.1
         {| or_name := PyORBIT_Name item.2; shunt := shunt_name;
            dBdr := field_strength item; polarity := Polarity item.2 |}
         (quads entry);
     min_field :=
       if efloat_gt (min_field entry) (field_strength item)
       then Fin (field_strength item) else min_field entry |}.

(** What holds of the entry of a power supply after the quadrupoles
    [processed] have been read: its [min_field] is below the field of every
    quadrupole connected to it, is [math.inf] as long as it has no
    quadrupole and the field of a connected quadrupole afterwards, and
    every quadrupole recorded in it is a connected one. *)
Definition entry_ok (processed : odict quad_config) (ps_name : string)
    (entry : ps_entry) : Prop :=
  (forall q, q ∈ processed -> connected ps_name q ->
     exists m, min_field entry = Fin m /\ (m <= field_strength q)%Q)
  /\ match quads entry with
     | [] => min_field entry = PInf
     | _ :: _ =>
         exists q, q ∈ processed /\ connected ps_name q
                   /\ min_field entry = Fin (field_strength q)
     end
  /\ (forall name qm, (name, qm) ∈ quads entry ->
        exists q, q ∈ processed /\ connected ps_name q
                  /\ dBdr qm = field_strength q).

Definition ps_quads_ok (processed : odict quad_config)
    (ps_quads : odict ps_entry) : Prop :=
  NoDup ps_quads.*1
  /\ forall ps_name entry,
       od_get ps_name ps_quads = Some entry -> entry_ok processed ps_name entry.

End Main.

(** A configuration with two power supplies, three quadrupoles and one
    quadrupole outside the lattice. *)
Module Demo.
Definition quad_ps_names : list string := ["PS_A"; "PS_B"].
Definition quad_shunt_names : list string := ["ShntC_1"; "ShntC_2"].
Definition quads_config : odict quad_config :=
  [("Q1", {| PyORBIT_Name := "q1"; Polarity := 1;
             Power_Supply := Some "PS_A"; Power_Shunt := Some "ShntC_1" |});
   ("Q2", {| PyORBIT_Name := "q2"; Polarity := -1;
             Power_Supply := Some "PS_A"; Power_Shunt := Some "ShntC_2" |});
   ("Q3", {| PyORBIT_Name := "q3"; Polarity := 1;
             Power_Supply := Some "PS_B"; Power_Shunt := None |});
   ("Q4", {| PyORBIT_Name := "q4"; Polarity := 1;
             Power_Supply := Some "PS_A"; Power_Shunt := None |})].
Definition element_list : list string := ["q1"; "q2"; "q3"].
Definition get_dBdr (ele_name : string) : Q :=
  if decide (ele_name = "q1") then (-5 # 2)%Q
  else if decide (ele_name = "q2") then (3 # 2)%Q
  else if decide (ele_name = "q3") then 4%Q
  else (1 # 10)%Q.
End Demo.

End Wiring.

(** ** Python strings *)

Module PyStr.

(** [s[n:]] *)
Fixpoint skip (n : nat) (s : string) : string :=
  match n, s with
  | O, _ => s
  | Datatypes.S n', String _ s' => skip n' s'
  | Datatypes.S _, EmptyString => EmptyString
  end.

(** [sub in s] *)
Fixpoint contains (sub s : string) : bool :=
  if String.prefix sub s then true
  else match s with
       | EmptyString => false
       | String _ s' => contains sub s'
       end.

(** [s.replace(old, new, 1)]: the leftmost occurrence of [old] is replaced,
    and [s] is returned as it is when there is none. *)
Fixpoint replace_first (old new s : string) : string :=
  if String.prefix old s then new +:+ skip (String.length old) s
  else match s with
       | EmptyString => EmptyString
       | String c s' => String c (replace_first old new s')
       end.

End PyStr.

(** ** The SNS devices *)

Module SNS.

(** Modelled from the spec: [Transform], [AbsNoise], [Parameter] and the
    base class [Device] of ca_server, which virtual_devices_SNS.py imports
    and which is not among the sources.  A transform is a pair of
    functions between raw and real values; the linear-inverse transform
    has [raw = scaler * real + offset]; absolute noise has an amplitude. *)
Record Transform : Type := {
  real : Q -> Q;
  raw : Q -> Q
}.

(** Modelled from the spec: the identity transform of ca_server, raw and
    real being the same. *)
Definition IdentityT : Transform := {| real := fun x => x; raw := fun x => x |}.

(** Modelled from the spec: [LinearTInv(scaler)] of ca_server, the
    linear-inverse transform with [raw = scaler * real] and no offset. *)
Definition LinearTInv (scaler : Q) : Transform :=
  {| real := fun x => (x / scaler)%Q; raw := fun x => (scaler * x)%Q |}.

(** Modelled from the spec: [AbsNoise(noise)] of ca_server, absolute noise
    of the given amplitude. *)
Record AbsNoise : Type := { noise : Q }.

(** Modelled from the spec: a Parameter is a named slot with a raw value,
    a transform and possibly a noise policy.  ([Parameter] is a reserved
    word here, hence the shorter name.) *)
Record Param : Type := {
  pv_name : string;
  raw_value : Q;
  transform : Transform;
  noise_policy : option AbsNoise
}.

(** Modelled from the spec: a readback is a Parameter linked to a setting
    Parameter, published under [name_override] when one is given.  The
    setting is referred to by its place in the heap of the device, so that
    the link is to the Parameter itself and not to a copy of it. *)
Record Readback : Type := {
  linked_setting : nat;
  readback_noise : option AbsNoise;
  readback_transform : Transform;
  name_override : option string
}.

(** Modelled from the spec: a Device is a name, a model name and its
    Parameters in three roles. *)
Record Device : Type := {
  name : string;
  model_name : string;
  heap : list Param;
  settings : gmap string nat;
  readbacks : gmap string Readback;
  measurements : gmap string Param
}.

(** Modelled from the spec: [Device.__init__(name, model_name)]. *)
Definition Device_init (name model_name : string) : Device :=
  {| name := name; model_name := model_name; heap := [];
     settings := ∅; readbacks := ∅; measurements := ∅ |}.

(** Modelled from the spec: [register_setting(pv_name, default, transform)]
    creates a writable Parameter seeded with [transform.raw(default)] and
    returns it. *)
Definition register_setting (pv : string) (default : Q) (t : Transform)
    (self : Device) : Device * nat :=
  ({| name := name self; model_name := model_name self;
      heap := heap self ++
              [{| pv_name := pv; raw_value := raw t default; transform := t;
                  noise_policy := None |}];
      settings := <[pv := length (heap self)]> (settings self);
      readbacks := readbacks self;
      measurements := measurements self |},
   length (heap self)).

(** Modelled from the spec:
    [register_readback(pv_name, linked_setting, noise, name_override)]. *)
Definition register_readback (pv : string) (setting : nat)
    (noise : option AbsNoise) (override : option string)
    (self : Device) : Device :=
  {| name := name self; model_name := model_name self; heap := heap self;
     settings := settings self;
     readbacks :=
       <[pv := {| linked_setting := setting; readback_noise := noise;
                  readback_transform := IdentityT;
                  name_override := override |}]> (readbacks self);
     measurements := measurements self |}.

(** Modelled from the spec: a readback is published under its
    [name_override] when it has one, and under its PV name otherwise. *)
Definition published_name (pv : string) (r : Readback) : string :=
  match name_override r with
  | Some n => n
  | None => pv
  end.

(** Modelled from the spec: [register_measurement(pv_name, noise=None)]
    creates a read-only Parameter without transform. *)
Definition register_measurement (pv : string) (noise : option AbsNoise)
    (self : Device) : Device :=
  {| name := name self; model_name := model_name self; heap := heap self;
     settings := settings self; readbacks := readbacks self;
     measurements :=
       <[pv := {| pv_name := pv; raw_value := 0%Q; transform := IdentityT;
                  noise_policy := noise |}]> (measurements self) |}.

(** Modelled from the spec: [update_measurement(pv_name, value)] stores the
    value in the measurement Parameter of that name. *)
Definition update_measurement (pv : string) (value : Q) (self : Device) : Device :=
  {| name := name self; model_name := model_name self; heap := heap self;
     settings := settings self; readbacks := readbacks self;
     measurements :=
       alter (fun p => {| pv_name := pv_name p; raw_value := value;
                          transform := transform p;
                          noise_policy := noise_policy p |})
             pv (measurements self) |}.

(** Modelled from the spec: the published value of a measurement is its raw
    value through its transform, plus the amplitude of its noise times a
    random draw. *)
Definition published_value (draw : Q) (p : Param) : Q :=
  match noise_policy p with
  | Some n => (real (transform p) (raw_value p) + noise n * draw)%Q
  | None => real (transform p) (raw_value p)
  end.

(** *** The magnets *)

(** What virtual_devices_SNS.py takes from the classes [Quadrupole],
    [Quadrupole_Doublet], [Quadrupole_Set] and [Corrector] of
    virtaccl.virtual_devices, which is not among the sources: the PV names,
    the model key and the initializer that [super().__init__] runs.
    [Args] is what that initializer is given after the name. *)
Record MagnetClass (Args : Type) : Type := {
  field_set_pv : string;
  field_readback_pv : string;
  field_key : string;
  super_init : string -> Args -> option (gmap string Q) -> Device
}.
Arguments field_set_pv {Args}.
Arguments field_readback_pv {Args}.
Arguments field_key {Args}.
Arguments super_init {Args}.

(** [Corrector] has limits as well. *)
Record CorrectorClass : Type := {
  magnet :> MagnetClass (option string);
  field_high_limit_pv : string;
  field_low_limit_pv : string;
  field_limits : Q * Q
}.

(** [initial_dict[key]] when a dictionary is given, and [0.0] otherwise. *)
Definition initial_value (initial_dict : option (gmap string Q))
    (key : string) : result pyexn Q :=
  match initial_dict with
  | Some d => getitem d key
  | None => Ok 0%Q
  end.

Module SNS_Quadrupole.
Definition init (Quadrupole : MagnetClass string)
    (name : string) (model_name : option string)
    (initial_dict : option (gmap string Q)) : result pyexn Device :=
  let self_model_name :=
    match model_name with None => name | Some m => m end in
  let self := super_init Quadrupole name self_model_name initial_dict in
  let readback_name := PyStr.replace_first "PS_" "" name in
  let? initial_field := initial_value initial_dict (field_key Quadrupole) in
  let field_noise := {| noise := 1 # 1000000 |} in
  let pol := if PyStr.contains "PS_QH" name then (-1)%Q else 1%Q in
  let pol_transform := LinearTInv pol in
  let initial_field := raw pol_transform initial_field in
  let registered :=
    register_setting (field_set_pv Quadrupole) initial_field pol_transform self in
  let self := registered.1 in
  let field_param := registered.2 in
  Ok (register_readback (field_readback_pv Quadrupole) field_param
        (Some field_noise) (Some readback_name) self).
End SNS_Quadrupole.

Module SNS_Quadrupole_Doublet.
Definition init (Quadrupole_Doublet : MagnetClass (string * string))
    (name h_model_name v_model_name : string)
    (initial_dict : option (gmap string Q)) : result pyexn Device :=
  let self :=
    super_init Quadrupole_Doublet name (h_model_name, v_model_name)
      initial_dict in
  let readback_name := PyStr.replace_first "PS_" "" name in
  let? initial_field :=
    initial_value initial_dict (field_key Quadrupole_Doublet) in
  let field_noise := {| noise := 1 # 1000000 |} in
  let pol := if PyStr.contains "SCL" name then (-1)%Q else 1%Q in
  let pol_transform := LinearTInv pol in
  let initial_field := raw pol_transform initial_field in
  let registered :=
    register_setting (field_set_pv Quadrupole_Doublet) initial_field
      pol_transform self in
  let self := registered.1 in
  let field_param := registered.2 in
  Ok (register_readback (field_readback_pv Quadrupole_Doublet) field_param
        (Some field_noise) (Some readback_name) self).
End SNS_Quadrupole_Doublet.

Module SNS_Quadrupole_Set.
(** The initial field is read under [Quadrupole.field_key], the PVs are
    those of [Quadrupole_Set]. *)
Definition init (Quadrupole : MagnetClass string)
    (Quadrupole_Set : MagnetClass (list string))
    (name : string) (model_names : list string)
    (initial_dict : option (gmap string Q)) : result pyexn Device :=
  let self := super_init Quadrupole_Set name model_names initial_dict in
  let readback_name := PyStr.replace_first "PS_" "" name in
  let? initial_field := initial_value initial_dict (field_key Quadrupole) in
  let field_noise := {| noise := 1 # 1000000 |} in
  let pol := if PyStr.contains "SCL" name then (-1)%Q else 1%Q in
  let pol_transform := LinearTInv pol in
  let initial_field := raw pol_transform initial_field in
  let registered :=
    register_setting (field_set_pv Quadrupole_Set) initial_field
      pol_transform self in
  let self := registered.1 in
  let field_param := registered.2 in
  Ok (register_readback (field_readback_pv Quadrupole_Set) field_param
        (Some field_noise) (Some readback_name) self).
End SNS_Quadrupole_Set.

Module SNS_Corrector.
(** [super().__init__] is given [model_name] as it came, [None] included. *)
Definition init (Corrector : CorrectorClass)
    (name : string) (model_name : option string)
    (initial_dict : option (gmap string Q)) : result pyexn Device :=
  let self := super_init Corrector name model_name initial_dict in
  let readback_name := PyStr.replace_first "PS_" "" name in
  let? initial_field := initial_value initial_dict (field_key Corrector) in
  let field_noise := {| noise := 1 # 1000000 |} in
  let pol := if PyStr.contains "SCL" name then (-1)%Q else 1%Q in
  let pol_transform := LinearTInv pol in
  let initial_field := raw pol_transform initial_field in
  let registered :=
    register_setting (field_set_pv Corrector) initial_field pol_transform self in
  let self := registered.1 in
  let field_param := registered.2 in
  let self :=
    register_readback (field_readback_pv Corrector) field_param
      (Some field_noise) (Some readback_name) self in
  let self :=
    (register_setting (field_high_limit_pv Corrector)
       (field_limits Corrector).2 IdentityT self).1 in
  Ok (register_setting (field_low_limit_pv Corrector)
        (field_limits Corrector).1 IdentityT self).1.
End SNS_Corrector.

(** The readback [pv] of [self] is linked to the Parameter at [setting] of
    the heap, which is the setting [setting_pv], and is published under
    [public]. *)
Definition readback_linked (self : Device) (pv : string) (setting : nat)
    (setting_pv public : string) : Prop :=
  exists rb p,
    readbacks self !! pv = Some rb
    /\ linked_setting rb = setting
    /\ heap self !! setting = Some p
    /\ pv_name p = setting_pv
    /\ name_override rb = Some public
    /\ published_name pv rb = public.

(** *** SNS_Dummy_BCM *)

Module SNS_Dummy_BCM.
Definition freq_pv : string := "FFT_peak2".
Definition beta_key : string := "beta".
Definition c_light : Q := 299792458.
Definition ring_length : Q := 247967 # 1000.

Definition init (name : string) (model_name : option string) : Device :=
  let self_model_name :=
    match model_name with None => name | Some m => m end in
  register_measurement freq_pv None (Device_init name self_model_name).

Definition update_measurements (self : Device)
    (new_params : gmap string (gmap string Q)) : Device :=
  map_fold (fun model_name param_dict self =>
    if decide (model_name = SNS.model_name self) then
      map_fold (fun param_key model_value self =>
        if decide (param_key = beta_key) then
          let reason := freq_pv in
          let beta := model_value in
          let freq := (beta * c_light / ring_length)%Q in
          update_measurement reason freq self
        else self) self param_dict
    else self) self new_params.
End SNS_Dummy_BCM.

(** *** SNS_Dummy_ICS *)

Module SNS_Dummy_ICS.
Definition beam_on_pv : string := "Gate_BeamOn:RR".
Definition event_pv : string := "Util:event46".
Definition trigger_pv : string := "Gate_BeamOn:SSTrigger".

Definition init (name : string) (model_name : option string) : Device :=
  let self_model_name :=
    match model_name with None => name | Some m => m end in
  let self := Device_init name self_model_name in
  let rr_noise := {| noise := 1 # 100 |} in
  let event_noise := {| noise := 1 # 1000000000 |} in
  let self := register_measurement beam_on_pv (Some rr_noise) self in
  let self := register_measurement event_pv (Some event_noise) self in
  (register_setting trigger_pv 0%Q IdentityT self).1.

Definition update_measurements (self : Device)
    (new_measurements : gmap string (gmap string Q)) : Device :=
  let self := update_measurement beam_on_pv 1%Q self in
  update_measurement event_pv 0%Q self.

Definition get_settings (self : Device) : gmap string (gmap string Q) := ∅.
End SNS_Dummy_ICS.

(** The measurement [pv] was registered without noise and without a
    transform of its own. *)
Definition registered_plain (self : Device) (pv : string) : Prop :=
  exists p,
    measurements self !! pv = Some p
    /\ noise_policy p = None /\ transform p = IdentityT.

(** The measurement [pv] holds the raw value [v]. *)
Definition holds (self : Device) (pv : string) (v : Q) : Prop :=
  exists p, measurements self !! pv = Some p /\ raw_value p = v.

(** The measurement [pv] is published as [v] whatever the random draw. *)
Definition publishes (self : Device) (pv : string) (v : Q) : Prop :=
  exists p,
    measurements self !! pv = Some p
    /\ forall draw, published_value draw p = v.

(** The two dummy diagnostics of the file. *)
Inductive dummy_device : Type :=
| Dummy_BCM
| Dummy_ICS.

Definition dummy_update_measurements (k : dummy_device) :
    Device -> gmap string (gmap string Q) -> Device :=
  match k with
  | Dummy_BCM => SNS_Dummy_BCM.update_measurements
  | Dummy_ICS => SNS_Dummy_ICS.update_measurements
  end.

(** "Its measurement update derives published values without using the
    Model output passed to it." *)
Definition ignores_model_output (k : dummy_device) : Prop :=
  forall self out1 out2,
    dummy_update_measurements k self out1 = dummy_update_measurements k self out2.

(** The classes of virtaccl.virtual_devices as far as they are needed to
    run the initializers: PV names and a [super().__init__] that registers
    nothing. *)
Module Demo.
Definition Quadrupole : MagnetClass string :=
  {| field_set_pv := "B_Set"; field_readback_pv := "B"; field_key := "dB/dr";
     super_init := fun name model_name _ => Device_init name model_name |}.
Definition Quadrupole_Doublet : MagnetClass (string * string) :=
  {| field_set_pv := "B_Set"; field_readback_pv := "B"; field_key := "dB/dr";
     super_init := fun name model_names _ => Device_init name model_names.1 |}.
Definition Quadrupole_Set : MagnetClass (list string) :=
  {| field_set_pv := "B_Set"; field_readback_pv := "B"; field_key := "dB/dr";
     super_init := fun name model_names _ =>
                     Device_init name (String.concat "," model_names) |}.
Definition Corrector : CorrectorClass :=
  {| magnet :=
       {| field_set_pv := "B_Set"; field_readback_pv := "B"; field_key := "B";
          super_init := fun name model_name _ =>
            Device_init name (match model_name with Some m => m | None => name end) |};
     field_high_limit_pv := "B_Set.HOPR";
     field_low_limit_pv := "B_Set.LOPR";
     field_limits := ((-1 # 10)%Q, (1 # 10)%Q) |}.
End Demo.

End SNS.

(** ** The BTF child nodes *)

Module BTF.

(** A bunch of [orbit.core.bunch], as far as the nodes below look at it:
    the number of its particles. *)
Record Bunch : Type := { size : nat }.

(** The values found in [paramsDict] and in the parameters of a node. *)
Inductive pyval : Type :=
| PyInt (z : Z)
| PyFloat (q : Q)
| PyStr (s : string)
| PyBunch (b : Bunch)
| PyNone
| PyObj (name : string).

(** [bunch.getSizeGlobal()] *)
Definition getSizeGlobal (v : pyval) : result pyexn Z :=
  match v with
  | PyBunch b => Ok (Z.of_nat (size b))
  | _ => Raise AttributeError
  end.

(** [n / v] for an [int] [n]: true division, a [float]. *)
Definition int_truediv (n : Z) (v : pyval) : result pyexn Q :=
  match v with
  | PyInt i =>
      if (i =? 0)%Z then Raise ZeroDivisionError
      else Ok (inject_Z n / inject_Z i)%Q
  | PyFloat y =>
      if Qeq_bool y 0 then Raise ZeroDivisionError
      else Ok (inject_Z n / y)%Q
  | _ => Raise TypeError
  end.

(** [x * v] for a [float] [x]. *)
Definition float_mul (x : Q) (v : pyval) : result pyexn Q :=
  match v with
  | PyInt i => Ok (x * inject_Z i)%Q
  | PyFloat y => Ok (x * y)%Q
  | _ => Raise TypeError
  end.

Module BTF_FCclass.
(** [self.parameters] after [__init__]. *)
Definition init_parameters : gmap string pyval := {[ "current" := PyFloat 0 ]}.

(** [trackActions] as a function from [self.parameters] to what they are
    when it returns. *)
Definition trackActions (parameters paramsDict : gmap string pyval) :
    result pyexn (gmap string pyval) :=
  match paramsDict !! "bunch" with
  | None => Ok parameters
  | Some bunch =>
      let? part_num := getSizeGlobal bunch in
      if (part_num >? 0)%Z then
        let? initial_beam_current := getitem paramsDict "beam_current" in
        let? initial_number := getitem paramsDict "initial_particle_number" in
        let? ratio := int_truediv part_num initial_number in
        let? current := float_mul ratio initial_beam_current in
        Ok (<["current" := PyFloat current]> parameters)
      else Ok (<["current" := PyFloat 0]> parameters)
  end.
End BTF_FCclass.

Module BTF_BCMclass.
Definition init_parameters : gmap string pyval := {[ "current" := PyFloat 0 ]}.

Definition trackActions (parameters paramsDict : gmap string pyval) :
    result pyexn (gmap string pyval) :=
  match paramsDict !! "bunch" with
  | None => Ok parameters
  | Some bunch =>
      let? part_num := getSizeGlobal bunch in
      if (part_num >? 0)%Z then
        let? initial_beam_current := getitem paramsDict "beam_current" in
        let? initial_number := getitem paramsDict "initial_particle_number" in
        let? ratio := int_truediv part_num initial_number in
        let? current := float_mul ratio initial_beam_current in
        Ok (<["current" := PyFloat current]> parameters)
      else Ok (<["current" := PyFloat 0]> parameters)
  end.
End BTF_BCMclass.

(** The effect on ['current'] in the words of the specification: nothing
    without a bunch, [part_num / initial_particle_number * beam_current]
    for a bunch with a particle, [0.0] for an empty bunch.  The expression
    is evaluated from left to right, each name looked up where it stands. *)
Definition spec_current (part_num : Z) (paramsDict : gmap string pyval) :
    result pyexn Q :=
  let? initial_particle_number := getitem paramsDict "initial_particle_number" in
  let? ratio := int_truediv part_num initial_particle_number in
  let? beam_current := getitem paramsDict "beam_current" in
  float_mul ratio beam_current.

Definition spec_trackActions (parameters paramsDict : gmap string pyval) :
    result pyexn (gmap string pyval) :=
  match paramsDict !! "bunch" with
  | None => Ok parameters
  | Some bunch =>
      let? part_num := getSizeGlobal bunch in
      if (1 <=? part_num)%Z then
        let? current := spec_current part_num paramsDict in
        Ok (<["current" := PyFloat current]> parameters)
      else Ok (<["current" := PyFloat 0]> parameters)
  end.

(** Two runs agree when both return the same value or both raise. *)
Definition agree {A} (r1 r2 : result pyexn A) : Prop :=
  match r1, r2 with
  | Ok a, Ok b => a = b
  | Raise _, Raise _ => True
  | _, _ => False
  end.

(** *** BTF_Slitclass *)

(** The dictionary display of [BTF_Slitclass.__init__] is taken as the
    tokens of lines 238 and 239; line ends inside the braces do not count.
    Dictionary displays are read by the grammar of Python restricted to
    the expressions that occur: strings (adjacent ones are joined),
    numbers, names and a sign. *)
Inductive token : Type :=
| TLBrace
| TRBrace
| TColon
| TComma
| TMinus
| TString (s : string)
| TNumber (q : Q)
| TName (n : string).

Inductive expr : Type :=
| EStr (s : string)
| ENum (q : Q)
| ENeg (e : expr)
| EName (n : string).

Fixpoint parse_strings (acc : string) (toks : list token) : expr * list token :=
  match toks with
  | TString s :: rest => parse_strings (acc +:+ s) rest
  | _ => (EStr acc, toks)
  end.

Fixpoint parse_expr (toks : list token) : result pyexn (expr * list token) :=
  match toks with
  | TString s :: rest => Ok (parse_strings s rest)
  | TNumber q :: rest => Ok (ENum q, rest)
  | TName n :: rest => Ok (EName n, rest)
  | TMinus :: rest =>
      let? r := parse_expr rest in Ok (ENeg r.1, r.2)
  | _ => Raise SyntaxError
  end.

(** The items of a display after its opening brace, up to the closing
    brace, which has to be the last token. *)
Fixpoint parse_items (fuel : nat) (toks : list token) :
    result pyexn (list (expr * expr)) :=
  match fuel with
  | O => Raise SyntaxError
  | Datatypes.S fuel' =>
      match toks with
      | [TRBrace] => Ok []
      | _ =>
          let? k := parse_expr toks in
          match k.2 with
          | TColon :: toks1 =>
              let? v := parse_expr toks1 in
              match v.2 with
              | [TRBrace] => Ok [(k.1, v.1)]
              | TComma :: toks2 =>
                  let? items := parse_items fuel' toks2 in
                  Ok ((k.1, v.1) :: items)
              | _ => Raise SyntaxError
              end
          | _ => Raise SyntaxError
          end
      end
  end.

Definition parse_dict_display (toks : list token) :
    result pyexn (list (expr * expr)) :=
  match toks with
  | TLBrace :: rest => parse_items (length rest) rest
  | _ => Raise SyntaxError
  end.

(** The names bound at module level of btf_child_nodes.py when a call of
    [__init__] runs, and the names of the module [builtins]. *)
Definition module_globals : list string :=
  ["__name__"; "__doc__"; "__package__"; "__loader__"; "__spec__";
   "__file__"; "__cached__"; "__builtins__";
   "math"; "Dict"; "np"; "Bunch";
   "BTF_FCclass"; "BTF_FC_Objectclass"; "BTF_BCMclass"; "BTF_Screenclass";
   "BTF_Slitclass"].

Definition builtins : list string :=
  ["__build_class__"; "__debug__"; "__doc__"; "__import__"; "__loader__";
   "__name__"; "__package__"; "__spec__";
   "abs"; "aiter"; "all"; "anext"; "any"; "ascii"; "bin"; "bool";
   "breakpoint"; "bytearray"; "bytes"; "callable"; "chr"; "classmethod";
   "compile"; "complex"; "copyright"; "credits"; "delattr"; "dict"; "dir";
   "divmod"; "enumerate"; "eval"; "exec"; "exit"; "filter"; "float";
   "format"; "frozenset"; "getattr"; "globals"; "hasattr"; "hash"; "help";
   "hex"; "id"; "input"; "int"; "isinstance"; "issubclass"; "iter"; "len";
   "license"; "list"; "locals"; "map"; "max"; "memoryview"; "min"; "next";
   "object"; "oct"; "open"; "ord"; "pow"; "print"; "property"; "quit";
   "range"; "repr"; "reversed"; "round"; "set"; "setattr"; "slice";
   "sorted"; "staticmethod"; "str"; "sum"; "super"; "tuple"; "type";
   "vars"; "zip";
   "True"; "False"; "None"; "Ellipsis"; "NotImplemented";
   "ArithmeticError"; "AssertionError"; "AttributeError"; "BaseException";
   "BaseExceptionGroup"; "BlockingIOError"; "BrokenPipeError";
   "BufferError"; "BytesWarning"; "ChildProcessError";
   "ConnectionAbortedError"; "ConnectionError"; "ConnectionRefusedError";
   "ConnectionResetError"; "DeprecationWarning"; "EOFError";
   "EncodingWarning"; "EnvironmentError"; "Exception"; "ExceptionGroup";
   "FileExistsError"; "FileNotFoundError"; "FloatingPointError";
   "FutureWarning"; "GeneratorExit"; "IOError"; "ImportError";
   "ImportWarning"; "IndentationError"; "IndexError"; "InterruptedError";
   "IsADirectoryError"; "KeyError"; "KeyboardInterrupt"; "LookupError";
   "MemoryError"; "ModuleNotFoundError"; "NameError"; "NotADirectoryError";
   "NotImplementedError"; "OSError"; "OverflowError";
   "PendingDeprecationWarning"; "PermissionError"; "ProcessLookupError";
   "RecursionError"; "ReferenceError"; "ResourceWarning"; "RuntimeError";
   "RuntimeWarning"; "StopAsyncIteration"; "StopIteration"; "SyntaxError";
   "SyntaxWarning"; "SystemError"; "SystemExit"; "TabError"; "TimeoutError";
   "TypeError"; "UnboundLocalError"; "UnicodeDecodeError";
   "UnicodeEncodeError"; "UnicodeError"; "UnicodeTranslateError";
   "UnicodeWarning"; "UserWarning"; "ValueError"; "Warning";
   "ZeroDivisionError"].

(** A name is looked up among the locals of the call, then at module level,
    then among the builtins. *)
Definition lookup_name (locals : gmap string pyval) (n : string) :
    result pyexn pyval :=
  match locals !! n with
  | Some v => Ok v
  | None =>
      if decide (n ∈ module_globals) then Ok (PyObj n)
      else if decide (n ∈ builtins) then Ok (PyObj n)
      else Raise (NameError n)
  end.

Fixpoint eval (locals : gmap string pyval) (e : expr) : result pyexn pyval :=
  match e with
  | EStr s => Ok (PyStr s)
  | ENum q => Ok (PyFloat q)
  | EName n => lookup_name locals n
  | ENeg e' =>
      let? v := eval locals e' in
      match v with
      | PyInt z => Ok (PyInt (- z))
      | PyFloat q => Ok (PyFloat (- q))
      | _ => Raise TypeError
      end
  end.

(** The items of a display are evaluated from left to right, the key of an
    item before its value. *)
Fixpoint eval_items (locals : gmap string pyval) (items : list (expr * expr)) :
    result pyexn (list (pyval * pyval)) :=
  match items with
  | [] => Ok []
  | (k, v) :: rest =>
      let? key := eval locals k in
      let? value := eval locals v in
      let? others := eval_items locals rest in
      Ok ((key, value) :: others)
  end.

Module BTF_Slitclass.
Record object : Type := {
  parameters : list (pyval * pyval);
  child_name : string;
  node_type : string;
  si_e_charge : Q
}.

(** Lines 238 and 239 of the source. *)
Definition parameters_display : list token :=
  [TLBrace; TString "speed"; TColon; TNumber 0; TComma;
   TString "position"; TColon; TMinus; TNumber (7 # 100); TComma;
   TString "axis"; TColon; TName "slit_axis"; TComma;
   TString "axis_polarity"; TColon; TName "screen_polarity"; TComma;
   TString "interaction_start"; TColon; TName "interaction";
   TString "edge_to_slit"; TColon; TName "edge_to_slit"; TRBrace].

(** The same with a comma between the last two items. *)
Definition parameters_display_with_comma : list token :=
  [TLBrace; TString "speed"; TColon; TNumber 0; TComma;
   TString "position"; TColon; TMinus; TNumber (7 # 100); TComma;
   TString "axis"; TColon; TName "slit_axis"; TComma;
   TString "axis_polarity"; TColon; TName "screen_polarity"; TComma;
   TString "interaction_start"; TColon; TName "interaction"; TComma;
   TString "edge_to_slit"; TColon; TName "edge_to_slit"; TRBrace].

(** The locals of [__init__(self, child_name, slit_axis=None)]. *)
Definition init_locals (child_name : string) (slit_axis : option pyval) :
    gmap string pyval :=
  {[ "self" := PyObj "self"; "child_name" := PyStr child_name;
     "slit_axis" := match slit_axis with Some v => v | None => PyNone end ]}.

(** [__init__] on a given display.  A display that cannot be read stops
    the module from being compiled, so that no call is ever made; this is
    the same [Raise] here. *)
Definition init_with (display : list token) (child_name : string)
    (slit_axis : option pyval) : result pyexn object :=
  let? items := parse_dict_display display in
  let? parameters := eval_items (init_locals child_name slit_axis) items in
  Ok {| parameters := parameters; child_name := child_name;
        node_type := "BTF_Slit";
        si_e_charge := 16021773 # 100000000000000000000000000 |}.

Definition init (child_name : string) (slit_axis : option pyval) :
    result pyexn object :=
  init_with parameters_display child_name slit_axis.
End BTF_Slitclass.

End BTF.

(** ** Whole runs of the loop *)

Module LoopRuns.
Import ControlLoop.

Section Events.
Context {P Ms : Type}.

Definition is_time (e : @event P Ms) : bool :=
  match e with EvTime _ => true | _ => false end.

(** The length handed to [time.sleep], when the event is a sleep, is not
    negative. *)
Definition sleep_length_ok (e : @event P Ms) : bool :=
  match e with
  | EvSleep d => Qle_bool 0 d
  | _ => true
  end.
End Events.

(** A model that accepts every setting, and a flag that allows three
    ticks. *)
Module Demo.
Definition echo : ModelOps ControlLoop.Demo.lattice Z Z string := {|
  update_optics := fun p l =>
    Ok {| ControlLoop.Demo.optics := p;
          ControlLoop.Demo.tracked := ControlLoop.Demo.tracked l |};
  track := fun l =>
    Ok {| ControlLoop.Demo.optics := ControlLoop.Demo.optics l;
          ControlLoop.Demo.tracked := 2 * ControlLoop.Demo.optics l |};
  get_measurements := ControlLoop.Demo.tracked
|}.

Definition three_ticks : environment :=
  {| clock := fun n => (Z.of_nat n # 4)%Q; flag := fun n => n <? 3 |}.
End Demo.

End LoopRuns.

(** ** The initial bunch of [main] *)

Module Orbit.

(** The bunch of [orbit.core.bunch] as far as [main] and the screens use
    it: its macro-particles in their places, each with the coordinates the
    screens read and the flag that [deleteParticleFast] clears, and the
    macro-size.  [deleteParticleFast] leaves every particle in its place;
    [compress] takes out the particles whose flag is cleared and keeps the
    order of the others. *)
Record particle : Type := { x : Q; y : Q; alive : bool }.

Record Bunch : Type := { slots : list particle; macroSize : Q }.

Definition getSizeGlobal (b : Bunch) : nat := length (slots b).

Definition kill (p : particle) : particle :=
  {| x := x p; y := y p; alive := false |}.

Definition deleteParticleFast (n : nat) (b : Bunch) : Bunch :=
  {| slots := alter kill n (slots b); macroSize := macroSize b |}.

Definition deleteAllParticles (b : Bunch) : Bunch :=
  {| slots := []; macroSize := macroSize b |}.

Definition compress (b : Bunch) : Bunch :=
  {| slots := List.filter alive (slots b); macroSize := macroSize b |}.

(** [bunch.macroSize(value)] *)
Definition set_macroSize (value : Q) (b : Bunch) : Bunch :=
  {| slots := slots b; macroSize := value |}.

Definition less_particles_text : string :=
  "Bunch file contains less particles than the desired number of particles.".

(** Lines 128 to 140 of [main]: the bunch read from the file is cut down to
    [part_num] particles.  The result is the bunch and what was printed. *)
Definition trim_bunch (part_num : Z) (bunch_in : Bunch) : Bunch * list string :=
  let bunch_orig_num := getSizeGlobal bunch_in in
  if (Z.of_nat bunch_orig_num <? part_num)%Z then
    (bunch_in, [less_particles_text])
  else if (part_num <=? 0)%Z then
    (deleteAllParticles bunch_in, [])
  else
    let bunch_macrosize := macroSize bunch_in in
    let bunch_macrosize :=
      (bunch_macrosize * (inject_Z (Z.of_nat bunch_orig_num) / inject_Z part_num))%Q in
    let bunch_in := set_macroSize bunch_macrosize bunch_in in
    let bunch_in :=
      fold_left (fun b n =>
                   if (Z.of_nat n + 1 >? part_num)%Z then deleteParticleFast n b
                   else b)
                (seq 0 bunch_orig_num) bunch_in in
    (compress bunch_in, []).

(** What the loop of [trim_bunch] has done to the particle in place [i]
    once it has gone through the places below [m]: the particle is flagged
    when its place is [keep] or more. *)
Definition cut_at (m keep i : nat) (p : particle) : particle :=
  if decide (keep <= i /\ i < m) then kill p else p.

(** Every particle of the bunch has its flag set, as in a bunch just read
    from a file. *)
Definition all_alive (b : Bunch) : Prop :=
  Forall (fun p => alive p = true) (slots b).

(** A bunch of five particles. *)
Module Demo.
Definition five : Bunch :=
  {| slots := [ {| x := -2 # 100; y := 0; alive := true |};
                {| x := -1 # 100; y := 1 # 100; alive := true |};
                {| x := 0; y := -1 # 100; alive := true |};
                {| x := 1 # 100; y := 0; alive := true |};
                {| x := 2 # 100; y := 2 # 100; alive := true |} ];
     macroSize := 3 # 1 |}.
End Demo.

End Orbit.

(** ** More of the BTF child nodes *)

Module BTFNodes.
Import BTF.

(** [getParam], [setParam] and [getCurrent], the same in every class. *)
Definition getParam (parameters : gmap string pyval) (param : string) :
    result pyexn pyval :=
  getitem parameters param.

Definition setParam (parameters : gmap string pyval) (param : string)
    (new_param : pyval) : gmap string pyval :=
  <[param := new_param]> parameters.

Definition getCurrent (parameters : gmap string pyval) : result pyexn pyval :=
  getitem parameters "current".

(** *** Arithmetic on the values of a parameter dictionary *)

Fixpoint repeat_string (n : nat) (s : string) : string :=
  match n with
  | O => EmptyString
  | Datatypes.S n' => s +:+ repeat_string n' s
  end.

(** [a + b] *)
Definition py_add (a b : pyval) : result pyexn pyval :=
  match a, b with
  | PyInt m, PyInt n => Ok (PyInt (m + n))
  | PyInt m, PyFloat y => Ok (PyFloat (inject_Z m + y))
  | PyFloat x, PyInt n => Ok (PyFloat (x + inject_Z n))
  | PyFloat x, PyFloat y => Ok (PyFloat (x + y))
  | PyStr s, PyStr t => Ok (PyStr (s +:+ t))
  | _, _ => Raise TypeError
  end.

(** [a * b] *)
Definition py_mul (a b : pyval) : result pyexn pyval :=
  match a, b with
  | PyInt m, PyInt n => Ok (PyInt (m * n))
  | PyInt m, PyFloat y => Ok (PyFloat (inject_Z m * y))
  | PyFloat x, PyInt n => Ok (PyFloat (x * inject_Z n))
  | PyFloat x, PyFloat y => Ok (PyFloat (x * y))
  | PyStr s, PyInt n => Ok (PyStr (repeat_string (Z.to_nat n) s))
  | PyInt n, PyStr s => Ok (PyStr (repeat_string (Z.to_nat n) s))
  | _, _ => Raise TypeError
  end.

(** The number a value is, when it is one. *)
Definition number (v : pyval) : result pyexn Q :=
  match v with
  | PyInt z => Ok (inject_Z z)
  | PyFloat q => Ok q
  | _ => Raise TypeError
  end.

(** [v < q] and [v > q] for a number [q]. *)
Definition lt_num (v : pyval) (q : Q) : result pyexn bool :=
  let? x := number v in Ok (Qltb x q).

Definition gt_num (v : pyval) (q : Q) : result pyexn bool :=
  let? x := number v in Ok (Qltb q x).

(** [v == z] for an integer [z]; a comparison for equality never raises. *)
Definition eq_int (v : pyval) (z : Z) : bool :=
  match v with
  | PyInt n => (n =? z)%Z
  | PyFloat q => Qeq_bool q (inject_Z z)
  | _ => false
  end.

(** *** BTF_FC_Objectclass *)

Module BTF_FC_Objectclass.
Definition init_parameters : gmap string pyval := {[ "state" := PyInt 1 ]}.

(** [bunch.deleteAllParticles()] *)
Definition deleteAllParticles (v : pyval) : result pyexn pyval :=
  match v with
  | PyBunch _ => Ok (PyBunch {| size := 0 |})
  | _ => Raise AttributeError
  end.

(** [trackActions] as a function from [paramsDict] to what it is when the
    method returns: the bunch is an object that the method changes in
    place, and the nodes after this one see the change.  The parameters
    of the node are not assigned to. *)
Definition trackActions (parameters paramsDict : gmap string pyval) :
    result pyexn (gmap string pyval) :=
  match paramsDict !! "bunch" with
  | None => Ok paramsDict
  | Some bunch =>
      let? part_num := getSizeGlobal bunch in
      let? live_state := getitem parameters "state" in
      if eq_int live_state 1 then
        if (part_num >? 0)%Z then
          let? emptied := deleteAllParticles bunch in
          Ok (<["bunch" := emptied]> paramsDict)
        else Ok paramsDict
      else Ok paramsDict
  end.
End BTF_FC_Objectclass.

(** *** BTF_Screenclass *)

Module BTF_Screenclass.
Import Orbit.

Definition near_bunch : Q := 1 # 100.

(** [__init__]: the parameters of the new screen and what was printed. *)
Definition init (child_name : string)
    (screen_axis screen_polarity interaction : pyval) :
    gmap string pyval * list string :=
  let parameters : gmap string pyval :=
    {[ "speed" := PyFloat 0; "position" := PyFloat (-7 # 100);
       "axis" := screen_axis; "axis_polarity" := screen_polarity;
       "interaction_start" := interaction ]} in
  let parameters :=
    match parameters !! "interaction_start" with
    | Some PyNone => <["interaction_start" := PyFloat (3 # 100)]> parameters
    | _ => parameters
    end in
  match parameters !! "axis_polarity" with
  | Some PyNone =>
      (<["axis_polarity" := PyInt 1]> parameters,
       ["No axis polarity set for " +:+ child_name +:+ ", using standard value"])
  | _ => (parameters, [])
  end.

(** One of the four loops over the particles: the particle in place [n] is
    flagged when its coordinate is hit by the screen. *)
Definition sweep (coord : particle -> Q) (hit : Q -> bool) (part_num : nat)
    (bunch : Bunch) : Bunch :=
  fold_left (fun b n =>
               match slots b !! n with
               | Some p => if hit (coord p) then deleteParticleFast n b else b
               | None => b
               end)
            (seq 0 part_num) bunch.

(** What a loop has done to the particle in place [i] once it has gone
    through the places below [m]. *)
Definition swept (coord : particle -> Q) (hit : Q -> bool) (m i : nat)
    (p : particle) : particle :=
  if decide (i < m) then (if hit (coord p) then kill p else p) else p.

(** [after] is [before] with some particles flagged: the same macro-size,
    the same places with the same coordinates, and no particle alive that
    was not. *)
Definition thinned (before after : Bunch) : Prop :=
  macroSize after = macroSize before
  /\ length (slots after) = length (slots before)
  /\ forall i p',
       slots after !! i = Some p' ->
       exists p, slots before !! i = Some p
                 /\ x p' = x p /\ y p' = y p
                 /\ (alive p' = true -> alive p = true).

(** The local names of [trackActions]. *)
Definition trackActions_locals : gmap string pyval :=
  {[ "self" := PyObj "self"; "actionsContainer" := PyObj "actionsContainer";
     "paramsDict" := PyObj "paramsDict"; "bunch" := PyObj "bunch";
     "current_position" := PyObj "current_position";
     "axis" := PyObj "axis"; "part_num" := PyObj "part_num";
     "n" := PyObj "n"; "x" := PyObj "x"; "y" := PyObj "y" ]}.

(** [if part_num > 0:] with its three branches on the axis; the last one
    prints [child_name], which has to be looked up first. *)
Definition on_axis (hit : Q -> bool) (axis : pyval) (part_num : nat)
    (bunch : Bunch) : result pyexn Bunch :=
  if 0 <? part_num then
    if eq_int axis 0 then Ok (sweep x hit part_num bunch)
    else if eq_int axis 1 then Ok (sweep y hit part_num bunch)
    else
      let? child_name := lookup_name trackActions_locals "child_name" in
      Ok bunch
  else Ok bunch.

(** [trackActions] on the bunch of [paramsDict], [None] when there is no
    ['bunch'].  Past the test against [near_bunch] the position is a
    number, and the loops compare with that number. *)
Definition trackActions (parameters : gmap string pyval)
    (bunch : option Bunch) : result pyexn (option Bunch) :=
  match bunch with
  | None => Ok None
  | Some bunch =>
      let? position := getitem parameters "position" in
      let? interaction_start := getitem parameters "interaction_start" in
      let? current_position := py_add position interaction_start in
      let? polarity := getitem parameters "axis_polarity" in
      let? current_position := py_mul current_position polarity in
      let? axis := getitem parameters "axis" in
      let part_num := getSizeGlobal bunch in
      let? polarity := getitem parameters "axis_polarity" in
      let? negative := lt_num polarity 0 in
      let? bunch :=
        (if negative then
           let? near := lt_num current_position near_bunch in
           if near then
             let? edge := number current_position in
             on_axis (fun v => Qltb edge v) axis part_num bunch
           else Ok bunch
         else Ok bunch) in
      let? polarity := getitem parameters "axis_polarity" in
      let? positive := gt_num polarity 0 in
      let? bunch :=
        (if positive then
           let? near := gt_num current_position (- near_bunch) in
           if near then
             let? edge := number current_position in
             on_axis (fun v => Qltb v edge) axis part_num bunch
           else Ok bunch
         else Ok bunch) in
      Ok (Some bunch)
  end.
End BTF_Screenclass.

End BTFNodes.

(** ** The SNS devices over several ticks *)

Module SNSRuns.
Import SNS.

(** [update_measurements] of the dummy BCM on the model outputs of
    successive ticks, the first of the list first. *)
Definition update_all (self : Device)
    (outputs : list (gmap string (gmap string Q))) : Device :=
  fold_left SNS_Dummy_BCM.update_measurements outputs self.

(** The ['beta'] of the element [model_name] in a model output. *)
Definition beta_of (model_name : string)
    (output : gmap string (gmap string Q)) : option Q :=
  match output !! model_name with
  | Some param_dict => param_dict !! "beta"
  | None => None
  end.

(** The ['beta'] of the last output of the list that has one. *)
Definition last_beta (model_name : string)
    (outputs : list (gmap string (gmap string Q))) : option Q :=
  fold_left (fun found output =>
               match beta_of model_name output with
               | Some beta => Some beta
               | None => found
               end)
            outputs None.

(** The frequency for a given ['beta']. *)
Definition frequency (beta : Q) : Q :=
  (beta * SNS_Dummy_BCM.c_light / SNS_Dummy_BCM.ring_length)%Q.

End SNSRuns.

(** ** Reading the list of quadrupole devices *)

Module WiringList.
Import Wiring.

Definition ps_name_of (d : device) : option string :=
  match d with
  | Quadrupole_Power_Supply name _ => Some name
  | _ => None
  end.

(** The names of the power supplies of a list of devices, in the order in
    which the devices were added. *)
Definition ps_names_of (devices : list device) : list string :=
  omap ps_name_of devices.

(** The shunt name that [main] records for a quadrupole: the configured
    shunt when it is one of [devices_dict["Quadrupole_Power_Shunt"]], and
    ['none'] otherwise. *)
Definition shunt_of (quad_shunt_names : list string) (cfg : quad_config) : string :=
  match Power_Shunt cfg with
  | Some shunt_name =>
      if decide (shunt_name ∈ quad_shunt_names) then shunt_name else "none"
  | None => "none"
  end.

(** The quadrupole device that belongs to an entry of the configuration. *)
Definition quadrupole_for (quad_shunt_names : list string) (ps_name : string)
    (item : string * quad_config) : device :=
  Quadrupole item.1 (PyORBIT_Name item.2) ps_name
    (if decide (shunt_of quad_shunt_names item.2 = "none") then None
     else Some (shunt_of quad_shunt_names item.2))
    (Polarity item.2).

(** The value that [main] stores in [ps_quads[ps_name]["quads"][name]] for
    an entry of the configuration. *)
Definition model_for (quad_shunt_names : list string) (get_dBdr : string -> Q)
    (item : string * quad_config) : quad_model :=
  {| or_name := PyORBIT_Name item.2;
     shunt := shunt_of quad_shunt_names item.2;
     dBdr := field_strength get_dBdr item;
     polarity := Polarity item.2 |}.

(** The quadrupoles recorded for a power supply are the connected ones among
    those read so far. *)
Definition quads_recorded (quad_ps_names quad_shunt_names element_list : list string)
    (get_dBdr : string -> Q) (processed : odict quad_config)
    (ps_quads : odict ps_entry) : Prop :=
  forall ps_name entry,
    od_get ps_name ps_quads = Some entry ->
    forall name qm,
      (name, qm) ∈ quads entry
      <-> exists cfg,
            (name, cfg) ∈ processed
            /\ connected quad_ps_names element_list ps_name (name, cfg)
            /\ qm = model_for quad_shunt_names get_dBdr (name, cfg).

End WiringList.

(** ** The other devices that [main] constructs *)

Module Startup.

(** An entry of [devices_dict["Corrector"]], [devices_dict["Bend"]] or
    [devices_dict["BPM"]]: a JSON object, of which [main] reads these three
    keys.  A key that the object does not have is [None]. *)
Record device_dict : Type := {
  PyORBIT_Name : option string;
  Polarity : option Z;
  Power_Supply : option string
}.

(** [device_dict[name]] for one of the keys above. *)
Definition key {A} (name : string) (value : option A) : result pyexn A :=
  match value with
  | Some a => Ok a
  | None => Raise (KeyError name)
  end.

(** The devices constructed after the quadrupoles, with the arguments they
    are constructed with; a magnet holds the power-supply device it is
    given. *)
Inductive device : Type :=
| Corrector_Power_Supply (name : string) (field : Q)
| Corrector (name model_name : string) (power_supply : device) (polarity : Z)
| Bend_Power_Supply (name : string) (field : Q)
| Bend (name model_name : string) (power_supply : device)
| WireScanner (name model_name : string)
| BPM (name model_name : string) (phase_offset : Q)
| P_BPM (name model_name : string).

(** [for name, value in items.items(): ...], each round adding devices to
    the server; an exception ends the loop. *)
Fixpoint for_items {A} (round : string * A -> result pyexn (list device))
    (items : Wiring.odict A) : result pyexn (list device) :=
  match items with
  | [] => Ok []
  | item :: rest =>
      let? added := round item in
      let? later := for_items round rest in
      Ok (added ++ later)
  end.

Section Main.
(** [model.get_element_list()], [model.get_element_parameters(ele_name)['B']],
    [devices_dict["Corrector_Power_Supply"]],
    [devices_dict["Bend_Power_Supply"]] and the content of the file of
    [--phase_offset], [None] when the option is not given. *)
Variable element_list : list string.
Variable get_B : string -> Q.
Variable corrector_ps_names : list string.
Variable bend_ps_names : list string.
Variable offset_dict : option (gmap string Q).

Definition corrector_round (item : string * device_dict) :
    result pyexn (list device) :=
  let name := item.1 in
  let device_dict := item.2 in
  let? ele_name := key "PyORBIT_Name" (PyORBIT_Name device_dict) in
  let? polarity := key "Polarity" (Polarity device_dict) in
  if decide (ele_name ∈ element_list) then
    let initial_field := get_B ele_name in
    match Power_Supply device_dict with
    | Some ps_name =>
        if decide (ps_name ∈ corrector_ps_names) then
          let ps_device := Corrector_Power_Supply ps_name initial_field in
          let corrector_device := Corrector name ele_name ps_device polarity in
          Ok [ps_device; corrector_device]
        else Ok []
    | None => Ok []
    end
  else Ok [].

Definition corrector_devices (correctors : Wiring.odict device_dict) :
    result pyexn (list device) :=
  for_items corrector_round correctors.

Definition bend_round (item : string * device_dict) :
    result pyexn (list device) :=
  let name := item.1 in
  let device_dict := item.2 in
  let? ele_name := key "PyORBIT_Name" (PyORBIT_Name device_dict) in
  if decide (ele_name ∈ element_list) then
    let initial_field := 0%Q in
    match Power_Supply device_dict with
    | Some ps_name =>
        if decide (ps_name ∈ bend_ps_names) then
          let ps_device := Bend_Power_Supply ps_name initial_field in
          let bend_device := Bend name ele_name ps_device in
          Ok [ps_device; bend_device]
        else Ok []
    | None => Ok []
    end
  else Ok [].

Definition bend_devices (bends : Wiring.odict device_dict) :
    result pyexn (list device) :=
  for_items bend_round bends.

Definition wire_scanner_round (item : string * string) :
    result pyexn (list device) :=
  let name := item.1 in
  let model_name := item.2 in
  if decide (model_name ∈ element_list) then Ok [WireScanner name model_name]
  else Ok [].

Definition wire_scanner_devices (wire_scanners : Wiring.odict string) :
    result pyexn (list device) :=
  for_items wire_scanner_round wire_scanners.

Definition bpm_round (item : string * device_dict) :
    result pyexn (list device) :=
  let name := item.1 in
  let device_dict := item.2 in
  let? ele_name := key "PyORBIT_Name" (PyORBIT_Name device_dict) in
  if decide (ele_name ∈ element_list) then
    let? phase_offset :=
      match offset_dict with
      | Some offsets => getitem offsets name
      | None => Ok 0%Q
      end in
    Ok [BPM name ele_name phase_offset]
  else Ok [].

Definition bpm_devices (bpms : Wiring.odict device_dict) :
    result pyexn (list device) :=
  for_items bpm_round bpms.

Definition pbpm_round (item : string * string) : result pyexn (list device) :=
  let name := item.1 in
  let model_name := item.2 in
  if decide (model_name ∈ element_list) then Ok [P_BPM name model_name]
  else Ok [].

Definition pbpm_devices (pbpms : Wiring.odict string) :
    result pyexn (list device) :=
  for_items pbpm_round pbpms.

(** Lines 219 to 264 of [main], one loop after the other. *)
Definition later_devices (correctors bends : Wiring.odict device_dict)
    (wire_scanners : Wiring.odict string) (bpms : Wiring.odict device_dict)
    (pbpms : Wiring.odict string) : result pyexn (list device) :=
  let? cs := corrector_devices correctors in
  let? bs := bend_devices bends in
  let? ws := wire_scanner_devices wire_scanners in
  let? ms := bpm_devices bpms in
  let? ps := pbpm_devices pbpms in
  Ok (cs ++ bs ++ ws ++ ms ++ ps).

(** The offset a BPM of this name is constructed with. *)
Definition offset_for (name : string) (phase_offset : Q) : Prop :=
  match offset_dict with
  | Some offsets => offsets !! name = Some phase_offset
  | None => phase_offset = 0%Q
  end.

End Main.

(** What a round adds, nothing when it raises. *)
Definition added {A} (round : string * A -> result pyexn (list device))
    (item : string * A) : list device :=
  match round item with
  | Ok devices => devices
  | Raise _ => []
  end.

Module Demo.
Definition element_list : list string := ["dch01"; "dcv01"; "bpm01"].
Definition get_B (ele_name : string) : Q :=
  if decide (ele_name = "dch01") then (1 # 100)%Q else (-2 # 100)%Q.
Definition corrector_ps_names : list string := ["PS_DC01"].
Definition correctors : Wiring.odict device_dict :=
  [("DCH01", {| PyORBIT_Name := Some "dch01"; Polarity := Some 1%Z;
                Power_Supply := Some "PS_DC01" |});
   ("DCV01", {| PyORBIT_Name := Some "dcv01"; Polarity := Some (-1)%Z;
                Power_Supply := Some "PS_DC01" |});
   ("DCH02", {| PyORBIT_Name := Some "dch02"; Polarity := Some 1%Z;
                Power_Supply := None |})].
Definition bpms : Wiring.odict device_dict :=
  [("BPM01", {| PyORBIT_Name := Some "bpm01"; Polarity := None;
                Power_Supply := None |});
   ("BPM02", {| PyORBIT_Name := Some "bpm02"; Polarity := None;
                Power_Supply := None |})].
Definition offset_dict : gmap string Q := {[ "BPM01" := (15 # 1)%Q ]}.
End Demo.

End Startup.

(* ===================================================================== *)
(** * Properties *)
(* ===================================================================== *)

Lemma Qltb_lt x y : Qltb x y = true <-> (x < y)%Q.
Proof.
  unfold Qltb. rewrite negb_true_iff. split.
  - intros H. apply Qnot_le_lt. intros Hle.
    apply Qle_bool_iff in Hle. congruence.
  - intros H. destruct (Qle_bool y x) eqn:E; [|reflexivity].
    apply Qle_bool_iff in E. exfalso. apply (Qlt_not_le _ _ H E).
Qed.

Lemma Qltb_ge x y : Qltb x y = false <-> (y <= x)%Q.
Proof.
  unfold Qltb. rewrite negb_false_iff. apply Qle_bool_iff.
Qed.

Module ControlLoopFacts.
Import ControlLoop.

Section LoopFacts.
Context {S Md P Ms E : Type}.
Variable server : ServerOps S P Ms.
Variable model : ModelOps Md P Ms E.
Variable env : environment.
Variable update_period : Q.

Local Abbreviation tick := (tick server model env update_period).
Local Abbreviation main_loop := (main_loop server model env update_period).
Local Abbreviation world := (@world S Md).
Local Abbreviation tick_calls := (tick_calls server model env).
Local Abbreviation elapsed := (@elapsed S Md env).
Local Abbreviation last_call := (@last_call S Md P Ms env update_period).
Local Abbreviation after_tick := (after_tick server model).

(** The test of the code, [sleep_time < 0.0], is the test "the tick took
    longer than the period". *)
Lemma sleep_time_negative (period elapsed : Q) :
  Qltb (period - elapsed) 0 = true <-> (period < elapsed)%Q.
Proof. rewrite Qltb_lt. split; intros H; lra. Qed.

Lemma sleep_time_nonnegative (period elapsed : Q) :
  Qltb (period - elapsed) 0 = false <-> ~ (period < elapsed)%Q.
Proof. rewrite Qltb_ge. split; intros H; lra. Qed.

Lemma tick_completes (w : world) (m1 m2 : Md) :
  update_optics model (get_settings server (srv w)) (mdl w) = Ok m1 ->
  track model m1 = Ok m2 ->
  tick w = (tick_calls w m2 ++ [last_call w], after_tick w m2, Ok tt).
Proof.
  intros H1 H2.
  unfold ControlLoop.tick, bind, time_time, epics_now, server_get_settings,
    server_update_readbacks, model_update_optics, model_track,
    model_get_measurements, server_update_measurements, server_update.
  cbn. rewrite H1. cbn. rewrite H2. cbn.
  unfold ControlLoop.last_call, ControlLoop.elapsed, print, time_sleep.
  destruct (Qltb (update_period - _) 0) eqn:Hlt; cbn.
  - reflexivity.
  - reflexivity.
Qed.

Lemma tick_update_optics_raises (w : world) (e : E) :
  update_optics model (get_settings server (srv w)) (mdl w) = Raise e ->
  tick w =
    ([EvTime (clock env (n_time w)); EvEpicsNow;
      EvGetSettings (get_settings server (srv w)); EvUpdateReadbacks;
      EvUpdateOptics (get_settings server (srv w))],
     {| srv := update_readbacks server (srv w); mdl := mdl w;
        n_time := Datatypes.S (n_time w); n_poll := n_poll w |},
     Raise (ModelError e)).
Proof.
  intros H1.
  unfold ControlLoop.tick, bind, time_time, epics_now, server_get_settings,
    server_update_readbacks, model_update_optics.
  cbn. rewrite H1. reflexivity.
Qed.

Lemma tick_track_raises (w : world) (m1 : Md) (e : E) :
  update_optics model (get_settings server (srv w)) (mdl w) = Ok m1 ->
  track model m1 = Raise e ->
  tick w =
    ([EvTime (clock env (n_time w)); EvEpicsNow;
      EvGetSettings (get_settings server (srv w)); EvUpdateReadbacks;
      EvUpdateOptics (get_settings server (srv w)); EvTrack],
     {| srv := update_readbacks server (srv w); mdl := m1;
        n_time := Datatypes.S (n_time w); n_poll := n_poll w |},
     Raise (ModelError e)).
Proof.
  intros H1 H2.
  unfold ControlLoop.tick, bind, time_time, epics_now, server_get_settings,
    server_update_readbacks, model_update_optics, model_track.
  cbn. rewrite H1. cbn. rewrite H2. reflexivity.
Qed.

(** Whatever the model does, a tick starts by reading the clock and the
    settings, refreshes the readbacks and hands the settings to the model. *)
Lemma tick_starts_collecting (w : world) :
  exists rest w' r,
    tick w =
      ([EvTime (clock env (n_time w)); EvEpicsNow;
        EvGetSettings (get_settings server (srv w)); EvUpdateReadbacks;
        EvUpdateOptics (get_settings server (srv w))] ++ rest, w', r).
Proof.
  destruct (update_optics model (get_settings server (srv w)) (mdl w))
    as [m1|e] eqn:H1.
  - destruct (track model m1) as [m2|e] eqn:H2.
    + rewrite (tick_completes w m1 m2 H1 H2). cbn. eauto.
    + rewrite (tick_track_raises w m1 e H1 H2). cbn. eauto.
  - rewrite (tick_update_optics_raises w e H1). cbn. eauto.
Qed.

Lemma main_loop_stop (fuel : nat) (w : world) :
  flag env (n_poll w) = false ->
  main_loop (Datatypes.S fuel) w =
    ([EvNotCtrlC false; EvPrint exit_text], polled w, Ok Exited).
Proof.
  intros Hf. cbn [ControlLoop.main_loop]. unfold bind at 1. unfold not_ctrlc.
  cbv beta zeta iota. rewrite Hf. reflexivity.
Qed.

Lemma main_loop_go (fuel : nat) (w : world) :
  flag env (n_poll w) = true ->
  main_loop (Datatypes.S fuel) w =
    match tick (polled w) with
    | (tr, w1, Ok _) =>
        match main_loop fuel w1 with
        | (tr', w2, r) => (EvNotCtrlC true :: tr ++ tr', w2, r)
        end
    | (tr, w1, Raise e) => (EvNotCtrlC true :: tr, w1, Raise e)
    end.
Proof.
  intros Hf. cbn [ControlLoop.main_loop]. unfold bind at 1. unfold not_ctrlc.
  cbv beta zeta iota. rewrite Hf. cbv beta iota. unfold bind at 1.
  destruct (tick (polled w)) as [[tr w1] [[]|e]]; [|reflexivity].
  destruct (ControlLoop.main_loop _ _ _ _ fuel w1) as [[tr' w2] r]. reflexivity.
Qed.

(** *** Order of the calls in one tick *)

(** C1 (as the code has it).  A tick in which the model raises nothing makes
    its calls in this order: clock, [epics_now], [get_settings],
    [update_readbacks], [update_optics] on the settings just read, [track],
    [get_measurements], [update_measurements] on the measurements just
    read, [server.update], clock, and then the warning or the sleep.  The
    readbacks are therefore refreshed before the model is updated and
    tracked, not after; the measurements are handed over after tracking and
    before the flush. *)
Theorem C1_tick_calls_in_code_order (w : world) (m1 m2 : Md) :
  update_optics model (get_settings server (srv w)) (mdl w) = Ok m1 ->
  track model m1 = Ok m2 ->
  (tick w).1.1 = tick_calls w m2 ++ [last_call w]
  /\ (tick w).1.2 = after_tick w m2
  /\ code_tick_order (tick w).1.1 = true
  /\ before is_update_readbacks is_track (tick w).1.1 = true
  /\ before is_track is_update_measurements (tick w).1.1 = true
  /\ before is_update_measurements is_server_update (tick w).1.1 = true.
Proof.
  intros H1 H2. rewrite (tick_completes w m1 m2 H1 H2). cbn.
  repeat split; reflexivity.
Qed.

(** *** A model error *)

(** C2 (as the code has it).  The loop has no handler: when [update_optics]
    or [track] raises in a tick, the error leaves the loop at that call.
    The run ends with that error, nothing is printed, the flag is not read
    again, and neither [update_measurements] nor [server.update] is called
    in that tick, so the registry is the one before the tick with only its
    readbacks refreshed. *)
Theorem C2_model_error_ends_the_loop (fuel : nat) (w : world) (e : E) :
  flag env (n_poll w) = true ->
  (update_optics model (get_settings server (srv w)) (mdl w) = Raise e
   \/ exists m1,
        update_optics model (get_settings server (srv w)) (mdl w) = Ok m1
        /\ track model m1 = Raise e) ->
  let run := main_loop (Datatypes.S fuel) w in
  run.2 = Raise (ModelError e)
  /\ srv run.1.2 = update_readbacks server (srv w)
  /\ count_ev is_poll run.1.1 = 1
  /\ count_ev is_print run.1.1 = 0
  /\ count_ev is_update_measurements run.1.1 = 0
  /\ count_ev is_server_update run.1.1 = 0
  /\ (last run.1.1 = Some (EvUpdateOptics (get_settings server (srv w)))
      \/ last run.1.1 = Some EvTrack).
Proof.
  intros Hf Hraise run. subst run. rewrite (main_loop_go fuel w Hf).
  destruct Hraise as [H1 | [m1 [H1 H2]]].
  - rewrite (tick_update_optics_raises (polled w) e H1). cbn.
    repeat split; try reflexivity. left; reflexivity.
  - rewrite (tick_track_raises (polled w) m1 e H1 H2). cbn.
    repeat split; try reflexivity. right; reflexivity.
Qed.

(** *** Overrun *)


(** *** Cancellation *)

Lemma count_ev_app (f : @event P Ms -> bool) (l1 l2 : list (@event P Ms)) :
  count_ev f (l1 ++ l2) = count_ev f l1 + count_ev f l2.
Proof. induction l1 as [|x l1 IH]; cbn; [reflexivity|]. rewrite IH. lia. Qed.

(** An event that does not occur in [l1] and occurs in [l1 ++ l2] occurs
    in [l2]. *)
Lemma split_behind_prefix (f : @event P Ms -> bool) (x : @event P Ms) :
  f x = true ->
  forall l1 l2 pre post,
    count_ev f l1 = 0 ->
    l1 ++ l2 = pre ++ x :: post ->
    exists pre2, pre = l1 ++ pre2 /\ l2 = pre2 ++ x :: post.
Proof.
  intros Hx. induction l1 as [|a l1 IH]; intros l2 pre post Hc Heq.
  - exists pre. split; [reflexivity | exact Heq].
  - cbn in Hc. destruct (f a) eqn:Ha; [discriminate|].
    destruct pre as [|p pre].
    + cbn in Heq. injection Heq as -> _. congruence.
    + cbn in Heq. injection Heq as -> Heq.
      destruct (IH l2 pre post Hc Heq) as (pre2 & -> & ->).
      exists pre2. split; reflexivity.
Qed.

Lemma complete_tick_body (w : world) (m2 : Md) :
  complete_tick (tick_calls w m2 ++ [last_call w]) = true
  /\ count_ev is_poll (tick_calls w m2 ++ [last_call w]) = 0
  /\ is_sleep_decision (last_call w) = true.
Proof.
  unfold ControlLoop.last_call.
  destruct (Qltb _ 0); cbn; repeat split; reflexivity.
Qed.


End LoopFacts.

(** *** The loop on the demo registry *)

(** C1 (as the specification has it) fails: on the demo registry a tick
    runs to its end and [update_readbacks] is called before [track], not
    after [update_measurements]. *)
Lemma C1_spec_order_fails :
  ~ spec_order_holds Demo.server Demo.model Demo.slow 1.
Proof.
  intros H. specialize (H (Demo.start 5) eq_refl).
  vm_compute in H. discriminate H.
Qed.

Lemma C1_tick_calls_in_code_order_witness :
  update_optics Demo.model (get_settings Demo.server (srv (Demo.start 5)))
    (mdl (Demo.start 5)) = Ok {| Demo.optics := 5; Demo.tracked := 0 |}
  /\ track Demo.model {| Demo.optics := 5; Demo.tracked := 0 |}
     = Ok {| Demo.optics := 5; Demo.tracked := 10 |}
  /\ before is_update_readbacks is_track
       (tick Demo.server Demo.model Demo.slow 1 (Demo.start 5)).1.1 = true.
Proof.
  split; [reflexivity|]. split; [reflexivity|].
  apply (C1_tick_calls_in_code_order Demo.server Demo.model Demo.slow 1
           (Demo.start 5) {| Demo.optics := 5; Demo.tracked := 0 |}
           {| Demo.optics := 5; Demo.tracked := 10 |});
    reflexivity.
Defined.

(** C2 (as the specification has it) fails: on the demo registry with the
    setting 13, [track] raises in the first tick and the run ends with that
    error although the flag never asks it to stop. *)
Lemma C2_loop_does_not_survive :
  ~ survives_model_errors Demo.server Demo.model Demo.slow 1.
Proof.
  intros H. apply (H 4 (Demo.start 13) "beam lost"). reflexivity.
Qed.

Lemma C2_model_error_ends_the_loop_witness :
  flag Demo.slow (n_poll (Demo.start 13)) = true
  /\ track Demo.model {| Demo.optics := 13; Demo.tracked := 0 |}
     = Raise "beam lost"
  /\ (main_loop Demo.server Demo.model Demo.slow 1 4 (Demo.start 13)).2
     = Raise (ModelError "beam lost")
  /\ count_ev is_poll
       (main_loop Demo.server Demo.model Demo.slow 1 4 (Demo.start 13)).1.1 = 1.
Proof.
  split; [reflexivity|]. split; [reflexivity|].
  pose proof (C2_model_error_ends_the_loop Demo.server Demo.model Demo.slow 1
                3 (Demo.start 13) "beam lost" eq_refl) as H.
  cbv zeta in H.
  destruct H as (H1 & _ & H2 & _).
  - right. exists {| Demo.optics := 13; Demo.tracked := 0 |}.
    split; reflexivity.
  - split; [exact H1 | exact H2].
Defined.



End ControlLoopFacts.

Module WiringFacts.
Import Wiring.

(** *** Ordered dictionaries *)

Lemma od_get_set_eq {V} (k : string) (v : V) (d : odict V) :
  od_get k (od_set k v d) = Some v.
Proof.
  induction d as [|[k' v'] d IH]; cbn.
  - rewrite decide_True by reflexivity. reflexivity.
  - destruct (decide (k = k')) as [->|Hne]; cbn.
    + rewrite decide_True by reflexivity. reflexivity.
    + rewrite decide_False by exact Hne. exact IH.
Qed.

Lemma od_get_set_ne {V} (k k' : string) (v : V) (d : odict V) :
  k <> k' -> od_get k' (od_set k v d) = od_get k' d.
Proof.
  intros Hne. induction d as [|[k0 v0] d IH]; cbn.
  - rewrite decide_False by congruence. reflexivity.
  - destruct (decide (k = k0)) as [->|Hne0]; cbn.
    + rewrite !decide_False by congruence. reflexivity.
    + destruct (decide (k' = k0)); [reflexivity | exact IH].
Qed.

Lemma od_set_item {V} (k n : string) (v x : V) (d : odict V) :
  (n, x) ∈ od_set k v d -> (n = k /\ x = v) \/ (n, x) ∈ d.
Proof.
  induction d as [|[k0 v0] d IH]; cbn.
  - rewrite list_elem_of_singleton. intros [= -> ->]. left; auto.
  - destruct (decide (k = k0)) as [->|Hne]; rewrite !elem_of_cons.
    + intros [[= -> ->] | Hin]; [left; auto | right; right; exact Hin].
    + intros [Heq | Hin]; [right; left; exact Heq|].
      destruct (IH Hin) as [Hl | Hr]; [left; exact Hl | right; right; exact Hr].
Qed.

Lemma od_set_keys {V} (k n : string) (v : V) (d : odict V) :
  n ∈ (od_set k v d).*1 -> n = k \/ n ∈ d.*1.
Proof.
  rewrite !list_elem_of_fmap. intros ([n' x] & -> & Hin).
  destruct (od_set_item _ _ _ _ _ Hin) as [[-> _] | Hd]; [left; reflexivity|].
  right. exists (n', x). auto.
Qed.

Lemma od_set_NoDup {V} (k : string) (v : V) (d : odict V) :
  NoDup d.*1 -> NoDup (od_set k v d).*1.
Proof.
  induction d as [|[k0 v0] d IH]; cbn.
  - intros _. apply NoDup_singleton.
  - rewrite NoDup_cons. intros [Hnot Hnd].
    destruct (decide (k = k0)) as [->|Hne]; cbn; rewrite NoDup_cons.
    + auto.
    + split; [|exact (IH Hnd)].
      intros Hin. destruct (od_set_keys _ _ _ _ Hin); congruence.
Qed.

Lemma od_get_item {V} (k : string) (v : V) (d : odict V) :
  NoDup d.*1 -> (k, v) ∈ d -> od_get k d = Some v.
Proof.
  induction d as [|[k0 v0] d IH]; cbn.
  - intros _ Hin. apply elem_of_nil in Hin. destruct Hin.
  - rewrite NoDup_cons, elem_of_cons. intros [Hnot Hnd] [[= -> ->] | Hin].
    + rewrite decide_True by reflexivity. reflexivity.
    + destruct (decide (k = k0)) as [->|Hne]; [|exact (IH Hnd Hin)].
      exfalso. apply Hnot. apply list_elem_of_fmap. exists (k0, v). auto.
Qed.

Lemma elem_of_flat_map {A B} (f : A -> list B) (l : list A) (y : B) :
  y ∈ flat_map f l <-> exists x, x ∈ l /\ y ∈ f x.
Proof.
  rewrite list_elem_of_In, in_flat_map. split.
  - intros (x & Hx & Hy). exists x. rewrite !list_elem_of_In. auto.
  - intros (x & Hx & Hy). exists x. rewrite !list_elem_of_In in *. auto.
Qed.

Section MainFacts.
Variable quad_ps_names : list string.
Variable quad_shunt_names : list string.
Variable quads_config : odict quad_config.
Variable element_list : list string.
Variable get_dBdr : string -> Q.

Local Abbreviation add_quad :=
  (add_quad quad_ps_names quad_shunt_names element_list get_dBdr).
Local Abbreviation init_ps_quads := (init_ps_quads quad_ps_names).
Local Abbreviation connected := (connected quad_ps_names element_list).
Local Abbreviation field_strength := (field_strength get_dBdr).

(** *** The dictionary before the quadrupoles are read *)

Lemma init_fold (names : list string) (d : odict ps_entry) :
  NoDup d.*1 ->
  (forall k e, od_get k d = Some e -> e = fresh) ->
  let d' := fold_left (fun ps_quads name => od_set name fresh ps_quads) names d in
  NoDup d'.*1
  /\ (forall k e, od_get k d' = Some e -> e = fresh)
  /\ (forall k, k ∈ names \/ is_Some (od_get k d) -> is_Some (od_get k d')).
Proof.
  revert d. induction names as [|n names IH]; intros d Hnd Hfresh; cbn.
  - split; [exact Hnd|]. split; [exact Hfresh|].
    intros k [Hk | Hk]; [apply elem_of_nil in Hk; destruct Hk | auto].
  - destruct (IH (od_set n fresh d)) as (H1 & H2 & H3).
    + apply od_set_NoDup, Hnd.
    + intros k e. destruct (decide (n = k)) as [->|Hne].
      * rewrite od_get_set_eq. congruence.
      * rewrite od_get_set_ne by exact Hne. apply Hfresh.
    + split; [exact H1|]. split; [exact H2|].
      intros k Hk. apply H3.
      destruct (decide (n = k)) as [->|Hne].
      * right. rewrite od_get_set_eq. eauto.
      * rewrite elem_of_cons in Hk.
        destruct Hk as [[-> | Hk] | Hk]; [congruence | left; exact Hk|].
        right. rewrite od_get_set_ne by exact Hne. exact Hk.
Qed.

Lemma init_ps_quads_spec :
  NoDup init_ps_quads.*1
  /\ (forall k e, od_get k init_ps_quads = Some e -> e = fresh)
  /\ (forall k, k ∈ quad_ps_names -> is_Some (od_get k init_ps_quads)).
Proof.
  destruct (init_fold quad_ps_names []) as (H1 & H2 & H3).
  - apply NoDup_nil_2.
  - intros k e H; discriminate H.
  - split; [exact H1|]. split; [exact H2|]. intros k Hk. apply H3. auto.
Qed.

(** *** Reading the quadrupoles *)

Local Abbreviation with_quad := (with_quad get_dBdr).
Local Abbreviation entry_ok :=
  (entry_ok quad_ps_names element_list get_dBdr).
Local Abbreviation ps_quads_ok :=
  (ps_quads_ok quad_ps_names element_list get_dBdr).

Lemma add_quad_cases (ps_quads : odict ps_entry) (item : string * quad_config) :
  (add_quad ps_quads item = ps_quads
   /\ forall ps_name, is_Some (od_get ps_name ps_quads) -> ~ connected ps_name item)
  \/ exists ps_name entry shunt_name,
       connected ps_name item
       /\ od_get ps_name ps_quads = Some entry
       /\ add_quad ps_quads item
          = od_set ps_name (with_quad item shunt_name entry) ps_quads.
Proof.
  unfold Wiring.add_quad, Wiring.connected.
  destruct item as [name dd]; cbn [fst snd].
  destruct (decide (PyORBIT_Name dd ∈ element_list)) as [Hel|Hel];
    [|left; split; [reflexivity | tauto]].
  destruct (Power_Supply dd) as [ps|] eqn:Hps;
    [|left; split; [reflexivity | intros ? _ (_ & [=] & _)]].
  destruct (decide (ps ∈ quad_ps_names)) as [Hin|Hin];
    [|left; split; [reflexivity | intros ? _ (_ & [= <-] & ?); tauto]].
  destruct (od_get ps ps_quads) as [entry|] eqn:Hget.
  - right. exists ps, entry.
    destruct (Power_Shunt dd) as [sh|];
      [destruct (decide (sh ∈ quad_shunt_names))|].
    + exists sh. auto.
    + exists "none"%string. auto.
    + exists "none"%string. auto.
  - left. split; [reflexivity|].
    intros ps' [e He] (_ & [= <-] & _). congruence.
Qed.

Lemma od_set_cons {V} (k : string) (v : V) (d : odict V) :
  exists x l, od_set k v d = x :: l.
Proof.
  destruct d as [|[k0 v0] d]; cbn; [eauto|].
  destruct (decide (k = k0)); eauto.
Qed.

Lemma entry_ok_later (processed : odict quad_config)
    (item : string * quad_config) (ps_name : string) (entry : ps_entry) :
  ~ connected ps_name item ->
  entry_ok processed ps_name entry ->
  entry_ok (processed ++ [item]) ps_name entry.
Proof.
  intros Hnot (Ha & Hb & Hc). split; [|split].
  - intros q Hq Hconn. apply elem_of_app in Hq.
    destruct Hq as [Hq | Hq]; [exact (Ha q Hq Hconn)|].
    apply list_elem_of_singleton in Hq. subst q. tauto.
  - destruct (quads entry); [exact Hb|].
    destruct Hb as (q & Hq & Hb). exists q.
    split; [apply elem_of_app; auto | exact Hb].
  - intros name qm Hin. destruct (Hc name qm Hin) as (q & Hq & Hqc).
    exists q. split; [apply elem_of_app; auto | exact Hqc].
Qed.

Lemma with_quad_ok (processed : odict quad_config)
    (item : string * quad_config) (ps_name shunt_name : string)
    (entry : ps_entry) :
  connected ps_name item ->
  entry_ok processed ps_name entry ->
  entry_ok (processed ++ [item]) ps_name (with_quad item shunt_name entry).
Proof.
  intros Hconn (Ha & Hb & Hc).
  assert (Hitem : item ∈ processed ++ [item])
    by (apply elem_of_app; right; apply list_elem_of_singleton; reflexivity).
  assert (Hmin :
    (min_field entry = PInf
     /\ min_field (with_quad item shunt_name entry) = Fin (field_strength item))
    \/ exists q, q ∈ processed /\ connected ps_name q
         /\ min_field entry = Fin (field_strength q)
         /\ ((field_strength item < field_strength q)%Q
             /\ min_field (with_quad item shunt_name entry)
                = Fin (field_strength item)
             \/ (field_strength q <= field_strength item)%Q
                /\ min_field (with_quad item shunt_name entry)
                   = Fin (field_strength q))).
  { unfold Wiring.with_quad; cbn [min_field].
    destruct (quads entry) as [|x l].
    - left. rewrite Hb. cbn. auto.
    - right. destruct Hb as (q & Hq & Hqc & Hm). exists q.
      split; [exact Hq|]. split; [exact Hqc|]. split; [exact Hm|].
      rewrite Hm. cbn [efloat_gt].
      destruct (Qltb (field_strength item) (field_strength q)) eqn:Hlt.
      + left. apply Qltb_lt in Hlt. auto.
      + right. apply Qltb_ge in Hlt. auto. }
  split; [|split].
  - intros q Hq Hqc. apply elem_of_app in Hq. destruct Hq as [Hq | Hq].
    + destruct (Ha q Hq Hqc) as (m & Hm & Hle).
      destruct Hmin as [[Hinf _] | (q0 & _ & _ & Hm0 & [[Hlt ->] | [Hge ->]])].
      * congruence.
      * exists (field_strength item). split; [reflexivity|].
        rewrite Hm in Hm0. injection Hm0 as ->. lra.
      * exists (field_strength q0). split; [reflexivity|].
        rewrite Hm in Hm0. injection Hm0 as ->. exact Hle.
    + apply list_elem_of_singleton in Hq. subst q.
      destruct Hmin as [[_ ->] | (q0 & _ & _ & _ & [[Hlt ->] | [Hge ->]])].
      * exists (field_strength item). split; [reflexivity | lra].
      * exists (field_strength item). split; [reflexivity | lra].
      * exists (field_strength q0). split; [reflexivity | exact Hge].
  - destruct (od_set_cons item.1
                {| or_name := PyORBIT_Name item.2; shunt := shunt_name;
                   dBdr := field_strength item; polarity := Polarity item.2 |}
                (quads entry)) as (x & l & Hx).
    change (quads (with_quad item shunt_name entry)) with
      (od_set item.1
         {| or_name := PyORBIT_Name item.2; shunt := shunt_name;
            dBdr := field_strength item; polarity := Polarity item.2 |}
         (quads entry)).
    rewrite Hx.
    destruct Hmin as [[_ ->] | (q0 & Hq0 & Hqc0 & _ & [[Hlt ->] | [Hge ->]])].
    + exists item. auto.
    + exists item. auto.
    + exists q0. split; [apply elem_of_app; auto | auto].
  - intros name qm Hin. cbn [Wiring.with_quad quads] in Hin.
    destruct (od_set_item _ _ _ _ _ Hin) as [[_ ->] | Hold].
    + exists item. auto.
    + destruct (Hc name qm Hold) as (q & Hq & Hqc).
      exists q. split; [apply elem_of_app; auto | exact Hqc].
Qed.

Lemma add_quad_ok (processed : odict quad_config) (ps_quads : odict ps_entry)
    (item : string * quad_config) :
  ps_quads_ok processed ps_quads ->
  ps_quads_ok (processed ++ [item]) (add_quad ps_quads item).
Proof.
  intros [Hnd Hall].
  destruct (add_quad_cases ps_quads item)
    as [[-> Hnot] | (ps & entry & sh & Hconn & Hget & ->)].
  - split; [exact Hnd|]. intros ps entry Hget.
    apply entry_ok_later; [apply Hnot; eauto | exact (Hall ps entry Hget)].
  - split; [apply od_set_NoDup, Hnd|]. intros ps' entry' Hget'.
    destruct (decide (ps = ps')) as [<-|Hne].
    + rewrite od_get_set_eq in Hget'. injection Hget' as <-.
      apply with_quad_ok; [exact Hconn | exact (Hall ps entry Hget)].
    + rewrite od_get_set_ne in Hget' by exact Hne.
      apply entry_ok_later; [|exact (Hall ps' entry' Hget')].
      intros (_ & Hps' & _). destruct Hconn as (_ & Hps & _). congruence.
Qed.

Lemma fold_add_quad_ok (rest processed : odict quad_config)
    (ps_quads : odict ps_entry) :
  ps_quads_ok processed ps_quads ->
  ps_quads_ok (processed ++ rest) (fold_left add_quad rest ps_quads).
Proof.
  revert processed ps_quads.
  induction rest as [|item rest IH]; intros processed acc Hok; cbn.
  - rewrite app_nil_r. exact Hok.
  - replace (processed ++ item :: rest) with ((processed ++ [item]) ++ rest)
      by (rewrite <- app_assoc; reflexivity).
    apply IH. apply add_quad_ok. exact Hok.
Qed.

Lemma collect_quads_ok :
  ps_quads_ok quads_config
    (collect_quads quad_ps_names quad_shunt_names quads_config element_list
       get_dBdr).
Proof.
  apply (fold_add_quad_ok quads_config []).
  destruct init_ps_quads_spec as (Hnd & Hfresh & _). split; [exact Hnd|].
  intros ps entry Hget. rewrite (Hfresh ps entry Hget).
  split; [|split]; cbn.
  - intros q Hq. apply elem_of_nil in Hq. destruct Hq.
  - reflexivity.
  - intros name qm Hin. apply elem_of_nil in Hin. destruct Hin.
Qed.

(** The lookup [ps_quads[ps_name]] of [add_quad] always finds its key. *)
Lemma ps_quads_has_every_name (processed : odict quad_config) (ps_name : string) :
  ps_name ∈ quad_ps_names ->
  is_Some (od_get ps_name (fold_left add_quad processed init_ps_quads)).
Proof.
  intros Hin.
  assert (H0 : is_Some (od_get ps_name init_ps_quads))
    by (apply init_ps_quads_spec; exact Hin).
  revert H0. generalize init_ps_quads.
  induction processed as [|item rest IH]; intros acc Hacc; cbn; [exact Hacc|].
  apply IH.
  destruct (add_quad_cases acc item) as [[-> _] | (ps & e & sh & _ & _ & ->)];
    [exact Hacc|].
  destruct (decide (ps = ps_name)) as [->|Hne].
  - rewrite od_get_set_eq. eauto.
  - rewrite od_get_set_ne by exact Hne. exact Hacc.
Qed.

(** *** The devices *)

Local Abbreviation quadrupole_devices :=
  (quadrupole_devices quad_ps_names quad_shunt_names quads_config
     element_list get_dBdr).

(** Where a device of the list comes from. *)
Lemma quadrupole_devices_inv (dev : device) :
  dev ∈ quadrupole_devices ->
  exists ps_name entry,
    entry_ok quads_config ps_name entry
    /\ quads entry <> []
    /\ Quadrupole_Power_Supply ps_name (min_field entry) ∈ quadrupole_devices
    /\ (dev = Quadrupole_Power_Supply ps_name (min_field entry)
        \/ exists name qm,
             (name, qm) ∈ quads entry
             /\ (dev = Quadrupole name (or_name qm) ps_name None (polarity qm)
                 \/ dev = Quadrupole_Power_Shunt (shunt qm)
                            (efloat_rsub (dBdr qm) (min_field entry))
                 \/ dev = Quadrupole name (or_name qm) ps_name
                            (Some (shunt qm)) (polarity qm))).
Proof.
  unfold Wiring.quadrupole_devices. intros Hin.
  apply elem_of_flat_map in Hin. destruct Hin as ([ps entry] & Hitem & Hdev).
  destruct collect_quads_ok as [Hnd Hall].
  exists ps, entry. split; [exact (Hall ps entry (od_get_item _ _ _ Hnd Hitem))|].
  unfold ps_devices in Hdev; cbn [fst snd] in Hdev.
  destruct (quads entry) as [|x l] eqn:Hq;
    [apply elem_of_nil in Hdev; destruct Hdev|].
  split; [discriminate|]. split.
  - apply elem_of_flat_map. exists (ps, entry). split; [exact Hitem|].
    unfold ps_devices; cbn [fst snd]. rewrite Hq. apply elem_of_cons. auto.
  - apply elem_of_cons in Hdev. destruct Hdev as [-> | Hdev]; [left; reflexivity|].
    right. apply elem_of_flat_map in Hdev.
    destruct Hdev as ([name qm] & Hqm & Hdev). exists name, qm.
    split; [exact Hqm|].
    unfold quad_devices in Hdev; cbn [fst snd] in Hdev.
    destruct (decide (shunt qm = "none"%string)).
    + apply list_elem_of_singleton in Hdev. auto.
    + rewrite elem_of_cons, list_elem_of_singleton in Hdev. tauto.
Qed.

(** C8.  A power supply is constructed with the least of the absolute
    initial field strengths of the quadrupoles connected to it: its field
    is the strength of one of them and is not above the strength of any of
    them.  Hence every shunt is constructed with a field that is the
    strength of a connected quadrupole minus the field of its power supply,
    and that difference is not negative. *)
Theorem C8_ps_field_is_min_and_shunt_nonnegative :
  (forall ps_name f,
     Quadrupole_Power_Supply ps_name f ∈ quadrupole_devices ->
     exists m,
       f = Fin m
       /\ (exists q, q ∈ quads_config /\ connected ps_name q
                     /\ m = field_strength q)
       /\ (forall q, q ∈ quads_config -> connected ps_name q ->
                     (m <= field_strength q)%Q))
  /\ (forall shunt_name f,
        Quadrupole_Power_Shunt shunt_name f ∈ quadrupole_devices ->
        exists ps_name m q,
          Quadrupole_Power_Supply ps_name (Fin m) ∈ quadrupole_devices
          /\ q ∈ quads_config /\ connected ps_name q
          /\ f = Fin (field_strength q - m)
          /\ (0 <= field_strength q - m)%Q).
Proof.
  split.
  - intros ps f Hin.
    destruct (quadrupole_devices_inv _ Hin)
      as (ps' & entry & (Ha & Hb & _) & Hne & _ & [[= -> ->] | Hquad]).
    + destruct (quads entry) as [|x l]; [congruence|].
      destruct Hb as (q0 & Hq0 & Hqc0 & Hm).
      exists (field_strength q0). split; [exact Hm|]. split; [eauto|].
      intros q Hq Hqc. destruct (Ha q Hq Hqc) as (m & Hm' & Hle).
      rewrite Hm in Hm'. injection Hm' as ->. exact Hle.
    + destruct Hquad as (name & qm & _ & [H | [H | H]]); discriminate H.
  - intros sh f Hin.
    destruct (quadrupole_devices_inv _ Hin)
      as (ps & entry & (Ha & _ & Hc) & _ & Hps & [H | Hquad]);
      [discriminate H|].
    destruct Hquad as (name & qm & Hqm & [H | [H | H]]); try discriminate H.
    injection H as -> ->.
    destruct (Hc name qm Hqm) as (q & Hq & Hqc & Hfield).
    destruct (Ha q Hq Hqc) as (m & Hm & Hle).
    exists ps, m, q. rewrite Hm in Hps |- *. rewrite Hfield. cbn.
    split; [exact Hps|]. split; [exact Hq|]. split; [exact Hqc|].
    split; [reflexivity | lra].
Qed.

End MainFacts.

Lemma C8_ps_field_is_min_and_shunt_nonnegative_witness :
  Quadrupole_Power_Supply "PS_A" (Fin (3 # 2))
    ∈ quadrupole_devices Demo.quad_ps_names Demo.quad_shunt_names
        Demo.quads_config Demo.element_list Demo.get_dBdr
  /\ Quadrupole_Power_Shunt "ShntC_1" (Fin (4 # 4))
       ∈ quadrupole_devices Demo.quad_ps_names Demo.quad_shunt_names
           Demo.quads_config Demo.element_list Demo.get_dBdr
  /\ (exists m,
        Fin (3 # 2) = Fin m
        /\ forall q, q ∈ Demo.quads_config ->
             connected Demo.quad_ps_names Demo.element_list "PS_A" q ->
             (m <= field_strength Demo.get_dBdr q)%Q)
  /\ (exists d, Fin (4 # 4) = Fin d /\ (0 <= d)%Q).
Proof.
  assert (Hps : Quadrupole_Power_Supply "PS_A" (Fin (3 # 2))
    ∈ quadrupole_devices Demo.quad_ps_names Demo.quad_shunt_names
        Demo.quads_config Demo.element_list Demo.get_dBdr)
    by (vm_compute; apply list_elem_of_here).
  assert (Hsh : Quadrupole_Power_Shunt "ShntC_1" (Fin (4 # 4))
    ∈ quadrupole_devices Demo.quad_ps_names Demo.quad_shunt_names
        Demo.quads_config Demo.element_list Demo.get_dBdr)
    by (vm_compute; apply list_elem_of_further, list_elem_of_here).
  split; [exact Hps|]. split; [exact Hsh|].
  destruct (C8_ps_field_is_min_and_shunt_nonnegative Demo.quad_ps_names
              Demo.quad_shunt_names Demo.quads_config Demo.element_list
              Demo.get_dBdr) as [Hmin Hshunt].
  split.
  - destruct (Hmin _ _ Hps) as (m & Hm & _ & Hle). exists m. auto.
  - destruct (Hshunt _ _ Hsh) as (ps & m & q & _ & _ & _ & Hf & Hle).
    eexists. split; [exact Hf | exact Hle].
Defined.
End WiringFacts.

Module PyStrFacts.
Import PyStr.

Lemma append_cons (c : Ascii.ascii) (a b : string) :
  String c a +:+ b = String c (a +:+ b).
Proof. reflexivity. Qed.

Lemma append_nil (b : string) : EmptyString +:+ b = b.
Proof. reflexivity. Qed.

Lemma prefix_app (old post : string) : String.prefix old (old +:+ post) = true.
Proof.
  induction old as [|c old IH].
  - rewrite append_nil. destruct post; reflexivity.
  - rewrite append_cons. cbn.
    destruct (Ascii.ascii_dec c c); [exact IH | congruence].
Qed.

Lemma prefix_skip (old s : string) :
  String.prefix old s = true -> s = old +:+ skip (String.length old) s.
Proof.
  revert s. induction old as [|c old IH]; intros s H.
  - reflexivity.
  - destruct s as [|c' s]; cbn in H; [discriminate|].
    destruct (Ascii.ascii_dec c c') as [->|]; [|discriminate].
    cbn [String.length skip]. rewrite append_cons. f_equal. apply IH, H.
Qed.

Lemma append_inv_head (old a b : string) : old +:+ a = old +:+ b -> a = b.
Proof.
  induction old as [|c old IH]; [rewrite !append_nil; auto|].
  rewrite !append_cons. intros [= H]. auto.
Qed.

(** [replace_first] replaces the leftmost occurrence. *)
Lemma replace_first_leftmost (old new s pre post : string) :
  s = pre +:+ old +:+ post ->
  (forall pre' post',
     s = pre' +:+ old +:+ post' -> String.length pre <= String.length pre') ->
  replace_first old new s = pre +:+ new +:+ post.
Proof.
  revert pre. induction s as [|c s IH]; intros pre Hs Hmin.
  - destruct pre as [|c pre]; [|rewrite append_cons in Hs; discriminate].
    rewrite append_nil in Hs.
    destruct old as [|c old]; [|rewrite append_cons in Hs; discriminate].
    rewrite append_nil in Hs. subst post. reflexivity.
  - cbn [replace_first].
    destruct (String.prefix old (String c s)) eqn:Hp.
    + pose proof (prefix_skip _ _ Hp) as Hdec.
      pose proof (Hmin EmptyString _ Hdec) as Hlen.
      destruct pre as [|c' pre]; [|cbn in Hlen; lia].
      rewrite append_nil in Hs |- *. rewrite Hs in Hdec at 1.
      apply append_inv_head in Hdec. rewrite <- Hdec. reflexivity.
    + destruct pre as [|c' pre].
      * rewrite append_nil in Hs. rewrite Hs, prefix_app in Hp. discriminate.
      * rewrite append_cons in Hs. injection Hs as -> Hs.
        rewrite append_cons. f_equal.
        apply IH; [exact Hs|].
        intros pre' post' Hs'.
        pose proof (Hmin (String c' pre') post') as Hlen.
        rewrite append_cons, <- Hs' in Hlen. specialize (Hlen eq_refl).
        cbn in Hlen. lia.
Qed.

(** [replace_first] returns the string as it is when [old] does not occur. *)
Lemma replace_first_absent (old new s : string) :
  (forall pre post, s <> pre +:+ old +:+ post) ->
  replace_first old new s = s.
Proof.
  induction s as [|c s IH]; intros Hno; cbn [replace_first].
  - destruct (String.prefix old EmptyString) eqn:Hp; [|reflexivity].
    exfalso. apply (Hno EmptyString (skip (String.length old) EmptyString)).
    exact (prefix_skip _ _ Hp).
  - destruct (String.prefix old (String c s)) eqn:Hp.
    + exfalso. apply (Hno EmptyString (skip (String.length old) (String c s))).
      exact (prefix_skip _ _ Hp).
    + f_equal. apply IH. intros pre post Hs.
      apply (Hno (String c pre) post). rewrite append_cons, <- Hs. reflexivity.
Qed.

End PyStrFacts.

Module SNSFacts.
Import SNS.

(** *** Registration *)

Lemma register_readback_linked (base : Device) (set_pv rb_pv public : string)
    (v : Q) (t : Transform) (n : option AbsNoise) :
  let registered := register_setting set_pv v t base in
  readback_linked
    (register_readback rb_pv registered.2 n (Some public) registered.1)
    rb_pv registered.2 set_pv public.
Proof.
  cbn. unfold readback_linked. eexists _, _. cbn.
  split; [apply lookup_insert_eq|]. split; [reflexivity|].
  split; [apply list_lookup_middle; reflexivity|].
  repeat split; reflexivity.
Qed.

Lemma register_setting_keeps_link (self : Device) (pv rb_pv set_pv public : string)
    (v : Q) (t : Transform) (r : nat) :
  readback_linked self rb_pv r set_pv public ->
  readback_linked (register_setting pv v t self).1 rb_pv r set_pv public.
Proof.
  intros (rb & p & Hrb & Hl & Hp & Hrest). exists rb, p. cbn.
  split; [exact Hrb|]. split; [exact Hl|].
  split; [apply lookup_app_l_Some; exact Hp | exact Hrest].
Qed.

Lemma initial_value_raises (initial_dict : option (gmap string Q))
    (key : string) (e : pyexn) :
  initial_value initial_dict key = Raise e ->
  exists d, initial_dict = Some d /\ d !! key = None /\ e = KeyError key.
Proof.
  unfold initial_value, getitem. destruct initial_dict as [d|]; [|discriminate].
  destruct (d !! key) eqn:Hk; [discriminate|].
  intros [= <-]. eauto.
Qed.

(** *** SNS_Dummy_BCM *)

Lemma update_measurement_model_name (pv : string) (v : Q) (self : Device) :
  model_name (update_measurement pv v self) = model_name self.
Proof. reflexivity. Qed.

(** The inner loop of [update_measurements] amounts to a lookup of
    ['beta']. *)
Lemma bcm_inner_loop (self : Device) (param_dict : gmap string Q) :
  map_fold (fun param_key model_value self =>
      if decide (param_key = SNS_Dummy_BCM.beta_key) then
        update_measurement SNS_Dummy_BCM.freq_pv
          (model_value * SNS_Dummy_BCM.c_light / SNS_Dummy_BCM.ring_length)%Q
          self
      else self) self param_dict
  = match param_dict !! SNS_Dummy_BCM.beta_key with
    | Some beta =>
        update_measurement SNS_Dummy_BCM.freq_pv
          (beta * SNS_Dummy_BCM.c_light / SNS_Dummy_BCM.ring_length)%Q self
    | None => self
    end.
Proof.
  apply (map_fold_weak_ind (fun r (m : gmap string Q) =>
    r = match m !! SNS_Dummy_BCM.beta_key with
        | Some beta =>
            update_measurement SNS_Dummy_BCM.freq_pv
              (beta * SNS_Dummy_BCM.c_light / SNS_Dummy_BCM.ring_length)%Q self
        | None => self
        end)).
  - rewrite lookup_empty. reflexivity.
  - intros i x m r Hi ->. destruct (decide (i = SNS_Dummy_BCM.beta_key)) as [->|Hne].
    + rewrite Hi, lookup_insert_eq. reflexivity.
    + rewrite lookup_insert_ne by exact Hne. reflexivity.
Qed.

(** The outer loop amounts to a lookup of the model name of the device. *)
Lemma bcm_update_measurements (self : Device)
    (new_params : gmap string (gmap string Q)) :
  SNS_Dummy_BCM.update_measurements self new_params
  = match new_params !! model_name self with
    | Some param_dict =>
        match param_dict !! SNS_Dummy_BCM.beta_key with
        | Some beta =>
            update_measurement SNS_Dummy_BCM.freq_pv
              (beta * SNS_Dummy_BCM.c_light / SNS_Dummy_BCM.ring_length)%Q self
        | None => self
        end
    | None => self
    end.
Proof.
  unfold SNS_Dummy_BCM.update_measurements.
  apply (map_fold_weak_ind (fun r (m : gmap string (gmap string Q)) =>
    r = match m !! model_name self with
        | Some param_dict =>
            match param_dict !! SNS_Dummy_BCM.beta_key with
            | Some beta =>
                update_measurement SNS_Dummy_BCM.freq_pv
                  (beta * SNS_Dummy_BCM.c_light / SNS_Dummy_BCM.ring_length)%Q
                  self
            | None => self
            end
        | None => self
        end)).
  - rewrite lookup_empty. reflexivity.
  - intros i x m r Hi Hr.
    assert (Hname : model_name r = model_name self).
    { rewrite Hr. destruct (m !! model_name self) as [pd|]; [|reflexivity].
      destruct (pd !! SNS_Dummy_BCM.beta_key); reflexivity. }
    rewrite Hname. destruct (decide (i = model_name self)) as [->|Hne].
    + rewrite Hi in Hr. subst r. rewrite lookup_insert_eq.
      apply (bcm_inner_loop self x).
    + rewrite lookup_insert_ne by exact Hne. exact Hr.
Qed.

Lemma bcm_update_keeps_registered (self : Device)
    (new_params : gmap string (gmap string Q)) :
  registered_plain self SNS_Dummy_BCM.freq_pv ->
  registered_plain (SNS_Dummy_BCM.update_measurements self new_params)
    SNS_Dummy_BCM.freq_pv.
Proof.
  intros (p & Hp & Hn & Ht). rewrite bcm_update_measurements.
  destruct (new_params !! model_name self) as [pd|]; [|exists p; auto].
  destruct (pd !! SNS_Dummy_BCM.beta_key) as [beta|]; [|exists p; auto].
  unfold registered_plain, update_measurement; cbn [measurements].
  eexists. rewrite lookup_alter_eq, Hp. cbn. auto.
Qed.

Lemma bcm_init_registered (name : string) (model_name : option string) :
  registered_plain (SNS_Dummy_BCM.init name model_name) SNS_Dummy_BCM.freq_pv.
Proof.
  unfold registered_plain, SNS_Dummy_BCM.init, register_measurement. cbn.
  eexists. split; [apply lookup_insert_eq|]. split; reflexivity.
Qed.



(** *** The magnets *)

(** C6.  In each of [SNS_Quadrupole], [SNS_Quadrupole_Doublet],
    [SNS_Quadrupole_Set] and [SNS_Corrector], an initializer that returns
    leaves a field readback that is linked to the very Parameter that
    [register_setting] returned for the field setting, and whose
    [name_override] is [name.replace('PS_', '', 1)]; the initializer fails
    only with the [KeyError] of an [initial_dict] that lacks the field key.
    The override is the name with its leftmost ['PS_'] taken out, and the
    name itself when it has no ['PS_']. *)
Theorem C6_field_readback_linked_and_renamed
    (Quadrupole : MagnetClass string)
    (Quadrupole_Doublet : MagnetClass (string * string))
    (Quadrupole_Set : MagnetClass (list string))
    (Corrector : CorrectorClass)
    (name : string) (initial_dict : option (gmap string Q)) :
  let public := PyStr.replace_first "PS_" "" name in
  (forall model_name,
     match SNS_Quadrupole.init Quadrupole name model_name initial_dict with
     | Ok self =>
         exists default t,
           readback_linked self (field_readback_pv Quadrupole)
             (register_setting (field_set_pv Quadrupole) default t
                (super_init Quadrupole name
                   (match model_name with None => name | Some m => m end)
                   initial_dict)).2
             (field_set_pv Quadrupole) public
     | Raise e =>
         exists d, initial_dict = Some d /\ d !! field_key Quadrupole = None
                   /\ e = KeyError (field_key Quadrupole)
     end)
  /\ (forall h_model_name v_model_name,
     match SNS_Quadrupole_Doublet.init Quadrupole_Doublet name h_model_name
             v_model_name initial_dict with
     | Ok self =>
         exists default t,
           readback_linked self (field_readback_pv Quadrupole_Doublet)
             (register_setting (field_set_pv Quadrupole_Doublet) default t
                (super_init Quadrupole_Doublet name
                   (h_model_name, v_model_name) initial_dict)).2
             (field_set_pv Quadrupole_Doublet) public
     | Raise e =>
         exists d, initial_dict = Some d
                   /\ d !! field_key Quadrupole_Doublet = None
                   /\ e = KeyError (field_key Quadrupole_Doublet)
     end)
  /\ (forall model_names,
     match SNS_Quadrupole_Set.init Quadrupole Quadrupole_Set name model_names
             initial_dict with
     | Ok self =>
         exists default t,
           readback_linked self (field_readback_pv Quadrupole_Set)
             (register_setting (field_set_pv Quadrupole_Set) default t
                (super_init Quadrupole_Set name model_names initial_dict)).2
             (field_set_pv Quadrupole_Set) public
     | Raise e =>
         exists d, initial_dict = Some d /\ d !! field_key Quadrupole = None
                   /\ e = KeyError (field_key Quadrupole)
     end)
  /\ (forall model_name,
     match SNS_Corrector.init Corrector name model_name initial_dict with
     | Ok self =>
         exists default t,
           readback_linked self (field_readback_pv Corrector)
             (register_setting (field_set_pv Corrector) default t
                (super_init Corrector name model_name initial_dict)).2
             (field_set_pv Corrector) public
     | Raise e =>
         exists d, initial_dict = Some d /\ d !! field_key Corrector = None
                   /\ e = KeyError (field_key Corrector)
     end)
  /\ (forall pre post,
        name = pre +:+ "PS_" +:+ post ->
        (forall pre' post',
           name = pre' +:+ "PS_" +:+ post' ->
           String.length pre <= String.length pre') ->
        public = pre +:+ post)
  /\ ((forall pre post, name <> pre +:+ "PS_" +:+ post) -> public = name).
Proof.
  intros public. repeat split.
  - intros model_name. unfold SNS_Quadrupole.init.
    destruct (initial_value initial_dict (field_key Quadrupole)) as [v|e] eqn:Hv;
      cbn [bind_result].
    + eexists _, _. apply register_readback_linked.
    + exact (initial_value_raises _ _ _ Hv).
  - intros h v. unfold SNS_Quadrupole_Doublet.init.
    destruct (initial_value initial_dict (field_key Quadrupole_Doublet))
      as [x|e] eqn:Hv; cbn [bind_result].
    + eexists _, _. apply register_readback_linked.
    + exact (initial_value_raises _ _ _ Hv).
  - intros model_names. unfold SNS_Quadrupole_Set.init.
    destruct (initial_value initial_dict (field_key Quadrupole)) as [v|e] eqn:Hv;
      cbn [bind_result].
    + eexists _, _. apply register_readback_linked.
    + exact (initial_value_raises _ _ _ Hv).
  - intros model_name. unfold SNS_Corrector.init.
    destruct (initial_value initial_dict (field_key Corrector)) as [v|e] eqn:Hv;
      cbn [bind_result].
    + eexists _, _.
      do 2 apply register_setting_keeps_link.
      apply register_readback_linked.
    + exact (initial_value_raises _ _ _ Hv).
  - intros pre post Hname Hmin.
    exact (PyStrFacts.replace_first_leftmost "PS_" "" name pre post Hname Hmin).
  - intros Hno. exact (PyStrFacts.replace_first_absent "PS_" "" name Hno).
Qed.

Lemma C6_field_readback_linked_and_renamed_witness :
  "SCL_Mag:PS_QH01" = "SCL_Mag:" +:+ "PS_" +:+ "QH01"
  /\ (forall pre' post',
        "SCL_Mag:PS_QH01" = pre' +:+ "PS_" +:+ post' ->
        String.length "SCL_Mag:" <= String.length pre')
  /\ PyStr.replace_first "PS_" "" "SCL_Mag:PS_QH01" = "SCL_Mag:QH01"
  /\ exists self,
       SNS_Quadrupole.init Demo.Quadrupole "SCL_Mag:PS_QH01" None
         (Some {[ "dB/dr" := (3 # 2)%Q ]}) = Ok self
       /\ exists default t,
            readback_linked self "B"
              (register_setting "B_Set" default t
                 (Device_init "SCL_Mag:PS_QH01" "SCL_Mag:PS_QH01")).2 "B_Set"
              "SCL_Mag:QH01".
Proof.
  assert (Hmin : forall pre' post',
            "SCL_Mag:PS_QH01" = pre' +:+ "PS_" +:+ post' ->
            String.length "SCL_Mag:" <= String.length pre').
  { intros pre' post' H.
    do 8 (destruct pre' as [|? pre']; [cbn in H; discriminate H|]).
    cbn. lia. }
  pose proof (C6_field_readback_linked_and_renamed Demo.Quadrupole
                Demo.Quadrupole_Doublet Demo.Quadrupole_Set Demo.Corrector
                "SCL_Mag:PS_QH01" (Some {[ "dB/dr" := (3 # 2)%Q ]})) as H.
  cbv zeta in H. destruct H as (Hq & _ & _ & _ & Hleft & _).
  split; [reflexivity|]. split; [exact Hmin|].
  split; [exact (Hleft "SCL_Mag:" "QH01" eq_refl Hmin)|].
  specialize (Hq None).
  destruct (SNS_Quadrupole.init Demo.Quadrupole "SCL_Mag:PS_QH01" None
              (Some {[ "dB/dr" := (3 # 2)%Q ]})) as [self|e] eqn:Hinit.
  - exists self. split; [reflexivity|]. exact Hq.
  - exfalso. vm_compute in Hinit. discriminate Hinit.
Defined.

(** *** The dummy diagnostics *)

(** C7 (as the specification has it) fails: [SNS_Dummy_BCM] is a dummy
    diagnostic and its measurement update reads ['beta'] from the model
    output, so two model outputs leave it with two different values. *)
Lemma C7_bcm_uses_model_output : ~ (forall k, ignores_model_output k).
Proof.
  intros H.
  specialize (H Dummy_BCM
                (SNS_Dummy_BCM.init "Ring_Diag:BCM_D09" (Some "HEBT_Diag:BPM11"))
                {[ "HEBT_Diag:BPM11" := {[ "beta" := 1%Q ]} ]} ∅).
  apply (f_equal (fun d => raw_value <$> measurements d !! "FFT_peak2")) in H.
  vm_compute in H. discriminate H.
Qed.

(** C7 (as the code has it).  [SNS_Dummy_ICS.get_settings] returns the
    empty dictionary in every state, and [SNS_Dummy_ICS.update_measurements]
    does not look at its argument: it stores 1 in the beam-on measurement
    and 0 in the event measurement, when the device has them, and changes
    nothing else. *)
Theorem C7_ics_ignores_the_model (self : Device)
    (new_measurements : gmap string (gmap string Q)) :
  SNS_Dummy_ICS.get_settings self = ∅
  /\ ignores_model_output Dummy_ICS
  /\ (is_Some (measurements self !! "Gate_BeamOn:RR") ->
      holds (SNS_Dummy_ICS.update_measurements self new_measurements)
        "Gate_BeamOn:RR" 1)
  /\ (is_Some (measurements self !! "Util:event46") ->
      holds (SNS_Dummy_ICS.update_measurements self new_measurements)
        "Util:event46" 0)
  /\ (forall pv,
        pv <> "Gate_BeamOn:RR" -> pv <> "Util:event46" ->
        measurements (SNS_Dummy_ICS.update_measurements self new_measurements)
          !! pv = measurements self !! pv)
  /\ settings (SNS_Dummy_ICS.update_measurements self new_measurements)
     = settings self
  /\ readbacks (SNS_Dummy_ICS.update_measurements self new_measurements)
     = readbacks self.
Proof.
  split; [reflexivity|]. split; [intros d o1 o2; reflexivity|].
  unfold holds, SNS_Dummy_ICS.update_measurements, update_measurement;
    cbn [measurements settings readbacks].
  change SNS_Dummy_ICS.beam_on_pv with "Gate_BeamOn:RR"%string.
  change SNS_Dummy_ICS.event_pv with "Util:event46"%string.
  split; [|split; [|split; [|split; reflexivity]]].
  - intros [p Hp]. eexists.
    rewrite lookup_alter_ne by discriminate.
    rewrite lookup_alter_eq, Hp. split; reflexivity.
  - intros [p Hp]. eexists.
    rewrite lookup_alter_eq, lookup_alter_ne by discriminate.
    rewrite Hp. split; reflexivity.
  - intros pv H1 H2. rewrite !lookup_alter_ne by congruence. reflexivity.
Qed.

Lemma C7_ics_ignores_the_model_witness :
  let self := SNS_Dummy_ICS.init "ICS_Tim" None in
  let out : gmap string (gmap string Q) :=
    {[ "ICS_Tim" := {[ "beta" := (1 # 2)%Q ]} ]} in
  is_Some (measurements self !! "Gate_BeamOn:RR")
  /\ is_Some (measurements self !! "Util:event46")
  /\ holds (SNS_Dummy_ICS.update_measurements self out) "Gate_BeamOn:RR" 1
  /\ holds (SNS_Dummy_ICS.update_measurements self out) "Util:event46" 0.
Proof.
  intros self out.
  assert (H1 : is_Some (measurements self !! "Gate_BeamOn:RR"))
    by (vm_compute; eauto).
  assert (H2 : is_Some (measurements self !! "Util:event46"))
    by (vm_compute; eauto).
  destruct (C7_ics_ignores_the_model self out) as (_ & _ & Hon & Hev & _).
  split; [exact H1|]. split; [exact H2|].
  split; [exact (Hon H1) | exact (Hev H2)].
Defined.

End SNSFacts.


Module BTFFacts.
Import BTF.

(** *** The Faraday cup and the current monitor *)

Lemma gtb_0_leb_1 (n : Z) : (n >? 0)%Z = (1 <=? n)%Z.
Proof.
  rewrite Z.gtb_ltb. destruct (Z.ltb_spec 0 n), (Z.leb_spec 1 n); lia || reflexivity.
Qed.



(** *** The slit *)

(** C10.  Whatever the arguments, [BTF_Slitclass] yields no object: its
    dictionary display cannot be read, a string following the name
    [interaction] without a comma, which is a [SyntaxError].  With the comma
    in place the display can be read and the initializer raises a
    [NameError] all the same, [screen_polarity], [interaction] and
    [edge_to_slit] being bound neither in the call nor at module level nor
    among the builtins. *)
Theorem C10_slit_is_never_constructed (child_name : string)
    (slit_axis : option pyval) :
  is_ok (BTF_Slitclass.init child_name slit_axis) = false
  /\ parse_dict_display BTF_Slitclass.parameters_display = Raise SyntaxError
  /\ is_ok (parse_dict_display BTF_Slitclass.parameters_display_with_comma) = true
  /\ BTF_Slitclass.init_with BTF_Slitclass.parameters_display_with_comma
       child_name slit_axis = Raise (NameError "screen_polarity")
  /\ lookup_name (BTF_Slitclass.init_locals child_name slit_axis)
       "screen_polarity" = Raise (NameError "screen_polarity")
  /\ lookup_name (BTF_Slitclass.init_locals child_name slit_axis)
       "interaction" = Raise (NameError "interaction")
  /\ lookup_name (BTF_Slitclass.init_locals child_name slit_axis)
       "edge_to_slit" = Raise (NameError "edge_to_slit").
Proof.
  repeat split; vm_compute; reflexivity.
Qed.

End BTFFacts.

Module LoopRunsFacts.
Import ControlLoop LoopRuns ControlLoopFacts.

Section Runs.
Context {S Md P Ms E : Type}.
Variable server : ServerOps S P Ms.
Variable model : ModelOps Md P Ms E.
Variable env : environment.
Variable update_period : Q.

Local Abbreviation tick := (tick server model env update_period).
Local Abbreviation main_loop := (main_loop server model env update_period).
Local Abbreviation world := (@world S Md).
Local Abbreviation tick_calls := (tick_calls server model env).
Local Abbreviation last_call := (@last_call S Md P Ms env update_period).
Local Abbreviation after_tick := (after_tick server model).

Lemma last_call_sleep_ok (w : world) : sleep_length_ok (last_call w) = true.
Proof.
  unfold ControlLoop.last_call.
  destruct (Qltb _ 0) eqn:Hlt; [reflexivity|].
  cbn. apply Qle_bool_iff. apply Qltb_ge in Hlt. exact Hlt.
Qed.

(** The three ways a tick can go. *)
Lemma tick_cases (w : world) :
  (exists m2, tick w = (tick_calls w m2 ++ [last_call w], after_tick w m2, Ok tt))
  \/ (exists tr w' e,
        tick w = (tr, w', Raise (ModelError e))
        /\ Forall (fun ev => sleep_length_ok ev = true) tr).
Proof.
  destruct (update_optics model (get_settings server (srv w)) (mdl w))
    as [m1|e] eqn:H1; [destruct (track model m1) as [m2|e] eqn:H2|].
  - left. exists m2. exact (tick_completes server model env update_period w m1 m2 H1 H2).
  - right. eexists _, _, e.
    rewrite (tick_track_raises server model env update_period w m1 e H1 H2).
    split; [reflexivity|]. repeat constructor.
  - right. eexists _, _, e.
    rewrite (tick_update_optics_raises server model env update_period w e H1).
    split; [reflexivity|]. repeat constructor.
Qed.


Lemma tick_body_counts (w : world) (m2 : Md) :
  let body := tick_calls w m2 ++ [last_call w] in
  count_ev is_poll body = 0
  /\ count_ev is_get_settings body = 1
  /\ count_ev is_server_update body = 1
  /\ count_ev is_sleep_decision body = 1
  /\ count_ev is_time body = 2.
Proof.
  unfold ControlLoop.last_call. destruct (Qltb _ 0); cbn; repeat split; reflexivity.
Qed.


End Runs.


End LoopRunsFacts.

Module OrbitFacts.
Import Orbit.

Lemma trim_loop (part_num : Z) (keep m : nat) (b : Bunch) :
  part_num = Z.of_nat keep ->
  fold_left (fun b n =>
               if (Z.of_nat n + 1 >? part_num)%Z then deleteParticleFast n b
               else b)
            (seq 0 m) b
  = {| slots := imap (cut_at m keep) (slots b); macroSize := macroSize b |}.
Proof.
  intros ->. induction m as [|m IH].
  - cbn. destruct b as [l ms]; cbn. f_equal.
    apply list_eq. intros i. rewrite list_lookup_imap.
    destruct (l !! i); [|reflexivity]. cbn. unfold cut_at.
    rewrite decide_False by lia. reflexivity.
  - rewrite seq_S, fold_left_app, IH. cbn [fold_left Nat.add].
    destruct (Z.gtb_spec (Z.of_nat m + 1) (Z.of_nat keep)) as [Hgt|Hle].
    + unfold deleteParticleFast; cbn [slots macroSize]. f_equal.
      apply list_eq. intros i. rewrite list_lookup_alter, !list_lookup_imap.
      destruct (decide (m = i)) as [->|Hne].
      * destruct (slots b !! i); [|reflexivity]. cbn. unfold cut_at.
        rewrite decide_False by lia. rewrite decide_True by lia. reflexivity.
      * destruct (slots b !! i); [|reflexivity]. cbn. unfold cut_at.
        destruct (decide (keep <= i /\ i < m)) as [H|H].
        -- rewrite decide_True by lia. reflexivity.
        -- rewrite decide_False by lia. reflexivity.
    + f_equal. apply imap_ext. intros i p _. unfold cut_at.
      destruct (decide (keep <= i /\ i < m)) as [H|H].
      * rewrite decide_True by lia. reflexivity.
      * rewrite decide_False by lia. reflexivity.
Qed.

Lemma filter_cut (keep : nat) (l : list particle) :
  List.filter alive (imap (fun i p => if decide (keep <= i) then kill p else p) l)
  = List.filter alive (take keep l).
Proof.
  revert keep. induction l as [|p l IH]; intros keep.
  - destruct keep; reflexivity.
  - rewrite imap_cons. destruct keep as [|keep].
    + rewrite decide_True by lia. cbn [List.filter kill alive take].
      assert (Hrest :
        imap ((fun i q => if decide (0 <= i) then kill q else q) ∘ Datatypes.S) l
        = imap (fun i q => if decide (0 <= i) then kill q else q) l).
      { apply imap_ext. intros i q _. cbn.
        rewrite !decide_True by lia. reflexivity. }
      rewrite Hrest. exact (IH 0).
    + rewrite decide_False by lia. cbn [List.filter take].
      assert (Hrest :
        imap ((fun i q => if decide (Datatypes.S keep <= i) then kill q else q)
              ∘ Datatypes.S) l
        = imap (fun i q => if decide (keep <= i) then kill q else q) l).
      { apply imap_ext. intros i q _. cbn.
        destruct (decide (keep <= i)) as [H|H].
        - rewrite decide_True by lia. reflexivity.
        - rewrite decide_False by lia. reflexivity. }
      rewrite Hrest, (IH keep). reflexivity.
Qed.

Lemma filter_all_alive (l : list particle) :
  Forall (fun p => alive p = true) l -> List.filter alive l = l.
Proof.
  induction 1 as [|p l Hp _ IH]; cbn; [reflexivity|]. rewrite Hp, IH. reflexivity.
Qed.

(** The loop and [compress] together keep the live particles of the first
    [part_num] places. *)
Lemma trim_slots (part_num : Z) (bunch_in : Bunch) :
  (0 < part_num <= Z.of_nat (getSizeGlobal bunch_in))%Z ->
  trim_bunch part_num bunch_in
  = ({| slots := List.filter alive (take (Z.to_nat part_num) (slots bunch_in));
        macroSize :=
          (macroSize bunch_in
           * (inject_Z (Z.of_nat (getSizeGlobal bunch_in)) / inject_Z part_num))%Q |},
     []).
Proof.
  intros [Hpos Hle]. unfold trim_bunch.
  destruct (Z.ltb_spec (Z.of_nat (getSizeGlobal bunch_in)) part_num); [lia|].
  destruct (Z.leb_spec part_num 0); [lia|].
  rewrite (trim_loop part_num (Z.to_nat part_num)) by lia.
  unfold compress; cbn [slots macroSize set_macroSize]. do 2 f_equal.
  rewrite <- filter_cut. f_equal. apply imap_ext. intros i p Hi.
  apply lookup_lt_Some in Hi. unfold cut_at, getSizeGlobal.
  destruct (decide (Z.to_nat part_num <= i)) as [H1|H1].
  - rewrite decide_True by lia. reflexivity.
  - rewrite decide_False by lia. reflexivity.
Qed.

Lemma trim_all_alive (part_num : Z) (bunch_in : Bunch) :
  (0 < part_num <= Z.of_nat (getSizeGlobal bunch_in))%Z ->
  all_alive bunch_in ->
  slots (trim_bunch part_num bunch_in).1
  = take (Z.to_nat part_num) (slots bunch_in)
  /\ Z.of_nat (getSizeGlobal (trim_bunch part_num bunch_in).1) = part_num.
Proof.
  intros Hrange Halive. rewrite (trim_slots part_num bunch_in Hrange).
  cbn [fst slots].
  assert (Htake : List.filter alive (take (Z.to_nat part_num) (slots bunch_in))
                  = take (Z.to_nat part_num) (slots bunch_in)).
  { apply filter_all_alive. apply Forall_take. exact Halive. }
  split; [exact Htake|].
  unfold getSizeGlobal; cbn [slots]. rewrite Htake, length_take.
  unfold getSizeGlobal in Hrange. lia.
Qed.

(** X3.  What is left of the bunch read from the file.  When the file has
    fewer particles than asked for, the bunch is left as it is and the
    message is printed.  When zero or fewer are asked for, nothing is
    left.  Otherwise the particles left are those in the first [part_num]
    places, in their order; for a bunch whose particles are all alive
    these are exactly [part_num] particles. *)
Theorem X3_trim_keeps_first_particles (part_num : Z) (bunch_in : Bunch) :
  ((Z.of_nat (getSizeGlobal bunch_in) < part_num)%Z ->
     trim_bunch part_num bunch_in = (bunch_in, [less_particles_text]))
  /\ ((part_num <= 0)%Z ->
      slots (trim_bunch part_num bunch_in).1 = []
      /\ macroSize (trim_bunch part_num bunch_in).1 = macroSize bunch_in)
  /\ ((0 < part_num <= Z.of_nat (getSizeGlobal bunch_in))%Z ->
      slots (trim_bunch part_num bunch_in).1
      = List.filter alive (take (Z.to_nat part_num) (slots bunch_in))
      /\ (trim_bunch part_num bunch_in).2 = []
      /\ (all_alive bunch_in ->
          slots (trim_bunch part_num bunch_in).1
          = take (Z.to_nat part_num) (slots bunch_in)
          /\ Z.of_nat (getSizeGlobal (trim_bunch part_num bunch_in).1) = part_num)).
Proof.
  split; [|split].
  - intros Hlt. unfold trim_bunch.
    destruct (Z.ltb_spec (Z.of_nat (getSizeGlobal bunch_in)) part_num);
      [reflexivity | lia].
  - intros Hle. unfold trim_bunch.
    destruct (Z.ltb_spec (Z.of_nat (getSizeGlobal bunch_in)) part_num) as [Hlt|_];
      [lia|].
    destruct (Z.leb_spec part_num 0); [|lia]. split; reflexivity.
  - intros Hrange. split; [|split].
    + rewrite (trim_slots part_num bunch_in Hrange). reflexivity.
    + rewrite (trim_slots part_num bunch_in Hrange). reflexivity.
    + exact (trim_all_alive part_num bunch_in Hrange).
Qed.

Lemma X3_trim_keeps_first_particles_witness :
  (0 < 2 <= Z.of_nat (getSizeGlobal Demo.five))%Z
  /\ all_alive Demo.five
  /\ slots (trim_bunch 2 Demo.five).1 = take 2 (slots Demo.five)
  /\ (Z.of_nat (getSizeGlobal Demo.five) < 7)%Z
  /\ trim_bunch 7 Demo.five = (Demo.five, [less_particles_text])
  /\ (-3 <= 0)%Z
  /\ slots (trim_bunch (-3) Demo.five).1 = [].
Proof.
  assert (H1 : (0 < 2 <= Z.of_nat (getSizeGlobal Demo.five))%Z) by (cbn; lia).
  assert (H2 : all_alive Demo.five) by (repeat constructor).
  assert (H3 : (Z.of_nat (getSizeGlobal Demo.five) < 7)%Z) by (cbn; lia).
  assert (H4 : (-3 <= 0)%Z) by lia.
  split; [exact H1|]. split; [exact H2|].
  split; [exact (proj1 (proj2 (proj2 (proj2 (proj2
            (X3_trim_keeps_first_particles 2 Demo.five)) H1)) H2))|].
  split; [exact H3|].
  split; [exact (proj1 (X3_trim_keeps_first_particles 7 Demo.five) H3)|].
  split; [exact H4|].
  exact (proj1 (proj1 (proj2 (X3_trim_keeps_first_particles (-3) Demo.five)) H4)).
Defined.



End OrbitFacts.

Module BTFNodesFacts.
Import BTF BTFNodes.

(** *** The accessors *)

(** X5.  [setParam] and [getParam] go together: a parameter that was set is
    read back, setting one parameter leaves the others as they were, and
    reading a parameter that the dictionary does not have raises the
    [KeyError] of that name; a new Faraday cup reads a current of 0.0. *)
Theorem X5_setParam_getParam (parameters : gmap string pyval)
    (param other : string) (new_param : pyval) :
  getParam (setParam parameters param new_param) param = Ok new_param
  /\ (other <> param ->
      getParam (setParam parameters param new_param) other
      = getParam parameters other)
  /\ (parameters !! other = None ->
      getParam parameters other = Raise (KeyError other))
  /\ getCurrent (setParam parameters "current" new_param) = Ok new_param
  /\ getCurrent BTF_FCclass.init_parameters = Ok (PyFloat 0).
Proof.
  unfold getParam, setParam, getCurrent, getitem. split; [|split; [|split; [|split]]].
  - rewrite lookup_insert_eq. reflexivity.
  - intros Hne. rewrite lookup_insert_ne by congruence. reflexivity.
  - intros ->. reflexivity.
  - rewrite lookup_insert_eq. reflexivity.
  - reflexivity.
Qed.

Lemma X5_setParam_getParam_witness :
  "speed" <> "current"
  /\ BTF_FCclass.init_parameters !! "speed" = None
  /\ getParam (setParam BTF_FCclass.init_parameters "current" (PyFloat 2)) "speed"
     = Raise (KeyError "speed").
Proof.
  assert (Hne : "speed" <> "current") by discriminate.
  assert (Hno : BTF_FCclass.init_parameters !! "speed" = None) by reflexivity.
  split; [exact Hne|]. split; [exact Hno|].
  destruct (X5_setParam_getParam BTF_FCclass.init_parameters "current" "speed"
              (PyFloat 2)) as (_ & Hother & _).
  rewrite (Hother Hne).
  destruct (X5_setParam_getParam BTF_FCclass.init_parameters "current" "speed"
              (PyFloat 2)) as (_ & _ & Hmiss & _).
  exact (Hmiss Hno).
Defined.

(** *** The Faraday cup and the current monitor *)

(** X6.  [trackActions] of the Faraday cup assigns to ['current'] and to
    nothing else: when it returns, every other parameter is what it was,
    ['current'] is a float whenever [paramsDict] had a bunch, and tracking
    the same [paramsDict] once more changes nothing. *)
Theorem X6_track_assigns_current_only
    (parameters paramsDict after : gmap string pyval) :
  BTF_FCclass.trackActions parameters paramsDict = Ok after ->
  (forall key, key <> "current" -> after !! key = parameters !! key)
  /\ (is_Some (paramsDict !! "bunch") ->
      exists q, getCurrent after = Ok (PyFloat q))
  /\ BTF_FCclass.trackActions after paramsDict = Ok after.
Proof.
  unfold BTF_FCclass.trackActions, getCurrent, getitem.
  destruct (paramsDict !! "bunch") as [bunch|].
  - destruct (getSizeGlobal bunch) as [n|]; cbn [bind_result]; [|discriminate].
    destruct (n >? 0)%Z.
    + destruct (paramsDict !! "beam_current") as [c|]; cbn [bind_result];
        [|discriminate].
      destruct (paramsDict !! "initial_particle_number") as [i|];
        cbn [bind_result]; [|discriminate].
      destruct (int_truediv n i) as [r|]; cbn [bind_result]; [|discriminate].
      destruct (float_mul r c) as [cur|]; cbn [bind_result]; [|discriminate].
      intros [= <-]. split; [|split].
      * intros key Hkey. rewrite lookup_insert_ne by congruence. reflexivity.
      * intros _. exists cur. rewrite lookup_insert_eq. reflexivity.
      * rewrite insert_insert_eq. reflexivity.
    + intros [= <-]. split; [|split].
      * intros key Hkey. rewrite lookup_insert_ne by congruence. reflexivity.
      * intros _. exists 0%Q. rewrite lookup_insert_eq. reflexivity.
      * rewrite insert_insert_eq. reflexivity.
  - intros [= <-]. split; [|split].
    + reflexivity.
    + intros [? H]. discriminate H.
    + reflexivity.
Qed.

Lemma X6_track_assigns_current_only_witness :
  let paramsDict : gmap string pyval :=
    {[ "bunch" := PyBunch {| size := 500 |};
       "beam_current" := PyFloat (38 # 1000);
       "initial_particle_number" := PyInt 1000 ]} in
  let parameters : gmap string pyval :=
    {[ "current" := PyFloat 0; "gain" := PyInt 3 ]} in
  exists after,
    BTF_FCclass.trackActions parameters paramsDict = Ok after
    /\ after !! "gain" = Some (PyInt 3)
    /\ BTF_FCclass.trackActions after paramsDict = Ok after.
Proof.
  intros paramsDict parameters.
  destruct (BTF_FCclass.trackActions parameters paramsDict) as [after|e] eqn:Hrun.
  - exists after. split; [reflexivity|].
    destruct (X6_track_assigns_current_only parameters paramsDict after Hrun)
      as (Hkeep & _ & Hagain).
    split; [|exact Hagain].
    rewrite (Hkeep "gain"); [reflexivity | discriminate].
  - exfalso. vm_compute in Hrun. discriminate Hrun.
Defined.



(** *** The Faraday cup object *)

(** X8.  A Faraday cup object whose state is 1 stops the beam: it empties
    the bunch and leaves the rest of [paramsDict] alone, so that a Faraday
    cup after it reads 0.0 whatever the beam current is.  With any other
    integer state it lets [paramsDict] through as it is. *)
Theorem X8_fc_object_stops_the_beam
    (object_parameters fc_parameters paramsDict : gmap string pyval)
    (b : Bunch) (state : Z) :
  paramsDict !! "bunch" = Some (PyBunch b) ->
  object_parameters !! "state" = Some (PyInt state) ->
  (state = 1%Z ->
     exists after,
       BTF_FC_Objectclass.trackActions object_parameters paramsDict = Ok after
       /\ after !! "bunch" = Some (PyBunch {| size := 0 |})
       /\ (forall key, key <> "bunch" -> after !! key = paramsDict !! key)
       /\ BTF_FCclass.trackActions fc_parameters after
          = Ok (<["current" := PyFloat 0]> fc_parameters))
  /\ (state <> 1%Z ->
      BTF_FC_Objectclass.trackActions object_parameters paramsDict
      = Ok paramsDict).
Proof.
  intros Hb Hstate. unfold BTF_FC_Objectclass.trackActions, getitem.
  rewrite Hb, Hstate. cbn [getSizeGlobal bind_result eq_int]. split.
  - intros ->. cbn [Z.eqb Pos.eqb].
    destruct (Z.gtb_spec (Z.of_nat (size b)) 0) as [Hpos|Hzero].
    + cbn [BTF_FC_Objectclass.deleteAllParticles bind_result].
      eexists. split; [reflexivity|]. split; [apply lookup_insert_eq|].
      split.
      * intros key Hkey. rewrite lookup_insert_ne by congruence. reflexivity.
      * unfold BTF_FCclass.trackActions. rewrite lookup_insert_eq. reflexivity.
    + assert (Hsize : size b = 0) by lia.
      exists paramsDict. destruct b as [n]. cbn in Hsize. subst n.
      split; [reflexivity|]. split; [exact Hb|]. split; [reflexivity|].
      unfold BTF_FCclass.trackActions. rewrite Hb. reflexivity.
  - intros Hne. destruct (Z.eqb_spec state 1); [congruence | reflexivity].
Qed.

Lemma X8_fc_object_stops_the_beam_witness :
  let paramsDict : gmap string pyval :=
    {[ "bunch" := PyBunch {| size := 500 |};
       "beam_current" := PyFloat (38 # 1000);
       "initial_particle_number" := PyInt 1000 ]} in
  paramsDict !! "bunch" = Some (PyBunch {| size := 500 |})
  /\ BTF_FC_Objectclass.init_parameters !! "state" = Some (PyInt 1)
  /\ exists after,
       BTF_FC_Objectclass.trackActions BTF_FC_Objectclass.init_parameters
         paramsDict = Ok after
       /\ BTF_FCclass.trackActions BTF_FCclass.init_parameters after
          = Ok (<["current" := PyFloat 0]> BTF_FCclass.init_parameters).
Proof.
  intros paramsDict.
  assert (H1 : paramsDict !! "bunch" = Some (PyBunch {| size := 500 |}))
    by reflexivity.
  assert (H2 : BTF_FC_Objectclass.init_parameters !! "state" = Some (PyInt 1))
    by reflexivity.
  split; [exact H1|]. split; [exact H2|].
  destruct (proj1 (X8_fc_object_stops_the_beam BTF_FC_Objectclass.init_parameters
                     BTF_FCclass.init_parameters paramsDict {| size := 500 |} 1
                     H1 H2) eq_refl)
    as (after & Hrun & _ & _ & Hfc).
  exists after. split; [exact Hrun | exact Hfc].
Defined.

(** *** The screen *)

Section Screen.
Import Orbit.

Lemma sweep_imap (coord : particle -> Q) (hit : Q -> bool) (m : nat) (b : Bunch) :
  BTF_Screenclass.sweep coord hit m b
  = {| slots := imap (BTF_Screenclass.swept coord hit m) (slots b);
       macroSize := macroSize b |}.
Proof.
  unfold BTF_Screenclass.sweep. induction m as [|m IH].
  - cbn. destruct b as [l ms]; cbn. f_equal.
    apply list_eq. intros i. rewrite list_lookup_imap.
    destruct (l !! i); [|reflexivity]. cbn. unfold BTF_Screenclass.swept.
    rewrite decide_False by lia. reflexivity.
  - rewrite seq_S, fold_left_app, IH. cbn [fold_left Nat.add slots].
    rewrite list_lookup_imap.
    destruct (slots b !! m) as [p|] eqn:Hm; cbn [fmap option_fmap option_map].
    + unfold BTF_Screenclass.swept at 1. rewrite decide_False by lia.
      destruct (hit (coord p)) eqn:Hhit.
      * unfold deleteParticleFast; cbn [slots macroSize]. f_equal.
        apply list_eq. intros i. rewrite list_lookup_alter, !list_lookup_imap.
        destruct (decide (m = i)) as [<-|Hne].
        -- rewrite Hm. cbn. unfold BTF_Screenclass.swept.
           rewrite decide_False by lia. rewrite decide_True by lia.
           rewrite Hhit. reflexivity.
        -- destruct (slots b !! i); [|reflexivity]. cbn.
           unfold BTF_Screenclass.swept.
           destruct (decide (i < m)) as [H|H].
           ++ rewrite decide_True by lia. reflexivity.
           ++ rewrite decide_False by lia. reflexivity.
      * f_equal. apply imap_ext. intros i q Hi. unfold BTF_Screenclass.swept.
        destruct (decide (i < m)) as [H|H].
        -- rewrite decide_True by lia. reflexivity.
        -- destruct (decide (i = m)) as [->|Hne].
           ++ rewrite decide_True by lia.
              rewrite Hm in Hi. injection Hi as <-. rewrite Hhit. reflexivity.
           ++ rewrite decide_False by lia. reflexivity.
    + f_equal. apply imap_ext. intros i q Hi. unfold BTF_Screenclass.swept.
      apply lookup_lt_Some in Hi. apply lookup_ge_None in Hm.
      rewrite !decide_True by lia. reflexivity.
Qed.

(** A loop over all the places flags the particles that are hit. *)
Lemma sweep_all (coord : particle -> Q) (hit : Q -> bool) (b : Bunch) :
  BTF_Screenclass.sweep coord hit (getSizeGlobal b) b
  = {| slots := (fun p => if hit (coord p) then kill p else p) <$> slots b;
       macroSize := macroSize b |}.
Proof.
  rewrite sweep_imap. f_equal.
  rewrite <- (imap_const (fun p => if hit (coord p) then kill p else p)).
  apply imap_ext. intros i p Hi. apply lookup_lt_Some in Hi.
  unfold BTF_Screenclass.swept, getSizeGlobal. rewrite decide_True by lia.
  reflexivity.
Qed.

Lemma thinned_refl (b : Bunch) : BTF_Screenclass.thinned b b.
Proof.
  split; [reflexivity|]. split; [reflexivity|]. intros i p Hp. exists p. auto.
Qed.

Lemma thinned_trans (a b c : Bunch) :
  BTF_Screenclass.thinned a b -> BTF_Screenclass.thinned b c ->
  BTF_Screenclass.thinned a c.
Proof.
  intros (Hm1 & Hl1 & H1) (Hm2 & Hl2 & H2).
  split; [congruence|]. split; [congruence|].
  intros i p'' Hp''. destruct (H2 i p'' Hp'') as (p' & Hp' & Hx & Hy & Ha).
  destruct (H1 i p' Hp') as (p & Hp & Hx' & Hy' & Ha').
  exists p. repeat split; [exact Hp | congruence | congruence | auto].
Qed.

Lemma sweep_thinned (coord : particle -> Q) (hit : Q -> bool) (m : nat) (b : Bunch) :
  BTF_Screenclass.thinned b (BTF_Screenclass.sweep coord hit m b).
Proof.
  rewrite sweep_imap. split; [reflexivity|]. split; [apply length_imap|].
  cbn [slots]. intros i p' Hp'. rewrite list_lookup_imap in Hp'.
  destruct (slots b !! i) as [p|]; [|discriminate]. cbn in Hp'.
  injection Hp' as <-. exists p. split; [reflexivity|].
  unfold BTF_Screenclass.swept.
  destruct (decide (i < m)); [destruct (hit (coord p))|]; cbn; auto.
  repeat split; auto. discriminate.
Qed.

Lemma on_axis_thinned (hit : Q -> bool) (axis : pyval) (m : nat) (b b' : Bunch) :
  BTF_Screenclass.on_axis hit axis m b = Ok b' -> BTF_Screenclass.thinned b b'.
Proof.
  unfold BTF_Screenclass.on_axis.
  destruct (0 <? m); [|intros [= <-]; apply thinned_refl].
  destruct (eq_int axis 0); [intros [= <-]; apply sweep_thinned|].
  destruct (eq_int axis 1); [intros [= <-]; apply sweep_thinned|].
  destruct (lookup_name _ _); cbn [bind_result]; [|discriminate].
  intros [= <-]; apply thinned_refl.
Qed.

(** What [trackActions] does with parameters that are numbers. *)
Lemma screen_track_numbers (parameters : gmap string pyval) (b : Bunch)
    (position start : Q) (polarity : Z) (axis : pyval) :
  parameters !! "position" = Some (PyFloat position) ->
  parameters !! "interaction_start" = Some (PyFloat start) ->
  parameters !! "axis_polarity" = Some (PyInt polarity) ->
  parameters !! "axis" = Some axis ->
  let edge := ((position + start) * inject_Z polarity)%Q in
  BTF_Screenclass.trackActions parameters (Some b)
  = (let? b1 :=
       (if Qltb (inject_Z polarity) 0 then
          if Qltb edge BTF_Screenclass.near_bunch then
            BTF_Screenclass.on_axis (fun v => Qltb edge v) axis (getSizeGlobal b) b
          else Ok b
        else Ok b) in
     let? b2 :=
       (if Qltb 0 (inject_Z polarity) then
          if Qltb (- BTF_Screenclass.near_bunch) edge then
            BTF_Screenclass.on_axis (fun v => Qltb v edge) axis (getSizeGlobal b) b1
          else Ok b1
        else Ok b1) in
     Ok (Some b2)).
Proof.
  intros Hp Hs Hpol Hax edge. unfold BTF_Screenclass.trackActions, getitem.
  rewrite Hp, Hs, Hpol, Hax.
  cbn [bind_result py_add py_mul lt_num gt_num number].
  fold edge.
  destruct (Qltb (inject_Z polarity) 0); [destruct (Qltb edge _)|]; reflexivity.
Qed.

Lemma polarity_sign (polarity : Z) :
  (Qltb (inject_Z polarity) 0 = true <-> (polarity < 0)%Z)
  /\ (Qltb 0 (inject_Z polarity) = true <-> (0 < polarity)%Z).
Proof.
  rewrite !Qltb_lt. change 0%Q with (inject_Z 0). rewrite <- !Zlt_Qlt. tauto.
Qed.




(** X12.  Whatever its parameters are, a screen that returns has only
    flagged particles: the bunch has the same macro-size and the same
    places with the same coordinates as before, and no particle is alive
    that was not.  Without a bunch it returns at once. *)
Theorem X12_screen_only_flags (parameters : gmap string pyval) (b : Bunch)
    (r : option Bunch) :
  BTF_Screenclass.trackActions parameters (Some b) = Ok r ->
  (exists b', r = Some b' /\ BTF_Screenclass.thinned b b')
  /\ BTF_Screenclass.trackActions parameters None = Ok None.
Proof.
  intros Hrun. split; [|reflexivity].
  unfold BTF_Screenclass.trackActions in Hrun.
  repeat match type of Hrun with
         | bind_result ?c _ = _ =>
             let E := fresh "E" in
             destruct c eqn:E; cbn [bind_result] in Hrun; [|discriminate Hrun]
         end.
  injection Hrun as <-. eexists. split; [reflexivity|].
  match goal with
  | H1 : (if _ then _ else _) = Ok ?b1, H2 : (if _ then _ else _) = Ok ?b2 |- _ =>
      assert (T1 : BTF_Screenclass.thinned b b1);
      [| assert (T2 : BTF_Screenclass.thinned b1 b2) ]
  end.
  - match goal with
    | H : (if ?n then _ else Ok b) = Ok _ |- _ =>
        destruct n; [|injection H as <-; apply thinned_refl]
    end.
    match goal with
    | H : bind_result ?c _ = Ok _ |- _ =>
        destruct c as [near|]; cbn [bind_result] in H; [|discriminate H];
        destruct near; [|injection H as <-; apply thinned_refl]
    end.
    match goal with
    | H : bind_result ?c _ = Ok _ |- _ =>
        destruct c; cbn [bind_result] in H; [|discriminate H];
        exact (on_axis_thinned _ _ _ _ _ H)
    end.
  - match goal with
    | H : (if ?n then _ else Ok ?b1) = Ok ?b2 |- BTF_Screenclass.thinned ?b1 ?b2 =>
        destruct n; [|injection H as <-; apply thinned_refl];
        match type of H with
        | bind_result ?c _ = Ok _ =>
            destruct c as [near|]; cbn [bind_result] in H; [|discriminate H];
            destruct near; [|injection H as <-; apply thinned_refl]
        end;
        match type of H with
        | bind_result ?c _ = Ok _ =>
            destruct c; cbn [bind_result] in H; [|discriminate H];
            exact (on_axis_thinned _ _ _ _ _ H)
        end
    end.
  - exact (thinned_trans _ _ _ T1 T2).
Qed.

End Screen.




Lemma X12_screen_only_flags_witness :
  let parameters :=
    setParam (BTF_Screenclass.init "Screen1" (PyInt 1) (PyInt (-1)) BTF.PyNone).1
      "position" (PyFloat (-3 # 100)) in
  exists r,
    BTF_Screenclass.trackActions parameters (Some Orbit.Demo.five) = Ok r
    /\ exists b', r = Some b' /\ BTF_Screenclass.thinned Orbit.Demo.five b'.
Proof.
  intros parameters.
  destruct (BTF_Screenclass.trackActions parameters (Some Orbit.Demo.five))
    as [r|e] eqn:Hrun.
  - exists r. split; [reflexivity|].
    exact (proj1 (X12_screen_only_flags parameters Orbit.Demo.five r Hrun)).
  - exfalso. vm_compute in Hrun. discriminate Hrun.
Defined.

End BTFNodesFacts.

Module PyStrMoreFacts.
Import PyStr PyStrFacts.

Lemma length_append (a b : string) :
  String.length (a +:+ b) = String.length a + String.length b.
Proof.
  induction a as [|c a IH]; [reflexivity|].
  rewrite append_cons. cbn [String.length]. rewrite IH. reflexivity.
Qed.

Lemma replace_first_not_contained (old new s : string) :
  contains old s = false -> replace_first old new s = s.
Proof.
  induction s as [|c s IH]; cbn [contains replace_first].
  - destruct (String.prefix old EmptyString); [discriminate | reflexivity].
  - destruct (String.prefix old (String c s)); [discriminate|].
    intros H. rewrite (IH H). reflexivity.
Qed.

Lemma replace_first_length (old new s : string) :
  contains old s = true ->
  String.length (replace_first old new s) + String.length old
  = String.length s + String.length new.
Proof.
  induction s as [|c s IH]; cbn [contains replace_first].
  - destruct (String.prefix old EmptyString) eqn:Hp; [|discriminate].
    intros _. pose proof (prefix_skip _ _ Hp) as Hs.
    apply (f_equal String.length) in Hs. rewrite length_append in Hs.
    rewrite length_append. lia.
  - destruct (String.prefix old (String c s)) eqn:Hp.
    + intros _. pose proof (prefix_skip _ _ Hp) as Hs.
      apply (f_equal String.length) in Hs. rewrite length_append in Hs.
      rewrite length_append. lia.
    + intros H. specialize (IH H). cbn [String.length]. lia.
Qed.

Lemma prefix_shorter (old more s : string) :
  String.prefix (old +:+ more) s = true -> String.prefix old s = true.
Proof.
  revert s. induction old as [|c old IH]; intros s.
  - destruct s; reflexivity.
  - rewrite append_cons. destruct s as [|c' s]; cbn; [discriminate|].
    destruct (Ascii.ascii_dec c c'); [apply IH | discriminate].
Qed.

Lemma contains_shorter (old more s : string) :
  contains (old +:+ more) s = true -> contains old s = true.
Proof.
  induction s as [|c s IH]; cbn [contains].
  - destruct (String.prefix (old +:+ more) EmptyString) eqn:Hp; [|discriminate].
    rewrite (prefix_shorter _ _ _ Hp). reflexivity.
  - destruct (String.prefix (old +:+ more) (String c s)) eqn:Hp.
    + rewrite (prefix_shorter _ _ _ Hp). reflexivity.
    + intros H. rewrite (IH H). destruct (String.prefix old (String c s)); reflexivity.
Qed.

End PyStrMoreFacts.

Module SNSRunsFacts.
Import SNS SNSRuns SNSFacts.

(** *** The dummy BCM *)

Lemma bcm_update_by_beta (self : Device)
    (output : gmap string (gmap string Q)) :
  SNS_Dummy_BCM.update_measurements self output
  = match beta_of (model_name self) output with
    | Some beta => update_measurement SNS_Dummy_BCM.freq_pv (frequency beta) self
    | None => self
    end.
Proof.
  rewrite bcm_update_measurements. unfold beta_of.
  destruct (output !! model_name self); reflexivity.
Qed.

Lemma bcm_update_model_name (self : Device)
    (output : gmap string (gmap string Q)) :
  model_name (SNS_Dummy_BCM.update_measurements self output) = model_name self.
Proof.
  rewrite bcm_update_by_beta.
  destruct (beta_of (model_name self) output); reflexivity.
Qed.

Lemma update_all_snoc (self : Device)
    (outputs : list (gmap string (gmap string Q)))
    (output : gmap string (gmap string Q)) :
  update_all self (outputs ++ [output])
  = SNS_Dummy_BCM.update_measurements (update_all self outputs) output.
Proof. unfold update_all. rewrite fold_left_app. reflexivity. Qed.

Lemma update_all_keeps (self : Device)
    (outputs : list (gmap string (gmap string Q))) :
  model_name (update_all self outputs) = model_name self
  /\ (registered_plain self SNS_Dummy_BCM.freq_pv ->
      registered_plain (update_all self outputs) SNS_Dummy_BCM.freq_pv).
Proof.
  induction outputs as [|output outputs IH] using rev_ind.
  - split; [reflexivity | auto].
  - rewrite update_all_snoc. destruct IH as [Hname Hreg]. split.
    + rewrite bcm_update_model_name. exact Hname.
    + intros H. apply bcm_update_keeps_registered. auto.
Qed.

Lemma update_publishes (self : Device) (v : Q) :
  registered_plain self SNS_Dummy_BCM.freq_pv ->
  publishes (update_measurement SNS_Dummy_BCM.freq_pv v self)
    SNS_Dummy_BCM.freq_pv v.
Proof.
  intros (p & Hp & Hnoise & Htr).
  unfold publishes, update_measurement; cbn [measurements].
  eexists. split; [rewrite lookup_alter_eq, Hp; reflexivity|].
  intros draw. unfold published_value; cbn. rewrite Hnoise, Htr. reflexivity.
Qed.



(** X14.  [update_measurements] of the dummy BCM touches the value of its
    frequency measurement and nothing else: name, model name, settings,
    readbacks and the Parameters behind them are what they were, every
    other measurement is what it was, and the frequency measurement keeps
    its name, its transform and its noise.  A device that has no frequency
    measurement is not changed at all. *)
Theorem X14_bcm_touches_one_value (self : Device)
    (output : gmap string (gmap string Q)) :
  let after := SNS_Dummy_BCM.update_measurements self output in
  name after = name self
  /\ model_name after = model_name self
  /\ heap after = heap self
  /\ settings after = settings self
  /\ readbacks after = readbacks self
  /\ (forall pv, pv <> "FFT_peak2" ->
        measurements after !! pv = measurements self !! pv)
  /\ (forall p', measurements after !! "FFT_peak2" = Some p' ->
        exists p, measurements self !! "FFT_peak2" = Some p
                  /\ pv_name p' = pv_name p
                  /\ transform p' = transform p
                  /\ noise_policy p' = noise_policy p)
  /\ (measurements self !! "FFT_peak2" = None -> after = self).
Proof.
  intros after. subst after. rewrite bcm_update_by_beta.
  destruct (beta_of (model_name self) output) as [beta|].
  - unfold update_measurement; cbn [name model_name heap settings readbacks measurements].
    change SNS_Dummy_BCM.freq_pv with "FFT_peak2"%string.
    repeat split.
    + intros pv Hpv. rewrite lookup_alter_ne by congruence. reflexivity.
    + intros p' Hp'. rewrite lookup_alter_eq in Hp'.
      destruct (measurements self !! "FFT_peak2") as [p|]; [|discriminate].
      cbn in Hp'. injection Hp' as <-. exists p. auto.
    + intros Hnone. destruct self as [n mn h st rb ms]. cbn in *. f_equal.
      apply map_eq. intros pv. destruct (decide (pv = "FFT_peak2")) as [->|Hne].
      * rewrite lookup_alter_eq, Hnone. reflexivity.
      * rewrite lookup_alter_ne by congruence. reflexivity.
  - repeat split. intros p' Hp'. exists p'. auto.
Qed.

Lemma X14_bcm_touches_one_value_witness :
  let self :=
    register_measurement "Orbit" None
      (SNS_Dummy_BCM.init "Ring_Diag:BCM_D09" (Some "HEBT_Diag:BPM11")) in
  let output : gmap string (gmap string Q) :=
    {[ "HEBT_Diag:BPM11" := {[ "beta" := (1 # 2)%Q ]} ]} in
  "Orbit" <> "FFT_peak2"
  /\ measurements (SNS_Dummy_BCM.update_measurements self output) !! "Orbit"
     = measurements self !! "Orbit".
Proof.
  intros self output.
  assert (Hne : "Orbit" <> "FFT_peak2") by discriminate.
  split; [exact Hne|].
  pose proof (X14_bcm_touches_one_value self output) as H. cbv zeta in H.
  destruct H as (_ & _ & _ & _ & _ & Hother & _).
  exact (Hother "Orbit" Hne).
Defined.



End SNSRunsFacts.

Module SNSMagnetFacts.
Import SNS SNSFacts PyStrMoreFacts.

(** The public name of the readback as the initializers compute it. *)
Lemma public_name_facts (name : string) :
  let public := PyStr.replace_first "PS_" "" name in
  (public = name <-> PyStr.contains "PS_" name = false)
  /\ (PyStr.contains "PS_" name = true ->
      String.length public + 3 = String.length name)
  /\ (PyStr.contains "PS_QH" name = true -> public <> name).
Proof.
  intros public.
  assert (Hlen : PyStr.contains "PS_" name = true ->
                 String.length public + 3 = String.length name).
  { intros H. pose proof (replace_first_length "PS_" "" name H) as Hl.
    cbn [String.length] in Hl. subst public. lia. }
  split; [|split].
  - split.
    + intros Heq. destruct (PyStr.contains "PS_" name) eqn:Hc; [|reflexivity].
      specialize (Hlen eq_refl). rewrite Heq in Hlen. lia.
    + apply replace_first_not_contained.
  - exact Hlen.
  - intros Hqh Heq.
    assert (Hc : PyStr.contains "PS_" name = true)
      by (apply (contains_shorter "PS_" "QH" name); exact Hqh).
    specialize (Hlen Hc). rewrite Heq in Hlen. lia.
Qed.

(** X16.  The field readback of an SNS quadrupole or corrector is
    published under the name of the device itself exactly when that name
    has no ['PS_'] in it; otherwise the public name is three characters
    shorter than the name.  A quadrupole of negative polarity, whose name
    has ['PS_QH'], therefore never publishes its readback under its own
    name. *)
Theorem X16_readback_name_differs_iff_PS
    (Quadrupole : MagnetClass string) (Corrector : CorrectorClass)
    (name : string) (model_name : option string)
    (initial_dict : option (gmap string Q)) (self : Device) :
  SNS_Quadrupole.init Quadrupole name model_name initial_dict = Ok self
  \/ SNS_Corrector.init Corrector name model_name initial_dict = Ok self ->
  exists pv rb,
    readbacks self !! pv = Some rb
    /\ (pv = field_readback_pv Quadrupole \/ pv = field_readback_pv Corrector)
    /\ (published_name pv rb = name <-> PyStr.contains "PS_" name = false)
    /\ (PyStr.contains "PS_" name = true ->
        String.length (published_name pv rb) + 3 = String.length name)
    /\ (PyStr.contains "PS_QH" name = true -> published_name pv rb <> name).
Proof.
  intros [Hinit | Hinit].
  - unfold SNS_Quadrupole.init in Hinit.
    destruct (initial_value initial_dict (field_key Quadrupole)) as [v|];
      cbn [bind_result] in Hinit; [|discriminate Hinit].
    injection Hinit as <-.
    eexists (field_readback_pv Quadrupole), _.
    split; [cbn; apply lookup_insert_eq|]. split; [left; reflexivity|].
    exact (public_name_facts name).
  - unfold SNS_Corrector.init in Hinit.
    destruct (initial_value initial_dict (field_key Corrector)) as [v|];
      cbn [bind_result] in Hinit; [|discriminate Hinit].
    injection Hinit as <-.
    eexists (field_readback_pv Corrector), _.
    split; [cbn; apply lookup_insert_eq|]. split; [right; reflexivity|].
    exact (public_name_facts name).
Qed.

Lemma X16_readback_name_differs_iff_PS_witness :
  exists self,
    SNS_Quadrupole.init Demo.Quadrupole "SCL_Mag:PS_QH01" None None = Ok self
    /\ PyStr.contains "PS_QH" "SCL_Mag:PS_QH01" = true
    /\ exists pv rb,
         readbacks self !! pv = Some rb
         /\ published_name pv rb <> "SCL_Mag:PS_QH01".
Proof.
  destruct (SNS_Quadrupole.init Demo.Quadrupole "SCL_Mag:PS_QH01" None None)
    as [self|e] eqn:Hinit.
  - exists self. split; [reflexivity|]. split; [reflexivity|].
    destruct (X16_readback_name_differs_iff_PS Demo.Quadrupole Demo.Corrector
                "SCL_Mag:PS_QH01" None None self (or_introl Hinit))
      as (pv & rb & Hrb & _ & _ & _ & Hqh).
    exists pv, rb. split; [exact Hrb|]. apply Hqh. reflexivity.
  - exfalso. vm_compute in Hinit. discriminate Hinit.
Defined.

(** X17.  The initializer of an SNS corrector registers the two limits
    after the field: the low limit starts at [field_limits[0]] and, when
    the two limits have different PV names, the high limit starts at
    [field_limits[1]]; both are plain settings without transform.  The
    initializer fails only for an [initial_dict] that lacks the field key,
    and then with the [KeyError] of that key. *)
Theorem X17_corrector_limits (Corrector : CorrectorClass)
    (name : string) (model_name : option string)
    (initial_dict : option (gmap string Q)) :
  match SNS_Corrector.init Corrector name model_name initial_dict with
  | Ok self =>
      let base := super_init Corrector name model_name initial_dict in
      length (heap self) = 3 + length (heap base)
      /\ (exists low,
            settings self !! field_low_limit_pv Corrector
            = Some (2 + length (heap base))
            /\ heap self !! (2 + length (heap base)) = Some low
            /\ raw_value low = (field_limits Corrector).1
            /\ pv_name low = field_low_limit_pv Corrector)
      /\ (field_high_limit_pv Corrector <> field_low_limit_pv Corrector ->
          exists high,
            settings self !! field_high_limit_pv Corrector
            = Some (1 + length (heap base))
            /\ heap self !! (1 + length (heap base)) = Some high
            /\ raw_value high = (field_limits Corrector).2
            /\ pv_name high = field_high_limit_pv Corrector)
  | Raise e =>
      exists d, initial_dict = Some d /\ d !! field_key Corrector = None
                /\ e = KeyError (field_key Corrector)
  end.
Proof.
  unfold SNS_Corrector.init.
  destruct (initial_value initial_dict (field_key Corrector)) as [v|e] eqn:Hv;
    cbn [bind_result]; [|exact (initial_value_raises _ _ _ Hv)].
  cbn [register_setting register_readback fst snd heap settings].
  set (base := super_init Corrector name model_name initial_dict).
  split; [|split].
  - rewrite !length_app. cbn. lia.
  - eexists. rewrite !length_app. cbn [length].
    replace (length (heap base) + 1 + 0) with (length (heap base) + 1) by lia.
    replace (length (heap base) + 1) with (Datatypes.S (length (heap base))) by lia.
    replace (2 + length (heap base)) with (Datatypes.S (Datatypes.S (length (heap base)))) by lia.
    split; [rewrite lookup_insert_eq; f_equal; lia|].
    split.
    { apply list_lookup_middle. rewrite !length_app. cbn. lia. }
    split; reflexivity.
  - intros Hne. eexists. rewrite !length_app. cbn [length].
    split.
    { rewrite lookup_insert_ne by congruence. rewrite lookup_insert_eq.
      f_equal. lia. }
    split.
    { apply lookup_app_l_Some. apply list_lookup_middle.
      rewrite ?length_app. cbn. lia. }
    split; reflexivity.
Qed.

Lemma X17_corrector_limits_witness :
  field_high_limit_pv Demo.Corrector <> field_low_limit_pv Demo.Corrector
  /\ exists self high,
       SNS_Corrector.init Demo.Corrector "SCL_Mag:PS_DCH01" (Some "dch01") None
       = Ok self
       /\ settings self !! "B_Set.HOPR" = Some 1
       /\ heap self !! 1 = Some high
       /\ raw_value high = (1 # 10)%Q.
Proof.
  assert (Hne : field_high_limit_pv Demo.Corrector
                <> field_low_limit_pv Demo.Corrector) by discriminate.
  split; [exact Hne|].
  pose proof (X17_corrector_limits Demo.Corrector "SCL_Mag:PS_DCH01"
                (Some "dch01") None) as H.
  destruct (SNS_Corrector.init Demo.Corrector "SCL_Mag:PS_DCH01" (Some "dch01") None)
    as [self|e] eqn:Hinit.
  - cbv zeta in H. destruct H as (_ & _ & Hhigh).
    destruct (Hhigh Hne) as (high & Hset & Hheap & Hraw & _).
    exists self, high. split; [reflexivity|].
    split; [exact Hset|]. split; [exact Hheap | exact Hraw].
  - exfalso. vm_compute in Hinit. discriminate Hinit.
Defined.

End SNSMagnetFacts.

Module WiringListFacts.
Import Wiring WiringList WiringFacts.

Lemma od_get_elem {V} (k : string) (v : V) (d : odict V) :
  od_get k d = Some v -> (k, v) ∈ d.
Proof.
  induction d as [|[k0 v0] d IH]; cbn; [discriminate|].
  destruct (decide (k = k0)) as [->|Hne].
  - intros [= ->]. apply elem_of_cons. auto.
  - intros H. apply elem_of_cons. right. exact (IH H).
Qed.

(** Where an element of a [flat_map] comes from, with what stands before
    and behind it. *)
Lemma flat_map_split {A B} (f : A -> list B) (l : list A) (x : B)
    (pre post : list B) :
  flat_map f l = pre ++ x :: post ->
  exists l1 a l2 p1 p2,
    l = l1 ++ a :: l2
    /\ f a = p1 ++ x :: p2
    /\ pre = flat_map f l1 ++ p1
    /\ post = p2 ++ flat_map f l2.
Proof.
  revert pre. induction l as [|a l IH]; intros pre Heq.
  - cbn in Heq. destruct pre; discriminate Heq.
  - cbn [flat_map] in Heq. apply app_eq_app in Heq.
    destruct Heq as [rest [[Hfa Hrest] | [Hpre Hrest]]].
    + destruct rest as [|y rest].
      * cbn in Hrest. rewrite app_nil_r in Hfa.
        destruct (IH [] (eq_sym Hrest)) as (l1 & b & l2 & p1 & p2 & -> & Hfb & Hp & ->).
        exists (a :: l1), b, l2, p1, p2.
        split; [reflexivity|]. split; [exact Hfb|].
        split; [|reflexivity]. cbn [flat_map]. rewrite <- app_assoc, <- Hp, Hfa.
        rewrite app_nil_r. reflexivity.
      * cbn in Hrest. injection Hrest as <- ->.
        exists [], a, l, pre, rest. auto.
    + destruct (IH rest Hrest) as (l1 & b & l2 & p1 & p2 & -> & Hfb & -> & ->).
      exists (a :: l1), b, l2, p1, p2.
      split; [reflexivity|]. split; [exact Hfb|].
      split; [|reflexivity]. cbn [flat_map]. rewrite Hpre, app_assoc. reflexivity.
Qed.

Section Devices.
Variable quad_ps_names : list string.
Variable quad_shunt_names : list string.
Variable quads_config : odict quad_config.
Variable element_list : list string.
Variable get_dBdr : string -> Q.

Local Abbreviation quadrupole_devices :=
  (quadrupole_devices quad_ps_names quad_shunt_names quads_config
     element_list get_dBdr).
Local Abbreviation collect_quads :=
  (collect_quads quad_ps_names quad_shunt_names quads_config element_list
     get_dBdr).
Local Abbreviation connected := (connected quad_ps_names element_list).

(** X18.  A quadrupole is added after the devices it is built from: in the
    list of devices, its power supply stands somewhere before it, and when
    it has a shunt, the shunt stands right before it. *)
Theorem X18_quadrupole_after_its_supply
    (pre post : list device) (name model_name ps_name : string)
    (power_shunt : option string) (polarity : Z) :
  quadrupole_devices
  = pre ++ Quadrupole name model_name ps_name power_shunt polarity :: post ->
  (exists field, Quadrupole_Power_Supply ps_name field ∈ pre)
  /\ (forall shunt_name,
        power_shunt = Some shunt_name ->
        exists pre' field,
          pre = pre' ++ [Quadrupole_Power_Shunt shunt_name field]).
Proof.
  unfold Wiring.quadrupole_devices. intros Heq.
  apply flat_map_split in Heq.
  destruct Heq as (l1 & [ps entry] & l2 & p1 & p2 & _ & Hps & -> & _).
  unfold ps_devices in Hps; cbn [fst snd] in Hps.
  destruct (quads entry) as [|q qs]; [destruct p1; discriminate Hps|].
  destruct p1 as [|d p1]; [discriminate Hps|].
  cbn in Hps. injection Hps as <- Hquads.
  change (quad_devices ps (min_field entry) q
          ++ flat_map (quad_devices ps (min_field entry)) qs)
    with (flat_map (quad_devices ps (min_field entry)) (q :: qs)) in Hquads.
  apply flat_map_split in Hquads.
  destruct Hquads as (m1 & [qname qm] & m2 & q1 & q2 & _ & Hq & -> & _).
  unfold quad_devices in Hq; cbn [fst snd] in Hq.
  destruct (decide (shunt qm = "none"%string)) as [Hnone|Hshunt].
  - destruct q1 as [|d q1]; [|destruct q1; discriminate Hq].
    cbn in Hq. injection Hq as <- <- <- <- <-. split.
    + exists (min_field entry). rewrite !elem_of_app, elem_of_cons. auto.
    + intros sh Hsh. discriminate Hsh.
  - destruct q1 as [|d q1]; [discriminate Hq|].
    destruct q1 as [|d' q1]; [|destruct q1; discriminate Hq].
    cbn in Hq. injection Hq as <- <- <- <- <- <-. split.
    + exists (min_field entry). rewrite !elem_of_app, elem_of_cons. auto.
    + intros sh [= <-]. eexists (_ ++ _ :: _), _.
      rewrite <- app_assoc. cbn [app]. reflexivity.
Qed.

Lemma ps_names_of_quad_devices (ps : string) (f : efloat) (qs : odict quad_model) :
  ps_names_of (flat_map (quad_devices ps f) qs) = [].
Proof.
  unfold ps_names_of. induction qs as [|[n qm] qs IH]; [reflexivity|].
  cbn [flat_map]. rewrite omap_app, IH, app_nil_r.
  unfold quad_devices; cbn [fst snd].
  destruct (decide (shunt qm = "none"%string)); reflexivity.
Qed.

Lemma ps_names_of_ps_devices (d : odict ps_entry) :
  ps_names_of (flat_map ps_devices d)
  = (List.filter (fun it => match quads it.2 with [] => false | _ => true end) d).*1.
Proof.
  induction d as [|[ps entry] d IH]; [reflexivity|].
  cbn [flat_map List.filter]. unfold ps_names_of in *. rewrite omap_app, IH.
  unfold ps_devices; cbn [fst snd].
  destruct (quads entry) as [|q qs] eqn:Hq; [reflexivity|].
  cbn [omap list_omap ps_name_of fmap list_fmap fst app].
  change (omap ps_name_of (flat_map (quad_devices ps (min_field entry)) (q :: qs)))
    with (ps_names_of (flat_map (quad_devices ps (min_field entry)) (q :: qs))).
  rewrite ps_names_of_quad_devices. reflexivity.
Qed.

Lemma NoDup_filter_keys {V} (P : string * V -> bool) (d : odict V) :
  NoDup d.*1 -> NoDup (List.filter P d).*1.
Proof.
  induction d as [|[k v] d IH]; cbn; [auto|].
  rewrite NoDup_cons. intros [Hnot Hnd].
  destruct (P (k, v)); [|auto]. cbn. apply NoDup_cons. split; [|auto].
  intros Hin. apply Hnot. apply list_elem_of_fmap in Hin.
  destruct Hin as ([k' v'] & -> & Hin). apply list_elem_of_In, filter_In in Hin.
  destruct Hin as [Hin _]. apply list_elem_of_fmap. exists (k', v').
  split; [reflexivity|]. apply list_elem_of_In. exact Hin.
Qed.


Local Abbreviation add_quad :=
  (add_quad quad_ps_names quad_shunt_names element_list get_dBdr).
Local Abbreviation with_quad := (with_quad get_dBdr).
Local Abbreviation model_for := (model_for quad_shunt_names get_dBdr).
Local Abbreviation quads_recorded :=
  (quads_recorded quad_ps_names quad_shunt_names element_list get_dBdr).

Lemma add_quad_shunt_cases (ps_quads : odict ps_entry) (item : string * quad_config) :
  (add_quad ps_quads item = ps_quads
   /\ forall ps_name, is_Some (od_get ps_name ps_quads) -> ~ connected ps_name item)
  \/ exists ps_name entry,
       connected ps_name item
       /\ od_get ps_name ps_quads = Some entry
       /\ add_quad ps_quads item
          = od_set ps_name
              (with_quad item (shunt_of quad_shunt_names item.2) entry) ps_quads.
Proof.
  unfold Wiring.add_quad, Wiring.connected, shunt_of.
  destruct item as [name dd]; cbn [fst snd].
  destruct (decide (PyORBIT_Name dd ∈ element_list)) as [Hel|Hel];
    [|left; split; [reflexivity | tauto]].
  destruct (Power_Supply dd) as [ps|] eqn:Hps;
    [|left; split; [reflexivity | intros ? _ (_ & [=] & _)]].
  destruct (decide (ps ∈ quad_ps_names)) as [Hin|Hin];
    [|left; split; [reflexivity | intros ? _ (_ & [= <-] & ?); tauto]].
  destruct (od_get ps ps_quads) as [entry|] eqn:Hget.
  - right. exists ps, entry.
    destruct (Power_Shunt dd) as [sh|];
      [destruct (decide (sh ∈ quad_shunt_names))|]; auto.
  - left. split; [reflexivity|].
    intros ps' [e He] (_ & [= <-] & _). congruence.
Qed.

Lemma od_set_self {V} (k : string) (v : V) (d : odict V) :
  (k, v) ∈ od_set k v d.
Proof.
  induction d as [|[k0 v0] d IH]; cbn.
  - apply list_elem_of_here.
  - destruct (decide (k = k0)); [apply list_elem_of_here|].
    apply list_elem_of_further, IH.
Qed.

Lemma od_set_other {V} (k n : string) (v x : V) (d : odict V) :
  n <> k -> (n, x) ∈ d -> (n, x) ∈ od_set k v d.
Proof.
  intros Hne. induction d as [|[k0 v0] d IH]; cbn.
  - intros Hin. apply elem_of_nil in Hin. destruct Hin.
  - rewrite elem_of_cons. intros [[= -> ->] | Hin].
    + destruct (decide (k = k0)); [congruence | apply list_elem_of_here].
    + destruct (decide (k = k0)); apply list_elem_of_further; auto.
Qed.

Lemma add_quad_recorded (processed : odict quad_config)
    (ps_quads : odict ps_entry) (item : string * quad_config) :
  NoDup (processed ++ [item]).*1 ->
  quads_recorded processed ps_quads ->
  quads_recorded (processed ++ [item]) (add_quad ps_quads item).
Proof.
  intros Hnd Hrec.
  assert (Hnew : forall name cfg, (name, cfg) ∈ processed -> name <> item.1).
  { intros name cfg Hin ->. rewrite fmap_app in Hnd.
    apply NoDup_app in Hnd. destruct Hnd as (_ & Hnot & _).
    apply (Hnot item.1).
    - apply list_elem_of_fmap. exists (item.1, cfg). auto.
    - cbn. apply list_elem_of_here. }
  assert (Hlater : forall ps entry,
            od_get ps ps_quads = Some entry -> ~ connected ps item ->
            forall name qm,
              (name, qm) ∈ quads entry
              <-> exists cfg,
                    (name, cfg) ∈ processed ++ [item]
                    /\ connected ps (name, cfg)
                    /\ qm = model_for (name, cfg)).
  { intros ps entry Hget Hnot name qm. rewrite (Hrec ps entry Hget name qm).
    split; intros (cfg & Hin & Hc & Hqm); exists cfg.
    - split; [apply elem_of_app; auto | auto].
    - split; [|auto]. apply elem_of_app in Hin. destruct Hin as [Hin | Hin]; [exact Hin|].
      apply list_elem_of_singleton in Hin. subst item. tauto. }
  destruct (add_quad_shunt_cases ps_quads item)
    as [[-> Hnot] | (ps & entry & Hconn & Hget & ->)].
  - intros ps entry Hget. apply Hlater; [exact Hget | apply Hnot; eauto].
  - intros ps' entry' Hget'. destruct (decide (ps = ps')) as [<-|Hne].
    + rewrite od_get_set_eq in Hget'. injection Hget' as <-.
      intros name qm. cbn [Wiring.with_quad quads]. split.
      * intros Hin. apply od_set_item in Hin. destruct Hin as [[-> ->] | Hold].
        -- exists item.2. destruct item as [n c]; cbn [fst snd] in *.
           split; [apply elem_of_app; right; apply list_elem_of_singleton; reflexivity|].
           split; [exact Hconn | reflexivity].
        -- apply (Hrec ps entry Hget) in Hold. destruct Hold as (cfg & Hin & Hc).
           exists cfg. split; [apply elem_of_app; auto | exact Hc].
      * intros (cfg & Hin & Hc & ->). apply elem_of_app in Hin.
        destruct Hin as [Hin | Hin].
        -- apply od_set_other; [exact (Hnew name cfg Hin)|].
           apply (Hrec ps entry Hget). eauto.
        -- apply list_elem_of_singleton in Hin. subst item. cbn [fst snd].
           apply od_set_self.
    + rewrite od_get_set_ne in Hget' by exact Hne.
      apply Hlater; [exact Hget'|].
      intros (_ & Hps' & _). destruct Hconn as (_ & Hps & _). congruence.
Qed.

Lemma fold_add_quad_recorded (rest processed : odict quad_config)
    (ps_quads : odict ps_entry) :
  NoDup (processed ++ rest).*1 ->
  quads_recorded processed ps_quads ->
  quads_recorded (processed ++ rest) (fold_left add_quad rest ps_quads).
Proof.
  revert processed ps_quads.
  induction rest as [|item rest IH]; intros processed acc Hnd Hrec; cbn.
  - rewrite app_nil_r. exact Hrec.
  - replace (processed ++ item :: rest) with ((processed ++ [item]) ++ rest) in *
      by (rewrite <- app_assoc; reflexivity).
    apply IH; [exact Hnd|]. apply add_quad_recorded; [|exact Hrec].
    rewrite fmap_app in Hnd. apply NoDup_app in Hnd. apply Hnd.
Qed.

Lemma collect_quads_recorded :
  NoDup quads_config.*1 -> quads_recorded quads_config collect_quads.
Proof.
  intros Hnd. apply (fold_add_quad_recorded quads_config []); [exact Hnd|].
  destruct (init_ps_quads_spec quad_ps_names) as (_ & Hfresh & _).
  intros ps entry Hget name qm. rewrite (Hfresh ps entry Hget). cbn. split.
  - intros Hin. apply elem_of_nil in Hin. destruct Hin.
  - intros (cfg & Hin & _). apply elem_of_nil in Hin. destruct Hin.
Qed.


End Devices.

Lemma X18_quadrupole_after_its_supply_witness :
  let devices :=
    quadrupole_devices Demo.quad_ps_names Demo.quad_shunt_names
      Demo.quads_config Demo.element_list Demo.get_dBdr in
  devices = take 4 devices ++ Quadrupole "Q2" "q2" "PS_A" (Some "ShntC_2") (-1)
                     :: drop 5 devices
  /\ (exists field, Quadrupole_Power_Supply "PS_A" field ∈ take 4 devices)
  /\ (exists pre' field,
        take 4 devices = pre' ++ [Quadrupole_Power_Shunt "ShntC_2" field]).
Proof.
  intros devices.
  assert (Heq : devices = take 4 devices
                  ++ Quadrupole "Q2" "q2" "PS_A" (Some "ShntC_2") (-1)
                  :: drop 5 devices) by (vm_compute; reflexivity).
  split; [exact Heq|].
  destruct (X18_quadrupole_after_its_supply Demo.quad_ps_names
              Demo.quad_shunt_names Demo.quads_config Demo.element_list
              Demo.get_dBdr (take 4 devices) (drop 5 devices)
              "Q2" "q2" "PS_A" (Some "ShntC_2") (-1) Heq) as [Hps Hsh].
  split; [exact Hps | exact (Hsh "ShntC_2" eq_refl)].
Defined.



End WiringListFacts.

Module StartupFacts.
Import Startup.

Lemma for_items_ok {A} (round : string * A -> result pyexn (list device))
    (items : Wiring.odict A) :
  is_ok (for_items round items) = true
  <-> forall item, item ∈ items -> is_ok (round item) = true.
Proof.
  induction items as [|it rest IH]; cbn [for_items].
  - split; [|reflexivity]. intros _ item H. apply elem_of_nil in H. destruct H.
  - destruct (round it) as [ds|e] eqn:Hr; cbn [bind_result].
    + destruct (for_items round rest) as [ds'|e']; cbn [bind_result is_ok] in *.
      * split; [|reflexivity]. intros _ item Hin. apply elem_of_cons in Hin.
        destruct Hin as [-> | Hin]; [rewrite Hr; reflexivity|].
        exact (proj1 IH eq_refl item Hin).
      * split; [discriminate|]. intros H. apply IH. intros item Hin.
        apply H. apply elem_of_cons. auto.
    + split; [discriminate|]. intros H.
      specialize (H it (list_elem_of_here _ _)). rewrite Hr in H. exact H.
Qed.

Lemma for_items_added {A} (round : string * A -> result pyexn (list device))
    (items : Wiring.odict A) (devices : list device) :
  for_items round items = Ok devices ->
  devices = flat_map (added round) items.
Proof.
  revert devices. induction items as [|it rest IH]; cbn [for_items flat_map].
  - intros devices [= <-]. reflexivity.
  - intros devices. unfold added at 1.
    destruct (round it) as [ds|e]; cbn [bind_result]; [|discriminate].
    destruct (for_items round rest) as [ds'|e']; cbn [bind_result]; [|discriminate].
    intros [= <-]. rewrite (IH ds' eq_refl). reflexivity.
Qed.

Lemma for_items_first_raise {A}
    (round : string * A -> result pyexn (list device))
    (pre post : Wiring.odict A) (item : string * A) (e : pyexn) :
  (forall x, x ∈ pre -> is_ok (round x) = true) ->
  round item = Raise e ->
  for_items round (pre ++ item :: post) = Raise e.
Proof.
  intros Hpre Hitem. induction pre as [|x pre IH]; cbn [app for_items].
  - rewrite Hitem. reflexivity.
  - pose proof (Hpre x (list_elem_of_here _ _)) as Hx.
    destruct (round x) as [ds|e']; [|discriminate Hx]. cbn [bind_result].
    rewrite IH; [reflexivity|].
    intros y Hy. apply Hpre. apply list_elem_of_further. exact Hy.
Qed.

Lemma elem_of_middle {A} (l1 l2 : list A) (a : A) : a ∈ l1 ++ a :: l2.
Proof. apply elem_of_app. right. apply list_elem_of_here. Qed.

Section MainFacts.
Variable element_list : list string.
Variable get_B : string -> Q.
Variable corrector_ps_names : list string.

Local Abbreviation corrector_round :=
  (corrector_round element_list get_B corrector_ps_names).
Local Abbreviation corrector_devices :=
  (corrector_devices element_list get_B corrector_ps_names).

(** X21.  Every corrector is given a power supply of its own: in the list
    of devices a [Corrector] stands right behind the power-supply device it
    holds, and that power supply was constructed with the field [B] of the
    corrector's element.  The corrector comes from an entry of the
    configuration whose element is in the lattice and whose power supply is
    a configured one. *)
Theorem X21_corrector_behind_its_own_supply
    (correctors : Wiring.odict device_dict) (devices pre post : list device)
    (name model_name : string) (power_supply : device) (polarity : Z) :
  corrector_devices correctors = Ok devices ->
  devices = pre ++ Corrector name model_name power_supply polarity :: post ->
  exists pre' ps_name device_dict,
    pre = pre' ++ [power_supply]
    /\ power_supply = Corrector_Power_Supply ps_name (get_B model_name)
    /\ (name, device_dict) ∈ correctors
    /\ PyORBIT_Name device_dict = Some model_name
    /\ model_name ∈ element_list
    /\ Power_Supply device_dict = Some ps_name
    /\ ps_name ∈ corrector_ps_names
    /\ Polarity device_dict = Some polarity.
Proof.
  intros Hok Hsplit. apply for_items_added in Hok. rewrite Hok in Hsplit.
  apply WiringListFacts.flat_map_split in Hsplit.
  destruct Hsplit as (l1 & [n dd] & l2 & p1 & p2 & -> & Hadd & -> & _).
  unfold added, Startup.corrector_round in Hadd; cbn [fst snd] in Hadd.
  destruct (PyORBIT_Name dd) as [ele|] eqn:Hele; cbn in Hadd;
    [|destruct p1; discriminate Hadd].
  destruct (Polarity dd) as [pol|] eqn:Hpol; cbn in Hadd;
    [|destruct p1; discriminate Hadd].
  destruct (decide (ele ∈ element_list)) as [Hin|Hin];
    [|destruct p1; discriminate Hadd].
  destruct (Power_Supply dd) as [ps|] eqn:Hps;
    [|destruct p1; discriminate Hadd].
  destruct (decide (ps ∈ corrector_ps_names)) as [Hconf|Hconf];
    [|destruct p1; discriminate Hadd].
  destruct p1 as [|d p1]; [discriminate Hadd|].
  destruct p1 as [|d' p1]; [|destruct p1; discriminate Hadd].
  cbn in Hadd. injection Hadd as <- <- <- <- <- <-.
  exists (flat_map (added corrector_round) l1), ps, dd.
  split; [reflexivity|]. split; [reflexivity|].
  split; [apply elem_of_middle|]. auto.
Qed.


End MainFacts.

Section BPMFacts.
Context (element_list : list string) (offset_dict : option (gmap string Q)).

Local Abbreviation bpm_round := (bpm_round element_list offset_dict).
Local Abbreviation bpm_devices := (bpm_devices element_list offset_dict).
Local Abbreviation offset_for := (offset_for offset_dict).

Lemma bpm_round_ok (item : string * device_dict) :
  is_ok (bpm_round item) = true
  <-> exists ele_name,
        PyORBIT_Name item.2 = Some ele_name
        /\ (ele_name ∈ element_list ->
            forall offsets, offset_dict = Some offsets ->
                            is_Some (offsets !! item.1)).
Proof.
  destruct item as [n dd]. unfold Startup.bpm_round; cbn [fst snd].
  destruct (PyORBIT_Name dd) as [ele|]; cbn;
    [|split; [discriminate | intros (? & [=] & _)]].
  destruct (decide (ele ∈ element_list)) as [Hin|Hin].
  - destruct offset_dict as [offsets|]; cbn.
    + unfold getitem. destruct (offsets !! n) as [off|] eqn:Hoff; cbn.
      * split; [|reflexivity]. intros _. exists ele. split; [reflexivity|].
        intros _ o [= <-]. rewrite Hoff. eauto.
      * split; [discriminate|]. intros (ele' & [= <-] & H).
        destruct (H Hin offsets eq_refl) as [x Hx]. congruence.
    + split; [|reflexivity]. intros _. exists ele. split; [reflexivity|].
      intros _ o [=].
  - split; [|reflexivity]. intros _. exists ele. split; [reflexivity | tauto].
Qed.

(** X23.  With a file of phase offsets, every BPM of the lattice must be
    in it: the loop over the BPMs ends without an exception exactly when
    every entry has a [PyORBIT_Name] and, if its element is in the lattice
    and a file of offsets was given, an offset under the BPM's name.  A
    BPM outside the lattice needs no offset. *)
Theorem X23_bpms_of_the_lattice_need_an_offset
    (bpms : Wiring.odict device_dict) :
  is_ok (bpm_devices bpms) = true
  <-> forall name device_dict,
        (name, device_dict) ∈ bpms ->
        exists ele_name,
          PyORBIT_Name device_dict = Some ele_name
          /\ (ele_name ∈ element_list ->
              forall offsets, offset_dict = Some offsets ->
                              is_Some (offsets !! name)).
Proof.
  unfold Startup.bpm_devices. rewrite for_items_ok. split.
  - intros H name dd Hin. exact (proj1 (bpm_round_ok (name, dd)) (H _ Hin)).
  - intros H [name dd] Hin. apply bpm_round_ok. exact (H name dd Hin).
Qed.

(** X24.  The first BPM of the lattice that the file of offsets does not
    have ends the loop with a [KeyError] of the BPM's name. *)
Theorem X24_missing_offset_is_a_KeyError
    (pre post : Wiring.odict device_dict) (name ele_name : string)
    (device_dict : device_dict) (offsets : gmap string Q) :
  offset_dict = Some offsets ->
  (forall x, x ∈ pre -> is_ok (bpm_round x) = true) ->
  PyORBIT_Name device_dict = Some ele_name ->
  ele_name ∈ element_list ->
  offsets !! name = None ->
  bpm_devices (pre ++ (name, device_dict) :: post) = Raise (KeyError name).
Proof.
  intros Hfile Hpre Hele Hin Hoff. unfold Startup.bpm_devices.
  apply for_items_first_raise; [exact Hpre|].
  unfold Startup.bpm_round; cbn [fst snd]. rewrite Hele; cbn.
  rewrite decide_True by exact Hin. rewrite Hfile. unfold getitem.
  rewrite Hoff. reflexivity.
Qed.

(** X25.  When the loop over the BPMs ends without an exception, the BPM
    devices are the entries of the configuration whose element is in the
    lattice, each with the offset the file has under its name, and with
    offset 0 when no file was given. *)
Theorem X25_bpm_offsets
    (bpms : Wiring.odict device_dict) (devices : list device)
    (name model_name : string) (phase_offset : Q) :
  bpm_devices bpms = Ok devices ->
  BPM name model_name phase_offset ∈ devices
  <-> (exists device_dict,
         (name, device_dict) ∈ bpms
         /\ PyORBIT_Name device_dict = Some model_name
         /\ model_name ∈ element_list)
      /\ offset_for name phase_offset.
Proof.
  intros Hok. rewrite (for_items_added _ _ _ Hok).
  rewrite WiringFacts.elem_of_flat_map. unfold Startup.offset_for. split.
  - intros ([n dd] & Hitem & Hdev).
    unfold added, Startup.bpm_round in Hdev; cbn [fst snd] in Hdev.
    destruct (PyORBIT_Name dd) as [ele|] eqn:Hele; cbn in Hdev;
      [|apply elem_of_nil in Hdev; destruct Hdev].
    destruct (decide (ele ∈ element_list)) as [Hin|Hin];
      [|apply elem_of_nil in Hdev; destruct Hdev].
    destruct offset_dict as [offsets|]; cbn in Hdev.
    + unfold getitem in Hdev. destruct (offsets !! n) as [off|] eqn:Hoff;
        cbn in Hdev; [|apply elem_of_nil in Hdev; destruct Hdev].
      apply list_elem_of_singleton in Hdev. injection Hdev as -> -> ->.
      split; [exists dd; auto | exact Hoff].
    + apply list_elem_of_singleton in Hdev. injection Hdev as -> -> ->.
      split; [exists dd; auto | reflexivity].
  - intros [(dd & Hitem & Hele & Hin) Hoff]. exists (name, dd).
    split; [exact Hitem|].
    unfold added, Startup.bpm_round; cbn [fst snd]. rewrite Hele; cbn.
    rewrite decide_True by exact Hin.
    destruct offset_dict as [offsets|]; cbn.
    + unfold getitem. rewrite Hoff. cbn. apply list_elem_of_here.
    + rewrite Hoff. apply list_elem_of_here.
Qed.

End BPMFacts.

Lemma X21_corrector_behind_its_own_supply_witness :
  exists devices,
    corrector_devices Demo.element_list Demo.get_B Demo.corrector_ps_names
      Demo.correctors = Ok devices
    /\ devices = take 3 devices
         ++ Corrector "DCV01" "dcv01"
              (Corrector_Power_Supply "PS_DC01" (-2 # 100)) (-1)
         :: drop 4 devices
    /\ exists pre',
         take 3 devices = pre' ++ [Corrector_Power_Supply "PS_DC01" (-2 # 100)].
Proof.
  destruct (corrector_devices Demo.element_list Demo.get_B
              Demo.corrector_ps_names Demo.correctors) as [devices|e] eqn:Hok;
    [|exfalso; vm_compute in Hok; discriminate Hok].
  exists devices. split; [reflexivity|].
  assert (Hsplit : devices = take 3 devices
            ++ Corrector "DCV01" "dcv01"
                 (Corrector_Power_Supply "PS_DC01" (-2 # 100)) (-1)
            :: drop 4 devices).
  { vm_compute in Hok. injection Hok as <-. reflexivity. }
  split; [exact Hsplit|].
  destruct (X21_corrector_behind_its_own_supply Demo.element_list Demo.get_B
              Demo.corrector_ps_names Demo.correctors devices
              (take 3 devices) (drop 4 devices) "DCV01" "dcv01"
              (Corrector_Power_Supply "PS_DC01" (-2 # 100)) (-1) Hok Hsplit)
    as (pre' & _ & _ & Hpre & _).
  exists pre'. exact Hpre.
Defined.


Lemma X23_bpms_of_the_lattice_need_an_offset_witness :
  is_ok (bpm_devices Demo.element_list (Some Demo.offset_dict) Demo.bpms) = true
  /\ forall name device_dict,
       (name, device_dict) ∈ Demo.bpms ->
       exists ele_name,
         PyORBIT_Name device_dict = Some ele_name
         /\ (ele_name ∈ Demo.element_list ->
             forall offsets, Some Demo.offset_dict = Some offsets ->
                             is_Some (offsets !! name)).
Proof.
  assert (Hok : is_ok (bpm_devices Demo.element_list (Some Demo.offset_dict)
                         Demo.bpms) = true)
    by (vm_compute; reflexivity).
  split; [exact Hok|].
  exact (proj1 (X23_bpms_of_the_lattice_need_an_offset Demo.element_list
                  (Some Demo.offset_dict) Demo.bpms) Hok).
Defined.

Lemma X24_missing_offset_is_a_KeyError_witness :
  bpm_devices Demo.element_list (Some (∅ : gmap string Q)) Demo.bpms
  = Raise (KeyError "BPM01").
Proof.
  apply (X24_missing_offset_is_a_KeyError Demo.element_list
           (Some (∅ : gmap string Q)) [] (tail Demo.bpms) "BPM01" "bpm01"
           {| PyORBIT_Name := Some "bpm01"; Polarity := None;
              Power_Supply := None |} ∅).
  - reflexivity.
  - intros x Hx. apply elem_of_nil in Hx. destruct Hx.
  - reflexivity.
  - unfold Demo.element_list. do 2 apply list_elem_of_further.
    apply list_elem_of_here.
  - reflexivity.
Defined.

Lemma X25_bpm_offsets_witness :
  exists devices,
    bpm_devices Demo.element_list (Some Demo.offset_dict) Demo.bpms = Ok devices
    /\ BPM "BPM01" "bpm01" (15 # 1) ∈ devices
    /\ offset_for (Some Demo.offset_dict) "BPM01" (15 # 1).
Proof.
  destruct (bpm_devices Demo.element_list (Some Demo.offset_dict) Demo.bpms)
    as [devices|e] eqn:Hok; [|exfalso; vm_compute in Hok; discriminate Hok].
  exists devices. split; [reflexivity|].
  assert (Hin : BPM "BPM01" "bpm01" (15 # 1) ∈ devices).
  { vm_compute in Hok. injection Hok as <-. apply list_elem_of_here. }
  split; [exact Hin|].
  exact (proj2 (proj1 (X25_bpm_offsets Demo.element_list
                         (Some Demo.offset_dict) Demo.bpms devices
                         "BPM01" "bpm01" (15 # 1) Hok) Hin)).
Defined.

End StartupFacts.
